(** * client-hunter: a verification development

    A shallow embedding of the prospecting pipeline of the repository
    (platform detector, contact extractor, search post-processing,
    batch scraper, pipeline summary and tabular export) together with the
    properties its specification states about it.

    Conventions.
    - A JavaScript string is a [string]: a sequence of code units below 256.
      Every literal of the sources is ASCII, and on such code units the
      built-ins modelled below behave as written here.
    - The network, the clock and the search engine are operations on an
      abstract world state; an [await]ed call is a computation in the monad
      [M] of state and exceptions.
    - What a request hands back as the body of a response is a [Json]
      value: the text of the body as a string, unless that text is JSON,
      which the HTTP client parses before the sources see it.
    - The HTML parser (cheerio), the e-mail syntax check (validator) and the
      URL parser (the [URL] constructor) are libraries outside the
      repository; they are parameters of the development. *)

From Stdlib Require Import ZArith QArith Ascii String List Bool Lia SpecFloat DecimalString.
From stdpp Require Import base option list gmap strings sorting.

(* ===================================================================== *)
(** * JavaScript string built-ins *)
(* ===================================================================== *)

Module JsString.

Definition code (c : ascii) : N := N_of_ascii c.

Definition in_range (lo hi : N) (c : ascii) : bool :=
  ((lo <=? code c) && (code c <=? hi))%N.

Definition is_upper (c : ascii) : bool := in_range 65 90 c.
Definition is_lower (c : ascii) : bool := in_range 97 122 c.
Definition is_alpha (c : ascii) : bool := is_upper c || is_lower c.

(** [\d] *)
Definition is_digit (c : ascii) : bool := in_range 48 57 c.

(** [\s], and the characters removed by [trim]: TAB, LF, VT, FF, CR,
    SPACE and NBSP. *)
Definition is_space (c : ascii) : bool :=
  in_range 9 13 c || (code c =? 32)%N || (code c =? 160)%N.

(** One code unit of [toLowerCase]: A-Z and the capital letters of
    U+00C0..U+00DE (all but the multiplication sign) move up by 32. *)
Definition lower_char (c : ascii) : ascii :=
  if is_upper c || (in_range 192 222 c && negb (code c =? 215)%N)
  then ascii_of_N (code c + 32)
  else c.

Fixpoint toLowerCase (s : string) : string :=
  match s with
  | EmptyString => EmptyString
  | String c s' => String (lower_char c) (toLowerCase s')
  end.

(** [s.startsWith(p)] *)
Fixpoint startsWith (s p : string) {struct p} : bool :=
  match p, s with
  | EmptyString, _ => true
  | String _ _, EmptyString => false
  | String b p', String a s' => if Ascii.eqb a b then startsWith s' p' else false
  end.

(** [s.includes(p)] *)
Fixpoint includes (s p : string) : bool :=
  startsWith s p ||
  match s with
  | EmptyString => false
  | String _ s' => includes s' p
  end.

(** [s.endsWith(p)] *)
Fixpoint endsWith (s p : string) : bool :=
  String.eqb s p ||
  match s with
  | EmptyString => false
  | String _ s' => endsWith s' p
  end.

Fixpoint filter_chars (keep : ascii -> bool) (s : string) : string :=
  match s with
  | EmptyString => EmptyString
  | String c s' =>
      if keep c then String c (filter_chars keep s') else filter_chars keep s'
  end.

Fixpoint trimStart (s : string) : string :=
  match s with
  | EmptyString => EmptyString
  | String c s' => if is_space c then trimStart s' else s
  end.

Definition trimEnd (s : string) : string :=
  String.rev (trimStart (String.rev s)).

(** [s.trim()] *)
Definition trim (s : string) : string := trimEnd (trimStart s).

(** [s.slice(n)] for [0 <= n] *)
Fixpoint drop (n : nat) (s : string) : string :=
  match n, s with
  | O, _ => s
  | S _, EmptyString => EmptyString
  | S n', String _ s' => drop n' s'
  end.

Fixpoint take (n : nat) (s : string) : string :=
  match n, s with
  | O, _ => EmptyString
  | S _, EmptyString => EmptyString
  | S n', String c s' => String c (take n' s')
  end.

(** [s.replace(pat, rep)] with a string pattern: the first occurrence. *)
Fixpoint replace_first (s pat rep : string) : string :=
  if startsWith s pat then rep +:+ drop (String.length pat) s
  else match s with
       | EmptyString => EmptyString
       | String c s' => String c (replace_first s' pat rep)
       end.

(** [s.split(sep)[0]] for a one-character separator. *)
Fixpoint before_char (sep : ascii) (s : string) : string :=
  match s with
  | EmptyString => EmptyString
  | String c s' => if Ascii.eqb c sep then EmptyString else String c (before_char sep s')
  end.

(** First index of a character, [None] when it does not occur. *)
Fixpoint index_of (sep : ascii) (s : string) : option nat :=
  match s with
  | EmptyString => None
  | String c s' =>
      if Ascii.eqb c sep then Some O else S <$> index_of sep s'
  end.

End JsString.

Import JsString.

(* ===================================================================== *)
(** * Regular expressions of the sources

    A backtracking matcher in continuation-passing style for the fragment
    the sources use: literals, character classes, concatenation, greedy
    [?] and [{lo,hi}] and a [^] assertion; the flag [i] is a parameter of
    the matcher, [g] is the difference between [test] and [match_all]. *)
(* ===================================================================== *)

Module Regex.

Inductive regex : Type :=
| Eps
| Bol                                        (* ^ *)
| Lit (c : ascii)
| Class (p : ascii -> bool)
| Cat (r1 r2 : regex)
| Opt (r : regex)                            (* r?      *)
| Repeat (lo : nat) (hi : option nat) (r : regex).  (* r{lo,hi}, r{lo,} *)

(** Canonicalisation of the flag [i]: ASCII letters compare without
    case; no other code unit is identified with an ASCII one. *)
Definition canon (c : ascii) : ascii :=
  if is_lower c then ascii_of_N (code c - 32) else c.

Definition lit_matches (icase : bool) (pat c : ascii) : bool :=
  if icase then Ascii.eqb (canon pat) (canon c) else Ascii.eqb pat c.

Section Matcher.
Context {A : Type}.
Variable icase : bool.

(** [run r pos s k]: match [r] against the input [s], which starts at
    offset [pos] of the subject, and hand what is left to [k]; the
    alternatives are tried in the order a backtracking engine does. *)
Fixpoint run (r : regex) (pos : nat) (s : string)
         (k : nat -> string -> option A) {struct r} : option A :=
  match r with
  | Eps => k pos s
  | Bol => if Nat.eqb pos 0 then k pos s else None
  | Lit c =>
      match s with
      | String d s' => if lit_matches icase c d then k (S pos) s' else None
      | EmptyString => None
      end
  | Class p =>
      match s with
      | String d s' => if p d then k (S pos) s' else None
      | EmptyString => None
      end
  | Cat r1 r2 => run r1 pos s (fun pos' s' => run r2 pos' s' k)
  | Opt r1 =>
      match run r1 pos s k with
      | Some x => Some x
      | None => k pos s
      end
  | Repeat lo hi r1 =>
      (fix loop (budget lo : nat) (pos : nat) (s : string) {struct budget} : option A :=
         match budget with
         | O => if Nat.eqb lo 0 then k pos s else None
         | S budget' =>
             match run r1 pos s (fun pos' s' => loop budget' (Nat.pred lo) pos' s') with
             | Some x => Some x
             | None => if Nat.eqb lo 0 then k pos s else None
             end
         end)
        (match hi with Some h => h | None => String.length s end) lo pos s
  end.
End Matcher.

(** The match starting exactly at the head of [s], as the number of code
    units it consumes. *)
Definition match_here (icase : bool) (r : regex) (pos : nat) (s : string) : option nat :=
  run icase r pos s (fun pos' _ => Some (pos' - pos)).

(** [regex.test(s)] without the flag [g]: a match at some offset. *)
Fixpoint test_from (icase : bool) (r : regex) (pos : nat) (s : string) : bool :=
  match match_here icase r pos s with
  | Some _ => true
  | None =>
      match s with
      | EmptyString => false
      | String _ s' => test_from icase r (S pos) s'
      end
  end.

Definition test (icase : bool) (r : regex) (s : string) : bool :=
  test_from icase r 0 s.

(** [s.match(regex) || []] with the flag [g]: every match, left to
    right, the search resuming where the previous match ended (one code
    unit further after an empty match).  [skip] counts the code units of
    the previous match that are still to be passed over. *)
Fixpoint match_all_from (icase : bool) (r : regex) (skip pos : nat) (s : string)
  : list string :=
  match skip with
  | S skip' =>
      match s with
      | EmptyString => []
      | String _ s' => match_all_from icase r skip' (S pos) s'
      end
  | O =>
      match match_here icase r pos s with
      | Some n =>
          take n s ::
            match s with
            | EmptyString => []
            | String _ s' => match_all_from icase r (Nat.pred n) (S pos) s'
            end
      | None =>
          match s with
          | EmptyString => []
          | String _ s' => match_all_from icase r 0 (S pos) s'
          end
      end
  end.

Definition match_all (icase : bool) (r : regex) (s : string) : list string :=
  match_all_from icase r 0 0 s.

(** Building blocks for writing the patterns of the sources. *)
Fixpoint lits (s : string) : regex :=
  match s with
  | EmptyString => Eps
  | String c EmptyString => Lit c
  | String c s' => Cat (Lit c) (lits s')
  end.

Fixpoint cats (rs : list regex) : regex :=
  match rs with
  | [] => Eps
  | [r] => r
  | r :: rs' => Cat r (cats rs')
  end.

Definition one_of (cs : string) (c : ascii) : bool :=
  existsb (Ascii.eqb c) (list_ascii_of_string cs).

End Regex.

Import Regex.

(* ===================================================================== *)
(** * Values, records and the environment *)
(* ===================================================================== *)

(** The JavaScript values that reach a dynamically typed field. *)
Inductive JsValue : Type :=
| JsUndefined
| JsNull
| JsBool (b : bool)
| JsNumber (x : spec_float)
| JsString (s : string).

(** ToBoolean, as used by [v ? a : b], [v || w] and [filter(x => x.f)]. *)
Definition truthy (v : JsValue) : bool :=
  match v with
  | JsUndefined | JsNull => false
  | JsBool b => b
  | JsNumber x =>
      match x with
      | S754_zero _ | S754_nan => false
      | _ => true
      end
  | JsString s => negb (String.eqb s "")
  end.

(** [v === true] *)
Definition strict_eq_true (v : JsValue) : bool :=
  match v with
  | JsBool true => true
  | _ => false
  end.

Inductive Confidence : Type := High | Medium | Low | Unknown.

(** The object returned by [isWordPressSite]. *)
Record Verdict : Type := mkVerdict {
  isWordPress : bool;
  indicator : option string;          (* [None] is [null] *)
  confidence : Confidence
}.

(** An entry of the array returned by [checkWordPressBatch]. *)
Record BatchVerdict : Type := mkBatchVerdict {
  bv_url : string;
  bv_isWordPress : bool;
  bv_indicator : option string;
  bv_confidence : Confidence;
  bv_error : option string            (* [None]: no [error] property *)
}.

Record ContactForm : Type := mkContactForm {
  cf_url : string;
  cf_action : string;
  cf_method : string
}.

(** What [extractContactInfo] returns; the two sets are arrays in insertion
    order, [socialMedia] is the object keyed by platform name. *)
Record ContactInfo : Type := mkContactInfo {
  ci_emails : list string;
  ci_phones : list string;
  ci_socialMedia : gmap string string;
  ci_contactForms : list ContactForm
}.

(** The objects of [contactData] and [wordpressSites]: a property that an
    object literal does not set is [None] (or [JsUndefined]). *)
Record Site : Type := mkSite {
  site_url : string;
  site_isWordPress : JsValue;
  site_emails : option (list string);
  site_phones : option (list string);
  site_socialMedia : option (gmap string string);
  site_contactForms : option (list ContactForm);
  site_indicator : option string;     (* [None]: [null] or no such property *)
  site_confidence : option Confidence;
  site_error : option string;
  site_extractedAt : option string
}.

Record SearchResult : Type := mkSearchResult {
  sr_url : string;
  sr_title : string;
  sr_description : string;
  sr_source : string
}.

(** The fields of a [URL] object the sources read. *)
Record Url : Type := mkUrl {
  protocol : string;                  (* with the trailing colon *)
  hostname : string;
  pathname : string
}.

(** A value [JSON.parse] can return; an array or an object is kept as the
    JSON text it was parsed from, the sources never looking inside one. *)
Inductive Json : Type :=
| JsonNull
| JsonBool (b : bool)
| JsonNumber (x : spec_float)
| JsonString (s : string)
| JsonArray (text : string)
| JsonObject (text : string).

(** A successful [axios.get].  [data] is what axios hands back as
    [response.data]: the text of the body, a string, unless that text is
    valid JSON; it is then the value the text parses to, a string only
    when the text is a JSON string. *)
Record Response : Type := mkResponse {
  status : Z;
  data : Json
}.

(** A [form] element as [extractContactInfo] looks at it. *)
Record FormEl : Type := mkFormEl {
  form_action : option string;        (* attr('action') *)
  form_method : option string;        (* attr('method') *)
  form_hasEmailField : bool;          (* find('input[type="email"], input[name*="email"]').length > 0 *)
  form_hasMessageField : bool         (* find('textarea, input[name*="message"]').length > 0 *)
}.

(** The queries the sources make on a parsed document, each in document
    order. *)
Record Dom : Type := mkDom {
  dom_text : string;                  (* $.text() *)
  dom_anchor_hrefs : list string;     (* href of every a[href] *)
  dom_data_emails : list string;      (* data-email of every [data-email] *)
  dom_meta_generator : option string; (* $('meta[name="generator"]').attr('content') *)
  dom_link_hrefs : list string;       (* href of every link[href] *)
  dom_body_class : option string;     (* $('body').attr('class') *)
  dom_forms : list FormEl             (* every form *)
}.

(** The outcome of a call that may throw an [Error] with a message. *)
Inductive Result (A : Type) : Type :=
| Ok (a : A)
| Throw (message : string).
Arguments Ok {A} a.
Arguments Throw {A} message.

(** Everything outside the repository. *)
Class Platform : Type := {
  World : Type;
  (** [axios.get(url, { timeout })]: a response with a 2xx status, or an
      exception. *)
  axios_get : string -> Z -> World -> Result Response * World;
  (** [new Date().toISOString()] *)
  date_now : World -> string * World;
  (** [await new Promise(resolve => setTimeout(resolve, ms))] *)
  sleep : Z -> World -> World;
  (** [cheerio.load(html)] on a string *)
  cheerio_load : string -> Dom;
  (** [cheerio.load] on a value that is not a string: the exception the
      library throws, or the document it makes of it, whose queries are
      then taken to answer like those of any document *)
  cheerio_load_value : Json -> Result Dom;
  (** [validator.isEmail] *)
  validator_isEmail : string -> bool;
  (** [new URL(s)], [None] when the constructor throws *)
  url_parse : string -> option Url;
  (** [GoogleSearcher.findWordPressSites], the discovery stage *)
  searcher_findWordPressSites : World -> Result (list SearchResult) * World
}.

(** ** The monad of [async] functions: world state and exceptions *)

Definition M `{Platform} (A : Type) : Type := World -> Result A * World.

Section Monad.
Context `{Platform}.

Definition ret {A} (a : A) : M A := fun w => (Ok a, w).

Definition throw {A} (message : string) : M A := fun w => (Throw message, w).

Definition bind {A B} (m : M A) (k : A -> M B) : M B :=
  fun w =>
    match m w with
    | (Ok a, w') => k a w'
    | (Throw message, w') => (Throw message, w')
    end.

(** [try { body } catch (error) { handler(error.message) }] *)
Definition try_catch {A} (body : M A) (handler : string -> M A) : M A :=
  fun w =>
    match body w with
    | (Ok a, w') => (Ok a, w')
    | (Throw message, w') => handler message w'
    end.

Definition get (url : string) (timeout : Z) : M Response := axios_get url timeout.

Definition now : M string := fun w => let (t, w') := date_now w in (Ok t, w').

Definition pause (ms : Z) : M unit := fun w => (Ok tt, sleep ms w).

(** A step that does not touch the world. *)
Definition lift {A} (r : Result A) : M A := fun w => (r, w).

(** [cheerio.load(content)] *)
Definition load (content : Json) : M Dom :=
  match content with
  | JsonString html => ret (cheerio_load html)
  | _ => lift (cheerio_load_value content)
  end.

(** [value.toLowerCase()], [name] being what the source calls the value:
    a value that is not a string has no such method, and the call throws a
    [TypeError]. *)
Definition toLowerCaseOf (name : string) (value : Json) : M string :=
  match value with
  | JsonString s => ret (toLowerCase s)
  | JsonNull => throw "Cannot read properties of null (reading 'toLowerCase')"
  | _ => throw (name +:+ ".toLowerCase is not a function")
  end.
End Monad.

Notation "'let*' x ':=' m 'in' k" := (bind m (fun x => k))
  (at level 10, x name, m at level 100, k at level 200).

(** A JavaScript [Set] of strings read back with [Array.from]: the members
    in insertion order. *)
Definition set_add (x : string) (s : list string) : list string :=
  if existsb (String.eqb x) s then s else s ++ [x].

Definition set_add_all (xs : list string) (s : list string) : list string :=
  fold_left (fun acc x => set_add x acc) xs s.

(* ===================================================================== *)
(** * WordPressDetector *)
(* ===================================================================== *)

Module WordPressDetector.

(** [this.indicators] *)
Definition indicators : list string :=
  [ "/wp-content/";
    "/wp-includes/";
    "/wp-admin/";
    "wp-json";
    "wordpress";
    "wp_enqueue_script";
    "wp-embed.min.js";
    "generator.*wordpress";
    "wp-rocket";
    "elementor";
    "woocommerce" ].

(** "Ensure URL has protocol" *)
Definition ensureProtocol (url : string) : string :=
  if negb (startsWith url "http://") && negb (startsWith url "https://")
  then "https://" +:+ url
  else url.

(** The URL of the REST probe: [`${url}/wp-json/wp/v2/posts?per_page=1`]. *)
Definition probeUrl (url : string) : string :=
  url +:+ "/wp-json/wp/v2/posts?per_page=1".

(** The [for (const indicator of this.indicators)] loop: the first
    indicator whose lower-cased form occurs in [htmlContent]. *)
Definition firstIndicator (htmlContent : string) : option string :=
  List.find (fun indicator => includes htmlContent (toLowerCase indicator)) indicators.

Section WithPlatform.
Context `{Platform}.

(** The body of the outer [try] of [isWordPressSite], after the URL got
    its protocol. *)
Definition detect (url : string) : M Verdict :=
  let* response := get url 10000 in
  let html := data response in
  let* dom := load html in
  let* htmlContent := toLowerCaseOf "html" html in
  match firstIndicator htmlContent with
  | Some indicator => ret (mkVerdict true (Some indicator) High)
  | None =>
      let generator := dom_meta_generator dom in
      if match generator with
         | Some g => negb (String.eqb g "") && includes (toLowerCase g) "wordpress"
         | None => false
         end
      then ret (mkVerdict true (Some "meta generator tag") High)
      else
        let* api :=
          try_catch
            (let* apiResponse := get (probeUrl url) 5000 in
             ret (Z.eqb (status apiResponse) 200))
            (fun _ => ret false) in
        if api : bool
        then ret (mkVerdict true (Some "WordPress REST API") High)
        else
          let links := List.filter (fun href => includes href "wp-") (dom_link_hrefs dom) in
          if Nat.ltb 0 (List.length links)
          then ret (mkVerdict true (Some "WordPress assets in link tags") Medium)
          else
            let bodyClasses := default "" (dom_body_class dom) in
            if includes bodyClasses "wp-" || includes bodyClasses "wordpress"
            then ret (mkVerdict true (Some "WordPress CSS classes") Medium)
            else ret (mkVerdict false None High)
  end.

Definition isWordPressSite (url : string) : M Verdict :=
  let url := ensureProtocol url in
  try_catch (detect url)
    (fun message =>
       throw ("Failed to check WordPress status for " +:+ url +:+ ": " +:+ message)).

(** The [for (const url of urls)] loop of [checkWordPressBatch];
    [results] is the array built so far. *)
Fixpoint checkWordPressBatch_loop (urls : list string) (results : list BatchVerdict)
  : M (list BatchVerdict) :=
  match urls with
  | [] => ret results
  | url :: rest =>
      let* results' :=
        try_catch
          (let* result := isWordPressSite url in
           let results' :=
             results ++ [mkBatchVerdict url (isWordPress result) (indicator result)
                                        (confidence result) None] in
           let* _ := pause 1000 in
           ret results')
          (fun message =>
             ret (results ++ [mkBatchVerdict url false None Unknown (Some message)])) in
      checkWordPressBatch_loop rest results'
  end.

Definition checkWordPressBatch (urls : list string) : M (list BatchVerdict) :=
  checkWordPressBatch_loop urls [].

End WithPlatform.

End WordPressDetector.

(* ===================================================================== *)
(** * EmailExtractor *)
(* ===================================================================== *)

(** What [extractFromWordPressSite] returns. *)
Record ContactRecord : Type := mkContactRecord {
  cr_url : string;
  cr_emails : list string;
  cr_phones : list string;
  cr_socialMedia : gmap string string;
  cr_contactForms : list ContactForm;
  cr_extractedAt : string
}.

Module EmailExtractor.

(** [v || d] for an attribute value: absent and empty are both falsy. *)
Definition or_default (v : option string) (d : string) : string :=
  match v with
  | Some s => if String.eqb s "" then d else s
  | None => d
  end.

Definition is_alnum (c : ascii) : bool := is_alpha c || is_digit c.

(** [[a-zA-Z0-9._%+-]] and [[a-zA-Z0-9.-]] *)
Definition local_char (c : ascii) : bool := is_alnum c || one_of "._%+-" c.
Definition domain_char (c : ascii) : bool := is_alnum c || one_of ".-" c.

Definition plus (r : regex) : regex := Repeat 1 None r.
Definition star (r : regex) : regex := Repeat 0 None r.
Definition ws : regex := star (Class is_space).

(** [/[a-zA-Z0-9._%+-]+@[a-zA-Z0-9.-]+\.[a-zA-Z]{2,}/g] *)
Definition emailRegex : regex :=
  cats [ plus (Class local_char); Lit "@"; plus (Class domain_char); Lit ".";
         Repeat 2 None (Class is_alpha) ].

(** [/\s*\[\s*at\s*\]\s*/g] and [/\s*\[\s*dot\s*\]\s*/g] *)
Definition atToken : regex := cats [ ws; Lit "["; ws; lits "at"; ws; Lit "]"; ws ].
Definition dotToken : regex := cats [ ws; Lit "["; ws; lits "dot"; ws; Lit "]"; ws ].

(** The pattern of "obfuscated emails". *)
Definition obfuscatedRegex : regex :=
  cats [ plus (Class local_char); atToken; plus (Class domain_char); dotToken;
         Repeat 2 None (Class is_alpha) ].

(** [/(\+?\d{1,4}[-.\s]?)?\(?\d{1,4}\)?[-.\s]?\d{1,4}[-.\s]?\d{1,9}/g] *)
Definition sep : regex := Class (fun c => one_of "-." c || is_space c).
Definition digits (lo hi : nat) : regex := Repeat lo (Some hi) (Class is_digit).
Definition phoneRegex : regex :=
  cats [ Opt (cats [ Opt (Lit "+"); digits 1 4; Opt sep ]);
         Opt (Lit "("); digits 1 4; Opt (Lit ")"); Opt sep;
         digits 1 4; Opt sep; digits 1 9 ].

(** [this.commonPages] *)
Definition commonPages : list string :=
  [ ""; "/contact"; "/contact-us"; "/about"; "/about-us"; "/team"; "/staff";
    "/privacy"; "/privacy-policy"; "/terms"; "/legal"; "/imprint"; "/impressum" ].

(** [s.replace(regex, rep)] with the flag [g], for a pattern that matches
    no empty string; [skip] counts the code units of the match being
    replaced that are still to be passed over. *)
Fixpoint replace_all_from (r : regex) (rep : string) (skip pos : nat) (s : string)
  : string :=
  match s with
  | EmptyString => EmptyString
  | String c s' =>
      match skip with
      | S skip' => replace_all_from r rep skip' (S pos) s'
      | O =>
          match match_here false r pos s with
          | Some (S n) => rep +:+ replace_all_from r rep n (S pos) s'
          | _ => String c (replace_all_from r rep 0 (S pos) s')
          end
      end
  end.

Definition replace_all (r : regex) (rep : string) (s : string) : string :=
  replace_all_from r rep 0 0 s.

(** [phone.replace(/[^\d+]/g, '')] *)
Definition cleanPhone (phone : string) : string :=
  filter_chars (fun c => is_digit c || Ascii.eqb c "+") phone.

(** "Extract phone numbers": the [phones.forEach] over the matches of a
    page, [phones] being the set collected so far. *)
Definition addPhone (phones : list string) (phone : string) : list string :=
  if Nat.leb 7 (String.length (cleanPhone phone))
  then set_add (trim phone) phones
  else phones.

Definition collectPhones (pageText : string) (phones : list string) : list string :=
  fold_left addPhone (match_all false phoneRegex pageText) phones.

(** The selector
    [a[href*="facebook.com"], a[href*="twitter.com"], a[href*="linkedin.com"], a[href*="instagram.com"]]. *)
Definition socialSelector (href : string) : bool :=
  includes href "facebook.com" || includes href "twitter.com" ||
  includes href "linkedin.com" || includes href "instagram.com".

Definition platformOf (href : string) : string :=
  if includes href "facebook" then "facebook"
  else if includes href "twitter" then "twitter"
  else if includes href "linkedin" then "linkedin"
  else if includes href "instagram" then "instagram"
  else "other".

(** "Extract social media links": [socialMedia[platform] = href] for each
    selected anchor, in document order. *)
Definition collectSocial (hrefs : list string) (socialMedia : gmap string string)
  : gmap string string :=
  fold_left (fun sm href => <[platformOf href := href]> sm)
            (List.filter socialSelector hrefs) socialMedia.

(** "Look for contact forms" *)
Definition collectForms (url : string) (forms : list FormEl) (acc : list ContactForm)
  : list ContactForm :=
  fold_left
    (fun acc form =>
       let action := or_default (form_action form) "" in
       if form_hasEmailField form && form_hasMessageField form
       then acc ++ [mkContactForm url action (or_default (form_method form) "POST")]
       else acc)
    forms acc.

Definition excludePatterns : list regex :=
  [ cats [ Bol; lits "no"; Opt (Lit "-"); lits "reply" ];   (* /^no-?reply/i *)
    Cat Bol (lits "donotreply");                            (* /^donotreply/i *)
    Cat Bol (lits "noreply");                               (* /^noreply/i *)
    Cat Bol (lits "support");                               (* /^support/i *)
    Cat Bol (lits "help");                                  (* /^help/i *)
    Cat Bol (lits "info@example");                          (* /^info@example/i *)
    Cat Bol (lits "test@");                                 (* /^test@/i *)
    Cat Bol (lits "admin@example");                         (* /^admin@example/i *)
    Cat Bol (lits "example@");                              (* /^example@/i *)
    Cat Bol (lits "@example") ].                            (* /^@example/i *)

(** The initial [contactInfo]: two empty sets, an empty object, an empty
    array. *)
Definition noContactInfo : ContactInfo := mkContactInfo [] [] ∅ [].

Definition filterEmails (emails : list string) : list string :=
  List.filter
    (fun email => negb (existsb (fun pattern => test true pattern email) excludePatterns))
    emails.

Section WithPlatform.
Context `{Platform}.

Definition extractEmailsFromText (text : string) : list string :=
  let emails := match_all false emailRegex text in
  set_add_all (List.filter validator_isEmail emails) [].

(** The three passes of [extractEmailsFromPage] over a parsed page. *)
Definition mailtoEmails (dom : Dom) : list string :=
  List.filter validator_isEmail
    (List.map (fun href => before_char "?" (replace_first href "mailto:" ""))
              (List.filter (fun href => startsWith href "mailto:") (dom_anchor_hrefs dom))).

Definition dataEmails (dom : Dom) : list string :=
  List.filter validator_isEmail (dom_data_emails dom).

Definition deobfuscate (obfuscated : string) : string :=
  filter_chars (fun c => negb (is_space c))
    (replace_all dotToken "." (replace_all atToken "@" obfuscated)).

Definition obfuscatedEmails (pageText : string) : list string :=
  List.filter validator_isEmail
    (List.map deobfuscate (match_all false obfuscatedRegex pageText)).

Definition emailsOfDom (dom : Dom) : list string :=
  let pageText := dom_text dom in
  let emails := set_add_all (extractEmailsFromText pageText) [] in
  let emails := set_add_all (mailtoEmails dom) emails in
  let emails := set_add_all (dataEmails dom) emails in
  set_add_all (obfuscatedEmails pageText) emails.

Definition extractEmailsFromPage (url : string) : M (list string) :=
  try_catch
    (let* response := get url 10000 in
     let* dom := load (data response) in
     ret (emailsOfDom dom))
    (fun _ => ret []).

(** One turn of the [for (const url of urlsToCheck)] loop. *)
Definition processPage (url : string) (contactInfo : ContactInfo) : M ContactInfo :=
  try_catch
    (let* response := get url 10000 in
     let* dom := load (data response) in
     let* emails := extractEmailsFromPage url in
     let contactInfo' :=
       mkContactInfo
         (set_add_all emails (ci_emails contactInfo))
         (collectPhones (dom_text dom) (ci_phones contactInfo))
         (collectSocial (dom_anchor_hrefs dom) (ci_socialMedia contactInfo))
         (collectForms url (dom_forms dom) (ci_contactForms contactInfo)) in
     let* _ := pause 1000 in
     ret contactInfo')
    (fun _ => ret contactInfo).

Fixpoint processPages (urlsToCheck : list string) (contactInfo : ContactInfo)
  : M ContactInfo :=
  match urlsToCheck with
  | [] => ret contactInfo
  | url :: rest =>
      let* contactInfo' := processPage url contactInfo in
      processPages rest contactInfo'
  end.

Definition extractContactInfo (baseUrl : string) : M ContactInfo :=
  let baseUrl := WordPressDetector.ensureProtocol baseUrl in
  let urlsToCheck := List.map (fun page => baseUrl +:+ page) commonPages in
  processPages urlsToCheck noContactInfo.

Definition extractFromWordPressSite (url : string) : M ContactRecord :=
  try_catch
    (let* contactInfo := extractContactInfo url in
     let filteredEmails := filterEmails (ci_emails contactInfo) in
     let* extractedAt := now in
     ret (mkContactRecord url filteredEmails (ci_phones contactInfo)
            (ci_socialMedia contactInfo) (ci_contactForms contactInfo) extractedAt))
    (fun message =>
       throw ("Failed to extract contact info from " +:+ url +:+ ": " +:+ message)).

End WithPlatform.

End EmailExtractor.

(* ===================================================================== *)
(** * Numbers: IEEE 754 binary64 and [toFixed(1)] *)
(* ===================================================================== *)

Module JsNumber.

Definition prec : Z := 53.
Definition emax : Z := 1024.

(** The Number nearest to an integer (an array length is exact). *)
Definition of_Z (n : Z) : spec_float := binary_normalize prec emax n 0 false.
Definition of_nat (n : nat) : spec_float := of_Z (Z.of_nat n).

Definition div : spec_float -> spec_float -> spec_float := SFdiv prec emax.
Definition mul : spec_float -> spec_float -> spec_float := SFmul prec emax.

Definition decimal (n : Z) : string :=
  NilEmpty.string_of_uint (N.to_uint (Z.to_N n)).

(** The integer [n] for which [n / 10 - m * 2^e] is as close to zero as
    possible, the larger one when there are two. *)
Definition tenths (m : positive) (e : Z) : Z :=
  if (0 <=? e)%Z
  then (10 * Z.pos m * 2 ^ e)%Z
  else ((20 * Z.pos m + 2 ^ (- e)) / 2 ^ (1 - e))%Z.

(** The digits of [n] with a point before the last one. *)
Definition fixed1 (n : Z) : string :=
  let m := decimal n in
  let m := if Nat.leb (String.length m) 1 then "0" +:+ m else m in
  let k := String.length m in
  take (k - 1) m +:+ "." +:+ JsString.drop (k - 1) m.

(** Number::toString for an integer [x >= 10^21] held in a Number: the
    shortest digit string that reads back as the same Number, in
    exponential notation. *)
Definition roundtrips (x : spec_float) (s : Z) (d : Z) : bool :=
  match SFcompare (of_Z (s * 10 ^ d)) x with
  | Some Eq => true
  | _ => false
  end.

Fixpoint shortest_digits (x : spec_float) (X : Z) (n : Z) (k : nat) (todo : nat)
  : Z * nat :=
  match todo with
  | O => (X, Z.to_nat n)
  | S todo' =>
      let d := (n - Z.of_nat k)%Z in
      let lo := (X / 10 ^ d)%Z in
      let hi := (lo + 1)%Z in
      let ok_lo := roundtrips x lo d in
      let ok_hi := roundtrips x hi d && (hi <? 10 ^ Z.of_nat k)%Z in
      let dist s := Z.abs (s * 10 ^ d - X)%Z in
      if ok_lo && ok_hi then
        (if (dist lo <? dist hi)%Z then (lo, k)
         else if (dist hi <? dist lo)%Z then (hi, k)
         else if Z.even lo then (lo, k) else (hi, k))
      else if ok_lo then (lo, k)
      else if ok_hi then (hi, k)
      else shortest_digits x X n (S k) todo'
  end.

Definition toString_large (x : spec_float) (X : Z) : string :=
  let n := Z.of_nat (String.length (decimal X)) in
  let '(s, k) := shortest_digits x X n 1 17 in
  let ds := decimal s in
  let mantissa :=
    if Nat.eqb k 1 then ds else take 1 ds +:+ "." +:+ JsString.drop 1 ds in
  mantissa +:+ "e+" +:+ decimal (n - 1).

(** [x.toFixed(1)] *)
Definition toFixed1 (x : spec_float) : string :=
  match x with
  | S754_nan => "NaN"
  | S754_infinity s => if s then "-Infinity" else "Infinity"
  | S754_zero _ => "0.0"
  | S754_finite s m e =>
      (if s then "-" else "") +:+
      (if (0 <=? e)%Z && (10 ^ 21 <=? Z.pos m * 2 ^ e)%Z
       then toString_large (S754_finite false m e) (Z.pos m * 2 ^ e)
       else fixed1 (tenths m e))
  end.

(** The mathematical value of a finite Number. *)
Definition to_Q (x : spec_float) : option Q :=
  match x with
  | S754_zero _ => Some 0%Q
  | S754_finite s m e =>
      let v := if (0 <=? e)%Z
               then inject_Z (Z.pos m * 2 ^ e)
               else Qmake (Z.pos m) (Z.to_pos (2 ^ (- e))) in
      Some (if s then Qopp v else v)
  | _ => None
  end.

(** The value of a plain decimal literal [ddd] or [ddd.ddd]. *)
Fixpoint digits_value (acc : Z) (s : string) : option Z :=
  match s with
  | EmptyString => Some acc
  | String c s' =>
      if is_digit c
      then digits_value (10 * acc + (Z.of_N (code c) - 48)) s'
      else None
  end.

Definition decimal_value (s : string) : option Q :=
  match index_of "." s with
  | None => inject_Z <$> digits_value 0 s
  | Some i =>
      let int := take i s in
      let frac := JsString.drop (S i) s in
      match digits_value 0 (int +:+ frac) with
      | Some n =>
          if Nat.eqb (String.length int) 0 || Nat.eqb (String.length frac) 0
          then None
          else Some (Qmake n (Z.to_pos (10 ^ Z.of_nat (String.length frac))))
      | None => None
      end
  end.

End JsNumber.

(** The number a field holds, when it holds a finite Number or a String
    that is a decimal literal. *)
Definition numeric_value (v : JsValue) : option Q :=
  match v with
  | JsNumber x => JsNumber.to_Q x
  | JsString s => JsNumber.decimal_value s
  | _ => None
  end.

(* ===================================================================== *)
(** * GoogleSearcher: post-processing of search results *)
(* ===================================================================== *)

Module GoogleSearcher.

Definition excludeDomains : list string :=
  [ "google.com"; "youtube.com"; "facebook.com"; "twitter.com"; "linkedin.com";
    "instagram.com"; "pinterest.com"; "reddit.com"; "wikipedia.org"; "amazon.com";
    "ebay.com"; "craigslist.org" ].

(** The [filter] callback of [deduplicateResults] with its captured
    [seen] set. *)
Fixpoint dedup_filter (seen : gset string) (results : list SearchResult)
  : list SearchResult :=
  match results with
  | [] => []
  | result :: rest =>
      let key := toLowerCase (sr_url result) in
      if decide (key ∈ seen)
      then dedup_filter seen rest
      else result :: dedup_filter ({[ key ]} ∪ seen) rest
  end.

Definition deduplicateResults (results : list SearchResult) : list SearchResult :=
  dedup_filter ∅ results.

Section WithPlatform.
Context `{Platform}.

Definition isValidUrl (url : string) : bool :=
  match url_parse url with
  | Some urlObj =>
      let hostname := toLowerCase (hostname urlObj) in
      let isExcluded :=
        existsb (fun domain => includes hostname domain || endsWith hostname domain)
                excludeDomains in
      negb isExcluded &&
      startsWith (protocol urlObj) "http" &&
      includes hostname "." &&
      negb (includes hostname "localhost")
  | None => false
  end.

Definition extractDomains (results : list SearchResult) : list string :=
  List.map
    (fun result =>
       match url_parse (sr_url result) with
       | Some url => hostname url
       | None => sr_url result
       end)
    results.

End WithPlatform.

End GoogleSearcher.

(* ===================================================================== *)
(** * WordPressScraper *)
(* ===================================================================== *)

Module WordPressScraper.

(** [this.options], as merged by the constructor. *)
Record Options : Type := mkOptions {
  respectful : bool;
  delay : Z;
  onlyWordPress : bool
}.

(** The [options] argument of [scrapeBatch]: any of the keys may be
    missing. *)
Record BatchOptions : Type := mkBatchOptions {
  bo_respectful : option bool;
  bo_delay : option Z;
  bo_onlyWordPress : option bool
}.

Definition noBatchOptions : BatchOptions := mkBatchOptions None None None.

(** [{ ...this.options, ...options }] *)
Definition mergeOptions (this : Options) (options : BatchOptions) : Options :=
  mkOptions (default (respectful this) (bo_respectful options))
            (default (delay this) (bo_delay options))
            (default (onlyWordPress this) (bo_onlyWordPress options)).

(** The record both [catch] blocks build. *)
Definition errorSite (url message extractedAt : string) : Site :=
  mkSite url (JsBool false) (Some []) (Some []) (Some ∅) (Some [])
         None None (Some message) (Some extractedAt).

(** [{ ...contactInfo, isWordPress, indicator, confidence }] *)
Definition combine (contactInfo : ContactRecord) (wpDetection : Verdict) : Site :=
  mkSite (cr_url contactInfo) (JsBool (isWordPress wpDetection))
         (Some (cr_emails contactInfo)) (Some (cr_phones contactInfo))
         (Some (cr_socialMedia contactInfo)) (Some (cr_contactForms contactInfo))
         (indicator wpDetection) (Some (confidence wpDetection))
         None (Some (cr_extractedAt contactInfo)).

Section WithPlatform.
Context `{Platform}.
Variable this : Options.

(** [None] is the [null] returned for a skipped site. *)
Definition scrapeWebsite (url : string) : M (option Site) :=
  try_catch
    (let* wpDetection := WordPressDetector.isWordPressSite url in
     if negb (isWordPress wpDetection) && onlyWordPress this
     then ret None
     else
       let* contactInfo := EmailExtractor.extractFromWordPressSite url in
       ret (Some (combine contactInfo wpDetection)))
    (fun message =>
       let* extractedAt := now in
       ret (Some (errorSite url message extractedAt))).

(** The [for (let i = 0; i < urls.length; i++)] loop: [n] is
    [urls.length], [i] the index of the head of [rest]. *)
Fixpoint scrapeBatch_loop (batchOptions : Options) (n i : nat) (rest : list string)
         (results : list Site) : M (list Site) :=
  match rest with
  | [] => ret results
  | url :: rest' =>
      let* results' :=
        try_catch
          (let* result := scrapeWebsite url in
           let results' :=
             match result with
             | Some site => results ++ [site]
             | None => results
             end in
           let* _ :=
             if respectful batchOptions && Nat.ltb i (n - 1)
             then pause (delay batchOptions)
             else ret tt in
           ret results')
          (fun message =>
             let* extractedAt := now in
             ret (results ++ [errorSite url message extractedAt])) in
      scrapeBatch_loop batchOptions n (S i) rest' results'
  end.

Definition scrapeBatch (urls : list string) (options : BatchOptions) : M (list Site) :=
  let batchOptions := mergeOptions this options in
  scrapeBatch_loop batchOptions (List.length urls) 0 urls [].

End WithPlatform.

End WordPressScraper.

(* ===================================================================== *)
(** * DataExporter: the rows of the tabular export *)
(* ===================================================================== *)

Module DataExporter.

Record CsvRow : Type := mkCsvRow {
  row_url : string;
  row_email : string;
  row_phones : string;
  row_facebook : string;
  row_twitter : string;
  row_linkedin : string;
  row_instagram : string;
  row_hasContactForm : string;
  row_wordpressDetected : string;
  row_detectionMethod : string;
  row_extractedAt : string
}.

Definition yesNo (b : bool) : string := if b then "Yes" else "No".

(** [site.socialMedia?.platform || ''] *)
Definition social (site : Site) (platform : string) : string :=
  EmailExtractor.or_default (site_socialMedia site ≫= (fun sm => sm !! platform)) "".

Definition row (site : Site) (email : string) : CsvRow :=
  mkCsvRow
    (site_url site)
    email
    (match site_phones site with
     | Some phones => String.concat "; " phones
     | None => ""
     end)
    (social site "facebook") (social site "twitter")
    (social site "linkedin") (social site "instagram")
    (yesNo (match site_contactForms site with
            | Some forms => Nat.ltb 0 (List.length forms)
            | None => false
            end))
    (yesNo (truthy (site_isWordPress site)))
    (EmailExtractor.or_default (site_indicator site) "")
    (EmailExtractor.or_default (site_extractedAt site) "").

(** The array [csvData] that [exportToCSV] hands to the CSV writer. *)
Definition csvData (data : list Site) : list CsvRow :=
  List.flat_map
    (fun site =>
       match site_emails site with
       | Some ((_ :: _) as emails) => List.map (row site) emails
       | _ => [row site ""]
       end)
    data.

End DataExporter.

(* ===================================================================== *)
(** * WordPressProspector: the pipeline and its summary *)
(* ===================================================================== *)

Module WordPressProspector.

(** [this.options] of the prospector. *)
Record Options : Type := mkOptions {
  validateWordPress : bool;
  extractEmails : bool
}.

Record Summary : Type := mkSummary {
  totalSearchResults : nat;
  sitesValidated : nat;
  confirmedWordPressSites : nat;
  sitesWithContactInfo : nat;
  totalEmails : nat;
  wordpressDetectionRate : JsValue;
  avgEmailsPerSite : JsValue;
  uniqueEmails : nat
}.

(** [summary = None] is the initial empty object. *)
Record Pipeline : Type := mkPipeline {
  searchResults : list SearchResult;
  wordpressSites : list Site;
  contactData : list Site;
  summary : option Summary
}.

(** [{ url, isWordPress: 'not_validated' }] *)
Definition notValidated (url : string) : Site :=
  mkSite url (JsString "not_validated") None None None None None None None None.

(** [site.emails && site.emails.length > 0] *)
Definition hasEmails (site : Site) : bool :=
  match site_emails site with
  | Some emails => Nat.ltb 0 (List.length emails)
  | None => false
  end.

(** [site.emails ? site.emails.length : 0] *)
Definition emailCount (site : Site) : nat :=
  match site_emails site with
  | Some emails => List.length emails
  | None => 0
  end.

(** [(a / b * 100).toFixed(1)] and [(a / b).toFixed(1)] on counts. *)
Definition percentage (a b : nat) : string :=
  JsNumber.toFixed1
    (JsNumber.mul (JsNumber.div (JsNumber.of_nat a) (JsNumber.of_nat b))
                  (JsNumber.of_Z 100)).

Definition ratio (a b : nat) : string :=
  JsNumber.toFixed1 (JsNumber.div (JsNumber.of_nat a) (JsNumber.of_nat b)).

Definition zero : JsValue := JsNumber (S754_zero false).

Definition generateSummary (pipeline : Pipeline) : Summary :=
  let totalSearchResults := List.length (searchResults pipeline) in
  let sitesValidated := List.length (wordpressSites pipeline) in
  let confirmedWordPressSites :=
    List.length (List.filter (fun site => strict_eq_true (site_isWordPress site))
                             (wordpressSites pipeline)) in
  let sitesWithContactInfo :=
    List.length (List.filter hasEmails (contactData pipeline)) in
  let totalEmails :=
    fold_left (fun sum site => sum + emailCount site) (contactData pipeline) 0 in
  let wordpressDetectionRate :=
    if Nat.ltb 0 sitesValidated
    then JsString (percentage confirmedWordPressSites sitesValidated)
    else zero in
  let avgEmailsPerSite :=
    if Nat.ltb 0 sitesWithContactInfo
    then JsString (ratio totalEmails sitesWithContactInfo)
    else zero in
  let allEmails :=
    fold_left
      (fun all site =>
         match site_emails site with
         | Some emails => set_add_all emails all
         | None => all
         end)
      (contactData pipeline) [] in
  mkSummary totalSearchResults sitesValidated confirmedWordPressSites
            sitesWithContactInfo totalEmails wordpressDetectionRate
            avgEmailsPerSite (List.length allEmails).

Section WithPlatform.
Context `{Platform}.
Variable this : Options.
Variable scraper : WordPressScraper.Options.

(** Steps 2 and 3 and the summary, once the search returned results. *)
Definition validateAndExtract (found : list SearchResult) : M Pipeline :=
  let urls := GoogleSearcher.extractDomains found in
  let* validated :=
    if validateWordPress this
    then
      let* wordpressDetection :=
        WordPressScraper.scrapeBatch scraper urls
          (WordPressScraper.mkBatchOptions None (Some 1500%Z) (Some false)) in
      let sites := List.filter (fun site => truthy (site_isWordPress site))
                               wordpressDetection in
      ret (sites, List.map site_url sites)
    else ret (List.map notValidated urls, urls) in
  let '(sites, validatedSites) := validated in
  let* contactResults :=
    if extractEmails this && Nat.ltb 0 (List.length validatedSites)
    then
      WordPressScraper.scrapeBatch scraper validatedSites
        (WordPressScraper.mkBatchOptions None (Some 2000%Z) (Some false))
    else ret [] in
  let pipeline := mkPipeline found sites contactResults None in
  ret (mkPipeline found sites contactResults (Some (generateSummary pipeline))).

Definition findAndScrapeWordPressSites : M Pipeline :=
  try_catch
    (let* found := searcher_findWordPressSites in
     if Nat.eqb (List.length found) 0
     then ret (mkPipeline found [] [] None)
     else validateAndExtract found)
    (fun message => throw message).

(** What [exportResults] passes to [exporter.exportAll], when it calls
    it at all. *)
Definition exportedData (pipeline : Pipeline) : option (list Site) :=
  if Nat.ltb 0 (List.length (contactData pipeline))
  then Some (contactData pipeline)
  else None.

End WithPlatform.

End WordPressProspector.

(* ===================================================================== *)
(** * What a run of a batch goes through

    The outcomes a loop meets, each computed in the world the turns before
    it left behind; the properties below relate the result of a batch to
    them. *)
(* ===================================================================== *)

Module Trace.

(** The record [checkWordPressBatch] makes of one detection. *)
Definition verdictRecord (url : string) (outcome : Result Verdict) : BatchVerdict :=
  match outcome with
  | Ok result =>
      mkBatchVerdict url (isWordPress result) (indicator result) (confidence result) None
  | Throw message => mkBatchVerdict url false None Unknown (Some message)
  end.

(** The verdict a record carries is a boolean. *)
Definition booleanVerdict (site : Site) : Prop :=
  ∃ b, site_isWordPress site = JsBool b.

(** What a batch of a scraper built with [onlyWordPress] is to report of a
    turn, as URL, verdict and error: the URL with the verdict [true] after
    a positive detection, nothing after a negative one, the URL with the
    verdict [false] and the message after a detection that threw. *)
Definition reportOf (url : string) (outcome : Result Verdict)
  : list (string * JsValue * option string) :=
  match outcome with
  | Ok verdict => if isWordPress verdict then [(url, JsBool true, None)] else []
  | Throw message => [(url, JsBool false, Some message)]
  end.

Section WithPlatform.
Context `{Platform}.

(** The world after the pause that may follow turn [i] of the [n] turns
    of [scrapeBatch]. *)
Definition afterTurn (batchOptions : WordPressScraper.Options) (n i : nat) (w : World)
  : World :=
  if WordPressScraper.respectful batchOptions && Nat.ltb i (n - 1)
  then sleep (WordPressScraper.delay batchOptions) w
  else w.

(** The outcome of the detection that opens each turn of [scrapeBatch],
    in the world the turns before it left. *)
Fixpoint batchDetections (this batchOptions : WordPressScraper.Options) (n i : nat)
         (urls : list string) (w : World) : list (Result Verdict) :=
  match urls with
  | [] => []
  | url :: rest =>
      fst (WordPressDetector.isWordPressSite url w) ::
        batchDetections this batchOptions n (S i) rest
          (afterTurn batchOptions n i (snd (WordPressScraper.scrapeWebsite this url w)))
  end.

(** The outcomes of [isWordPressSite] on the URLs of a batch, in
    order; a successful detection is followed by the pause. *)
Fixpoint detections (urls : list string) (w : World) : list (Result Verdict) :=
  match urls with
  | [] => []
  | url :: rest =>
      let (outcome, w1) := WordPressDetector.isWordPressSite url w in
      outcome ::
        detections rest
          (match outcome with
           | Ok _ => sleep 1000 w1
           | Throw _ => w1
           end)
  end.

(** The document of a sub-page, when its first request succeeds and the
    body can be loaded. *)
Definition pageDom (url : string) (w : World) : option Dom :=
  match axios_get url 10000 w with
  | (Ok response, w1) =>
      match load (data response) w1 with
      | (Ok dom, _) => Some dom
      | (Throw _, _) => None
      end
  | (Throw _, _) => None
  end.

(** The documents [extractContactInfo] gets to read, in the order of
    the crawl. *)
Fixpoint pagesRead (urlsToCheck : list string) (w : World) : list Dom :=
  match urlsToCheck with
  | [] => []
  | url :: rest =>
      match pageDom url w with
      | Some dom => [dom]
      | None => []
      end ++
      pagesRead rest
        (snd (EmailExtractor.processPage url EmailExtractor.noContactInfo w))
  end.

(** Every anchor target [extractContactInfo] sees for a site: page
    after page, in document order within a page. *)
Definition anchorsRead (baseUrl : string) (w : World) : list string :=
  let baseUrl := WordPressDetector.ensureProtocol baseUrl in
  List.concat
    (List.map dom_anchor_hrefs
       (pagesRead (List.map (fun page => baseUrl +:+ page) EmailExtractor.commonPages) w)).

End WithPlatform.

End Trace.

(** [p] occurs in [s] when case is ignored: some substring of [s] and [p]
    have the same lower-case form. *)
Definition occurs_ci (p s : string) : Prop :=
  ∃ a m b, s = a +:+ m +:+ b ∧ toLowerCase m = toLowerCase p.

(* ===================================================================== *)
(** * A small static web

    A concrete environment on which the functions above run: six sites
    answer with a page at their root URL only, one address answers with
    JSON text, every other request fails.  The world state is the log of
    the requests made so far, latest first. *)
(* ===================================================================== *)

Module Fixture.

Definition emptyDom : Dom := mkDom "" [] [] None [] None [].

Definition shop_html : string :=
  "<html><head><link rel='stylesheet' href='/wp-content/themes/a/style.css'></head><body><p>Call (555) 123-4567</p><a href='mailto:info@realcompany.com'>Mail us</a></body></html>".
Definition shop_dom : Dom :=
  mkDom "Call (555) 123-4567Mail us" ["mailto:info@realcompany.com"] [] None
        ["/wp-content/themes/a/style.css"] None [].

Definition plain_html : string := "<html><body><p>Hello</p></body></html>".
Definition plain_dom : Dom := mkDom "Hello" [] [] None [] None [].

Definition demo_html : string :=
  "<html><body><a href='mailto:user@example.com'>Write to us</a></body></html>".
Definition demo_dom : Dom :=
  mkDom "Write to us" ["mailto:user@example.com"] [] None [] None [].

Definition social_html : string :=
  "<html><body><a href='https://facebook.com/old-page'>F</a><a href='https://twitter.com/acme'>T</a><a href='https://facebook.com/new-page'>F</a></body></html>".
Definition social_dom : Dom :=
  mkDom "FTF"
        ["https://facebook.com/old-page"; "https://twitter.com/acme";
         "https://facebook.com/new-page"]
        [] None [] None [].

Definition phone_html : string := "<html><body>Tel: +123456</body></html>".
Definition phone_dom : Dom := mkDom "Tel: +123456" [] [] None [] None [].

Definition tweets_html : string :=
  "<html><body><a href='https://twitter.com/acme'>T</a><a href='https://twitter.com/acme_facebook_fans'>Fans</a></body></html>".
Definition tweets_dom : Dom :=
  mkDom "TFans" ["https://twitter.com/acme"; "https://twitter.com/acme_facebook_fans"]
        [] None [] None [].

(** A body that is the JSON text of an object with one member, [theme],
    and the value axios makes of it. *)
Definition api_body : string :=
  "{" +:+ String "034" "theme" +:+ String "034" ":" +:+
  String "034" "/wp-content/themes/a/" +:+ String "034" "}".
Definition api_data : Json := JsonObject api_body.

Definition sites : list (string * (string * Dom)) :=
  [ ("https://shop.test", (shop_html, shop_dom));
    ("https://plain.test", (plain_html, plain_dom));
    ("https://demo.test", (demo_html, demo_dom));
    ("https://social.test", (social_html, social_dom));
    ("https://phone.test", (phone_html, phone_dom));
    ("https://tweets.test", (tweets_html, tweets_dom)) ].

Fixpoint lookup {A} (key : string) (table : list (string * A)) : option A :=
  match table with
  | [] => None
  | (k, v) :: rest => if String.eqb k key then Some v else lookup key rest
  end.

Definition fetch (url : string) (timeout : Z) (log : list string)
  : Result Response * list string :=
  (if String.eqb url "https://api.test" then Ok (mkResponse 200 api_data)
   else match lookup url sites with
        | Some (html, _) => Ok (mkResponse 200 (JsonString html))
        | None => Throw "Request failed with status code 404"
        end, url :: log).

Definition load (html : string) : Dom :=
  default emptyDom (lookup html (List.map snd sites)).

(** A stand-in for the library on what is not a string: [null] is
    refused, anything else gives a document without content. *)
Definition loadValue (value : Json) : Result Dom :=
  match value with
  | JsonNull => Throw "cheerio.load() expects a string"
  | _ => Ok emptyDom
  end.

(** A stand-in for the syntax check: the whole string has the shape of
    [emailRegex]. *)
Definition isEmail (s : string) : bool :=
  match run false EmailExtractor.emailRegex 0 s
            (fun _ rest => if String.eqb rest "" then Some tt else None) with
  | Some _ => true
  | None => false
  end.

Fixpoint before_any (seps : string) (s : string) : string :=
  match s with
  | EmptyString => EmptyString
  | String c s' => if one_of seps c then EmptyString else String c (before_any seps s')
  end.

(** The URL constructor on [scheme://host[:port][/path][?query][#fragment]];
    anything else is refused. *)
Definition parseUrl (s : string) : option Url :=
  match index_of ":" s with
  | Some i =>
      let scheme := take i s in
      let rest := JsString.drop (S i) s in
      if Nat.ltb 0 i
         && forallb (fun c => EmailExtractor.is_alnum c || one_of "+-." c)
                    (list_ascii_of_string scheme)
         && startsWith rest "//"
      then
        let after := JsString.drop 2 rest in
        let authority := before_any "/?#" after in
        let host := before_char ":" authority in
        let path := before_any "?#" (JsString.drop (String.length authority) after) in
        if String.eqb host "" then None
        else Some (mkUrl (toLowerCase scheme +:+ ":") (toLowerCase host)
                         (if String.eqb path "" then "/" else path))
      else None
  | None => None
  end.

(** The anchors of the page a site serves at its root. *)
Definition dom_anchor_hrefs_of (site : string) : list string :=
  match lookup (WordPressDetector.ensureProtocol site) sites with
  | Some (_, dom) => dom_anchor_hrefs dom
  | None => []
  end.

(** A pipeline state with three validated sites, one of them confirmed. *)
Definition checkedSite (url : string) (confirmed : bool) : Site :=
  mkSite url (JsBool confirmed) (Some []) (Some []) (Some ∅) (Some [])
         None (Some High) None (Some "2024-01-01T00:00:00.000Z").

Definition oneInThree : WordPressProspector.Pipeline :=
  WordPressProspector.mkPipeline []
    [ checkedSite "a.test" true; checkedSite "b.test" false; checkedSite "c.test" false ]
    [] None.

Definition found : list SearchResult :=
  [ mkSearchResult "https://shop.test/" "Shop" "No description" "google_search";
    mkSearchResult "https://plain.test/about" "Plain" "No description" "google_search" ].

#[export] Instance web : Platform := {|
  World := list string;
  axios_get := fetch;
  date_now := fun log => ("2024-01-01T00:00:00.000Z", log);
  sleep := fun _ log => log;
  cheerio_load := load;
  cheerio_load_value := loadValue;
  validator_isEmail := isEmail;
  url_parse := parseUrl;
  searcher_findWordPressSites := fun log => (Ok found, log)
|}.

End Fixture.

(* ===================================================================== *)
(** * The rest of the sources

    The functions around those above: the invariant of a crawl, the search
    stage of [GoogleSearcher], the input side of [WordPressScraper], the
    flat e-mail list and the totals of [DataExporter], and the
    recommendations of [WordPressProspector]. *)
(* ===================================================================== *)

Module Collected.

(** The beginnings, in lower case, of the addresses [excludePatterns]
    is about; [/^no-?reply/i] stands for two of them. *)
Definition excludedPrefixes : list string :=
  [ "noreply"; "no-reply"; "donotreply"; "support"; "help"; "info@example";
    "test@"; "admin@example"; "example@"; "@example" ].

Section WithPlatform.
Context `{Platform}.

(** What holds of the data collected during a crawl of the pages under
    [base], turn after turn. *)
Definition collected (base : string) (contactInfo : ContactInfo) : Prop :=
  List.NoDup (ci_emails contactInfo) ∧
  List.Forall (fun email => validator_isEmail email = true) (ci_emails contactInfo) ∧
  List.NoDup (ci_phones contactInfo) ∧
  List.Forall (fun p => 7 ≤ String.length (EmailExtractor.cleanPhone p))
              (ci_phones contactInfo) ∧
  (∀ k v, ci_socialMedia contactInfo !! k = Some v →
          EmailExtractor.socialSelector v = true ∧ EmailExtractor.platformOf v = k) ∧
  List.Forall (fun cf => cf_method cf ≠ "" ∧
                         ∃ page, In page EmailExtractor.commonPages ∧
                                 cf_url cf = base +:+ page)
              (ci_contactForms contactInfo).

End WithPlatform.

End Collected.

(** ** GoogleSearcher: cleaning, parsing and the search loops *)

(** A result block of a search page, as [parseGoogleResults] reads it. *)
Record ResultBlock : Type := mkResultBlock {
  rb_href : option string;    (* find('a[href]').first().attr('href'); [None]: no link *)
  rb_h3 : string;             (* find('h3').text() *)
  rb_heading : string;        (* find('[role="heading"]').text() *)
  rb_snippet : string;        (* find('span:contains("...")').parent().text() *)
  rb_sncf : string            (* find('div[data-sncf]').text() *)
}.

Module GoogleSearch.

(** [this.options] of the searcher, as merged by the constructor (the user
    agent only goes into the request headers, which the world does not
    see). *)
Record Options : Type := mkOptions {
  delay : Z;
  maxPages : nat;
  resultsPerPage : nat;
  language : string
}.

(** The [options] argument of [searchGoogle], [findWordPressSites] and
    [searchByKeywords]: any key may be missing. *)
Record CallOptions : Type := mkCallOptions {
  co_delay : option Z;
  co_maxPages : option nat;
  co_resultsPerPage : option nat;
  co_language : option string;
  co_industry : option string;
  co_customQueries : option (list string);
  co_maxResults : option nat
}.

Definition noCallOptions : CallOptions :=
  mkCallOptions None None None None None None None.

(** [{ ...this.options, ...options }] *)
Definition mergeOptions (this : Options) (options : CallOptions) : Options :=
  mkOptions (default (delay this) (co_delay options))
            (default (maxPages this) (co_maxPages options))
            (default (resultsPerPage this) (co_resultsPerPage options))
            (default (language this) (co_language options)).

(** [s.slice(0, -1)] *)
Fixpoint dropLast (s : string) : string :=
  match s with
  | EmptyString => EmptyString
  | String c EmptyString => EmptyString
  | String c s' => String c (dropLast s')
  end.

(** [a || b] on strings *)
Definition orElse (a b : string) : string := if String.eqb a "" then b else a.

Definition resultSelectors : list string := [ "div.g"; "div.tF2Cxc"; "div.hlcw0c" ].

(** The double quote, and a phrase between two of them. *)
Definition dq : string := String "034" EmptyString.
Definition quoted (phrase : string) : string := dq +:+ phrase +:+ dq.

(** [this.wordpressQueries] *)
Definition wordpressQueries : list string :=
  [ "site:*/wp-content/";
    "site:*/wp-includes/";
    "site:*/wp-admin/";
    quoted "powered by wordpress";
    quoted "wordpress theme";
    quoted "wp-content/themes";
    quoted "wp-content/plugins";
    "inurl:wp-content";
    "inurl:wp-includes";
    "filetype:xml " +:+ quoted "wordpress";
    quoted "wp-json/wp/v2" ].

(** [this.industryQueries] *)
Definition industryQueries : list (string * list string) :=
  [ ("agencies",
     [ quoted "web design agency" +:+ " " +:+ quoted "powered by wordpress";
       quoted "digital agency" +:+ " inurl:wp-content";
       quoted "marketing agency" +:+ " site:*/wp-admin/";
       quoted "creative agency" +:+ " " +:+ quoted "wordpress theme" ]);
    ("ecommerce",
     [ quoted "woocommerce" +:+ " " +:+ quoted "powered by wordpress";
       quoted "online store" +:+ " inurl:wp-content";
       quoted "shop" +:+ " " +:+ quoted "wp-content/plugins/woocommerce";
       quoted "ecommerce" +:+ " " +:+ quoted "wordpress" ]);
    ("blogs",
     [ quoted "blog" +:+ " " +:+ quoted "powered by wordpress";
       quoted "personal blog" +:+ " inurl:wp-content";
       quoted "news" +:+ " " +:+ quoted "wordpress theme";
       quoted "magazine" +:+ " site:*/wp-content/" ]);
    ("business",
     [ quoted "company" +:+ " " +:+ quoted "powered by wordpress";
       quoted "business" +:+ " inurl:wp-content";
       quoted "corporate" +:+ " " +:+ quoted "wordpress theme";
       quoted "services" +:+ " site:*/wp-admin/" ]);
    ("freelancers",
     [ quoted "freelancer" +:+ " " +:+ quoted "powered by wordpress";
       quoted "portfolio" +:+ " inurl:wp-content";
       quoted "designer" +:+ " " +:+ quoted "wordpress theme";
       quoted "developer" +:+ " site:*/wp-content/" ]) ].

(** [table[key]] among the properties of the object's own. *)
Fixpoint ownProperty {A} (key : string) (table : list (string * A)) : option A :=
  match table with
  | [] => None
  | (k, v) :: rest => if String.eqb k key then Some v else ownProperty key rest
  end.

(** The property names every object inherits: [this.industryQueries[name]]
    is then a function, or the prototype itself, and spreading it
    throws. *)
Definition inheritedKeys : list string :=
  [ "constructor"; "__defineGetter__"; "__defineSetter__"; "hasOwnProperty";
    "__lookupGetter__"; "__lookupSetter__"; "isPrototypeOf"; "propertyIsEnumerable";
    "toString"; "valueOf"; "__proto__"; "toLocaleString" ].

(** The message of the engine for a spread of what is not iterable. *)
Definition notIterable : string :=
  "Spread syntax requires ...iterable[Symbol.iterator] to be a function".

(** The serialisation of [URLSearchParams]: a space becomes [+], letters,
    digits and [*-._] stay, any other code unit is written as the bytes of
    its UTF-8 form, each as [%] and two capital hexadecimal digits. *)
Definition hexDigit (n : N) : ascii :=
  if (n <? 10)%N then ascii_of_N (48 + n) else ascii_of_N (55 + n).

Definition percent (byte : N) : string :=
  String "%" (String (hexDigit (byte / 16)) (String (hexDigit (byte mod 16)) EmptyString)).

Definition encodeChar (c : ascii) : string :=
  if Ascii.eqb c " " then "+"
  else if EmailExtractor.is_alnum c || one_of "*-._" c then String c EmptyString
  else if (code c <? 128)%N then percent (code c)
  else percent (192 + code c / 64) +:+ percent (128 + code c mod 64).

Fixpoint formEncode (s : string) : string :=
  match s with
  | EmptyString => EmptyString
  | String c s' => encodeChar c +:+ formEncode s'
  end.

Definition searchParams (params : list (string * string)) : string :=
  String.concat "&"
    (List.map (fun '(name, value) => formEncode name +:+ "=" +:+ formEncode value) params).

Definition buildGoogleSearchUrl (query : string) (start : nat) (options : Options) : string :=
  "https://www.google.com/search" +:+ "?" +:+
  searchParams
    [ ("q", query);
      ("start", JsNumber.decimal (Z.of_nat start));
      ("num", JsNumber.decimal
                (Z.of_nat (if Nat.eqb (resultsPerPage options) 0
                           then 10 else resultsPerPage options)));
      ("hl", orElse (language options) "en");
      ("safe", "active");
      ("filter", "0") ].

Section WithPlatform.
Context `{Platform}.

(** [$(selector)] on a search page, in document order. *)
Variable select_blocks : string → string → list ResultBlock.

(** [$(selector)] on the document the library makes of a value that is
    not a string. *)
Variable select_blocks_value : string → Json → list ResultBlock.

(** [new URLSearchParams(s).get('q')], [None] for [null]. *)
Variable search_param_q : string → option string.

Definition cleanUrl (url : string) : string :=
  match url_parse url with
  | Some urlObj =>
      let cleanUrl := protocol urlObj +:+ "//" +:+ hostname urlObj +:+ pathname urlObj in
      if endsWith cleanUrl "/" && negb (String.eqb (pathname urlObj) "/")
      then dropLast cleanUrl
      else cleanUrl
  | None => url
  end.

(** The URL a result block links to, through the redirect wrapper or
    directly. *)
Definition blockUrl (block : ResultBlock) : option string :=
  match rb_href block with
  | Some href =>
      if negb (String.eqb href "") && startsWith href "/url?q="
      then search_param_q (JsString.drop 6 href)
      else if negb (String.eqb href "") && startsWith href "http"
           then Some href
           else None
  | None => None
  end.

(** The body of the [each] callback: the result a block contributes. *)
Definition blockResult (block : ResultBlock) : list SearchResult :=
  match blockUrl block with
  | Some url =>
      if String.eqb url "" then []
      else
        let title := orElse (trim (rb_h3 block)) (orElse (trim (rb_heading block)) "No title") in
        let description :=
          orElse (trim (rb_snippet block))
                 (orElse (trim (rb_sncf block)) "No description") in
        let cleanUrl := cleanUrl url in
        if negb (String.eqb cleanUrl "") && GoogleSearcher.isValidUrl cleanUrl
        then [mkSearchResult cleanUrl title description "google_search"]
        else []
  | None => []
  end.

(** What [parseGoogleResults] lets through: a URL that passes
    [isValidUrl], a title and a description that are not empty, and the
    tag of the source. *)
Definition accepted (result : SearchResult) : Prop :=
  GoogleSearcher.isValidUrl (sr_url result) = true ∧
  sr_url result ≠ "" ∧
  sr_title result ≠ "" ∧
  sr_description result ≠ "" ∧
  sr_source result = "google_search".

Definition parseGoogleResults (html : string) : list SearchResult :=
  List.flat_map
    (fun selector => List.flat_map blockResult (select_blocks selector html))
    resultSelectors.

(** [this.parseGoogleResults(response.data)]: the body as axios hands it
    back is loaded, then searched with the three selectors. *)
Definition parseResponse (content : Json) : M (list SearchResult) :=
  match content with
  | JsonString html => ret (parseGoogleResults html)
  | _ =>
      let* _ := load content in
      ret (List.flat_map
             (fun selector => List.flat_map blockResult (select_blocks_value selector content))
             resultSelectors)
  end.

(** The [for (let page = 0; page < searchOptions.maxPages; page++)] loop;
    [remaining] pages are still to be asked for, [None] from a turn is the
    [break]. *)
Fixpoint searchGoogle_loop (searchOptions : Options) (query : string)
         (page remaining : nat) (results : list SearchResult) : M (list SearchResult) :=
  match remaining with
  | O => ret results
  | S remaining' =>
      let* turn :=
        try_catch
          (let start := page * resultsPerPage searchOptions in
           let searchUrl := buildGoogleSearchUrl query start searchOptions in
           let* response := get searchUrl 15000 in
           let* pageResults := parseResponse (data response) in
           let results' := results ++ pageResults in
           let* _ :=
             if Nat.ltb page (maxPages searchOptions - 1)
             then pause (delay searchOptions)
             else ret tt in
           ret (Some results'))
          (fun _ => ret None) in
      match turn with
      | Some results' => searchGoogle_loop searchOptions query (S page) remaining' results'
      | None => ret results
      end
  end.

Definition searchGoogle (this : Options) (query : string) (options : CallOptions)
  : M (list SearchResult) :=
  let searchOptions := mergeOptions this options in
  try_catch
    (let* results := searchGoogle_loop searchOptions query 0 (maxPages searchOptions) [] in
     ret (GoogleSearcher.deduplicateResults results))
    (fun message => throw ("Google search failed: " +:+ message)).

(** [maxResults && allResults.length >= maxResults] *)
Definition capReached (maxResults : option nat) (allResults : list SearchResult) : bool :=
  match maxResults with
  | Some m => Nat.ltb 0 m && Nat.leb m (List.length allResults)
  | None => false
  end.

(** The [for (let i = 0; i < queriesToUse.length; i++)] loop of
    [findWordPressSites]; [n] is [queriesToUse.length]. *)
Fixpoint findWordPressSites_loop (this : Options) (options : CallOptions) (n i : nat)
         (queries : list string) (allResults : list SearchResult)
  : M (list SearchResult) :=
  match queries with
  | [] => ret allResults
  | query :: rest =>
      let* turn :=
        try_catch
          (let* results := searchGoogle this query options in
           let allResults' := allResults ++ results in
           if capReached (co_maxResults options) allResults'
           then ret (allResults', true)
           else
             let* _ :=
               if Nat.ltb i (n - 1) then pause (delay this) else ret tt in
             ret (allResults', false))
          (fun _ => ret (allResults, false)) in
      if snd turn
      then ret (fst turn)
      else findWordPressSites_loop this options n (S i) rest (fst turn)
  end.

(** [maxResults ? uniqueResults.slice(0, maxResults) : uniqueResults] *)
Definition capResults (maxResults : option nat) (uniqueResults : list SearchResult)
  : list SearchResult :=
  match maxResults with
  | Some (S m) => List.firstn (S m) uniqueResults
  | _ => uniqueResults
  end.

Definition findWordPressSites (this : Options) (options : CallOptions)
  : M (list SearchResult) :=
  let industryPart :=
    match co_industry options with
    | Some industry =>
        if String.eqb industry "" then Ok []
        else match ownProperty industry industryQueries with
             | Some queries => Ok queries
             | None =>
                 if existsb (String.eqb industry) inheritedKeys
                 then Throw notIterable
                 else Ok []
             end
    | None => Ok []
    end in
  match industryPart with
  | Throw message => throw message
  | Ok industryPart =>
      let queriesToUse :=
        wordpressQueries ++ industryPart ++ default [] (co_customQueries options) in
      let* allResults :=
        findWordPressSites_loop this options (List.length queriesToUse) 0 queriesToUse [] in
      let uniqueResults := GoogleSearcher.deduplicateResults allResults in
      ret (capResults (co_maxResults options) uniqueResults)
  end.

(** The [for (const query of queries)] loop of [searchByKeywords]. *)
Fixpoint searchByKeywords_loop (this : Options) (options : CallOptions)
         (queries : list string) (allResults : list SearchResult)
  : M (list SearchResult) :=
  match queries with
  | [] => ret allResults
  | query :: rest =>
      let* allResults' :=
        try_catch
          (let* results := searchGoogle this query options in
           let* _ := pause (delay this) in
           ret (allResults ++ results))
          (fun _ => ret allResults) in
      searchByKeywords_loop this options rest allResults'
  end.

Definition searchByKeywords (this : Options) (keywords : list string) (options : CallOptions)
  : M (list SearchResult) :=
  let queries :=
    List.map (fun keyword => quoted keyword +:+ " " +:+ quoted "powered by wordpress")
             keywords in
  let* allResults := searchByKeywords_loop this options queries [] in
  ret (GoogleSearcher.deduplicateResults allResults).

End WithPlatform.

End GoogleSearch.

(** A search engine for the static web: the first page of any search
    lists six blocks, the pages after it are refused. *)
Module SearchFixture.

Definition serp : string := "<html><body><div id='search'>six blocks</div></body></html>".

Definition blocks : list ResultBlock :=
  [ mkResultBlock (Some "https://shop.test/?utm_source=serp") "Shop" "" "" "";
    mkResultBlock (Some "https://www.youtube.com/watch?v=1") "Video" "" "" "";
    mkResultBlock (Some "/url?q=https://plain.test/about/&sa=U") "Plain" "" "" "";
    mkResultBlock (Some "https://SHOP.test/") "" "Shop again" "" "";
    mkResultBlock None "No link" "" "" "";
    mkResultBlock (Some "https://blog.test/news/") "  Blog  " "" "Posts ..." "" ].

Definition select_blocks (selector html : string) : list ResultBlock :=
  if String.eqb html serp && String.eqb selector "div.g" then blocks else [].

Definition select_blocks_value (selector : string) (value : Json) : list ResultBlock := [].

(** A stand-in for [new URLSearchParams(s).get('q')]: the value of a
    parameter [q] at the head of [s]. *)
Definition search_param_q (s : string) : option string :=
  if startsWith s "q=" then Some (before_char "&" (JsString.drop 2 s)) else None.

Definition fetch (url : string) (timeout : Z) (log : list string)
  : Result Response * list string :=
  if startsWith url "https://www.google.com/search?" && includes url "&start=0&"
  then (Ok (mkResponse 200 (JsonString serp)), url :: log)
  else Fixture.fetch url timeout log.

#[export] Instance engine : Platform := {|
  World := list string;
  axios_get := fetch;
  date_now := fun log => ("2024-01-01T00:00:00.000Z", log);
  sleep := fun _ log => log;
  cheerio_load := Fixture.load;
  cheerio_load_value := Fixture.loadValue;
  validator_isEmail := Fixture.isEmail;
  url_parse := Fixture.parseUrl;
  searcher_findWordPressSites := fun log => (Ok Fixture.found, log)
|}.

Definition searcher : GoogleSearch.Options := GoogleSearch.mkOptions 2000 5 10 "en".

End SearchFixture.

(** ** WordPressScraper: the input side *)

Module ScraperInput.

(** The line feed. *)
Definition lf : ascii := "010"%char.

(** [s.split(sep)] for a one-character separator. *)
Fixpoint splitOn (sep : ascii) (s : string) : list string :=
  match s with
  | EmptyString => [EmptyString]
  | String c s' =>
      if Ascii.eqb c sep then EmptyString :: splitOn sep s'
      else match splitOn sep s' with
           | line :: lines => String c line :: lines
           | [] => [String c EmptyString]
           end
  end.

(** [line && !line.startsWith('#')] *)
Definition keepLine (line : string) : bool :=
  negb (String.eqb line "") && negb (startsWith line "#").

(** What [readUrlsFromFile] makes of the content of the file. *)
Definition urlsOfContent (content : string) : list string :=
  List.filter keepLine (List.map trim (splitOn lf content)).

(** [sampleUrls] of the [generate-sample] command. *)
Definition sampleUrls : list string :=
  [ "# WordPress Email Scraper - Sample URLs";
    "# One URL per line, comments start with #";
    "";
    "example-wp-site1.com";
    "example-wp-site2.com";
    "another-wordpress-site.org";
    "myblog.wordpress.com";
    "company-website.net" ].

Section WithPlatform.
Context `{Platform}.

(** [fs.readFile(filePath, 'utf8')] *)
Variable fs_readFile : string → M string.

Definition readUrlsFromFile (filePath : string) : M (list string) :=
  try_catch
    (let* content := fs_readFile filePath in
     ret (urlsOfContent content))
    (fun message =>
       throw ("Failed to read URLs from file " +:+ filePath +:+ ": " +:+ message)).

(** The [urls.forEach] of [validateUrls]: the arrays [valid] and
    [invalid]. *)
Definition validateStep (acc : list string * list string) (url : string)
  : list string * list string :=
  let testUrl := WordPressDetector.ensureProtocol url in
  match url_parse testUrl with
  | Some _ => (fst acc ++ [url], snd acc)
  | None => (fst acc, snd acc ++ [url])
  end.

Definition validateUrls (urls : list string) : list string * list string :=
  fold_left validateStep urls ([], []).

End WithPlatform.

End ScraperInput.

(** ** DataExporter: the flat list and the totals *)

Module Exports.

(** The set [emails] of [exportEmailList], in insertion order. *)
Definition allEmails (data : list Site) : list string :=
  fold_left
    (fun emails site =>
       match site_emails site with
       | Some es => set_add_all es emails
       | None => emails
       end)
    data [].

(** [Array.from(emails).sort()]: by code units. *)
Definition emailList (data : list Site) : list string :=
  merge_sort String.le (allEmails data).

(** The content of the file. *)
Definition emailListText (data : list Site) : string :=
  String.concat (String ScraperInput.lf EmptyString) (emailList data).

(** [data.reduce((total, site) => total + site.emails.length, 0)] of
    [exportToJSON]: [None] when reading [length] of a missing [emails]
    throws. *)
Definition totalEmailsFound (data : list Site) : option nat :=
  fold_left
    (fun total site =>
       match total, site_emails site with
       | Some t, Some emails => Some (t + List.length emails)
       | _, _ => None
       end)
    data (Some 0).

End Exports.

(** ** WordPressProspector: the recommendations *)

Inductive Recommendation : Type :=
| RefineQueries         (* "Consider refining search queries ..." *)
| ExpandPageTypes       (* "Many sites lack visible contact information ..." *)
| LowExtractionRate     (* "Low email extraction rate ..." *)
| VerifyAddresses       (* "Verify email addresses before marketing campaigns" *)
| EnsureCompliance      (* "Ensure compliance with GDPR and CAN-SPAM regulations" *)
| GreatResults.         (* "Great results! ..." *)

Module Recommendations.

(** The literals [50], [0.3] and [1.5]. *)
Definition fifty : spec_float := JsNumber.of_Z 50.
Definition threeTenths : spec_float := JsNumber.div (JsNumber.of_Z 3) (JsNumber.of_Z 10).
Definition oneAndHalf : spec_float := JsNumber.div (JsNumber.of_Z 3) (JsNumber.of_Z 2).

(** [a < b] on Numbers *)
Definition lessThan (a b : spec_float) : bool := SFltb a b.

Section WithStringToNumber.

(** The Number a String converts to. *)
Variable stringToNumber : string → spec_float.

(** ToNumber *)
Definition toNumber (v : JsValue) : spec_float :=
  match v with
  | JsUndefined => S754_nan
  | JsNull => S754_zero false
  | JsBool b => if b then JsNumber.of_Z 1 else S754_zero false
  | JsNumber x => x
  | JsString s => stringToNumber s
  end.

(** The array [recommendations] before it is joined. *)
Definition generateRecommendations (summary : WordPressProspector.Summary)
  : list Recommendation :=
  let recommendations := [] in
  let recommendations :=
    if lessThan (toNumber (WordPressProspector.wordpressDetectionRate summary)) fifty
    then recommendations ++ [RefineQueries] else recommendations in
  let recommendations :=
    if lessThan (JsNumber.of_nat (WordPressProspector.sitesWithContactInfo summary))
                (JsNumber.mul
                   (JsNumber.of_nat (WordPressProspector.confirmedWordPressSites summary))
                   threeTenths)
    then recommendations ++ [ExpandPageTypes] else recommendations in
  let recommendations :=
    if lessThan (toNumber (WordPressProspector.avgEmailsPerSite summary)) oneAndHalf
    then recommendations ++ [LowExtractionRate] else recommendations in
  let recommendations :=
    if Nat.ltb 0 (WordPressProspector.totalEmails summary)
    then recommendations ++ [VerifyAddresses; EnsureCompliance] else recommendations in
  if Nat.eqb (List.length recommendations) 0
  then recommendations ++ [GreatResults]
  else recommendations.

End WithStringToNumber.

End Recommendations.

(* ===================================================================== *)
(** * Facts about the string built-ins *)
(* ===================================================================== *)

Section StringFacts.

Lemma append_cons (c : ascii) (s t : string) :
  String c s +:+ t = String c (s +:+ t).
Proof. reflexivity. Qed.

Lemma append_empty_r (s : string) : s +:+ "" = s.
Proof. induction s as [|c s IH]; [reflexivity | by rewrite append_cons, IH]. Qed.

Lemma append_assoc (a b c : string) : (a +:+ b) +:+ c = a +:+ (b +:+ c).
Proof. induction a as [|x a IH]; [reflexivity | by rewrite !append_cons, IH]. Qed.

Lemma startsWith_spec (s p : string) :
  startsWith s p = true ↔ ∃ t, s = p +:+ t.
Proof.
  revert s. induction p as [|b p IH]; intros s; simpl.
  - split; [intros _; by exists s | reflexivity].
  - destruct s as [|a s].
    + split; [discriminate | intros [t Ht]; discriminate].
    + destruct (Ascii.eqb_spec a b) as [->|Hne].
      * rewrite IH. split; intros [t Ht]; exists t.
        -- by rewrite Ht.
        -- by injection Ht.
      * split; [discriminate | intros [t Ht]; injection Ht; congruence].
Qed.

Lemma includes_unfold (s p : string) :
  includes s p =
  startsWith s p || match s with EmptyString => false | String _ s' => includes s' p end.
Proof. by destruct s. Qed.

(** [includes] is substring containment. *)
Lemma includes_spec (s p : string) :
  includes s p = true ↔ ∃ a b, s = a +:+ p +:+ b.
Proof.
  split.
  - induction s as [|c s IH]; rewrite includes_unfold; intros Hinc;
      apply orb_true_iff in Hinc as [Hpre|Hrest].
    + apply startsWith_spec in Hpre as [t Ht]. by exists "", t.
    + discriminate.
    + apply startsWith_spec in Hpre as [t Ht]. by exists "", t.
    + destruct (IH Hrest) as (a & b & ->). by exists (String c a), b.
  - intros (a & b & ->). induction a as [|c a IH]; rewrite includes_unfold.
    + apply orb_true_iff; left. apply startsWith_spec. by exists b.
    + rewrite append_cons, IH. apply orb_true_r.
Qed.

Lemma endsWith_unfold (s p : string) :
  endsWith s p =
  String.eqb s p || match s with EmptyString => false | String _ s' => endsWith s' p end.
Proof. by destruct s. Qed.

Lemma endsWith_includes (s p : string) :
  endsWith s p = true → includes s p = true.
Proof.
  induction s as [|c s IH]; rewrite endsWith_unfold; intros Hend;
    apply orb_true_iff in Hend as [Heq|Hrest]; try discriminate.
  - apply String.eqb_eq in Heq as <-. reflexivity.
  - apply String.eqb_eq in Heq as <-. apply includes_spec.
    exists "", "". by rewrite append_empty_r.
  - rewrite includes_unfold, (IH Hrest). apply orb_true_r.
Qed.

Lemma toLowerCase_app (a b : string) :
  toLowerCase (a +:+ b) = toLowerCase a +:+ toLowerCase b.
Proof.
  induction a as [|c a IH]; [reflexivity|].
  rewrite append_cons. simpl. by rewrite append_cons, IH.
Qed.

(** A split of the lower-cased string is the image of a split of the
    string. *)
Lemma toLowerCase_split (s x y : string) :
  toLowerCase s = x +:+ y →
  ∃ s1 s2, s = s1 +:+ s2 ∧ toLowerCase s1 = x ∧ toLowerCase s2 = y.
Proof.
  revert s. induction x as [|c x IH]; intros s Hs.
  - by exists "", s.
  - destruct s as [|d s]; [discriminate|].
    simpl in Hs. injection Hs as Hc Hs.
    destruct (IH s Hs) as (s1 & s2 & -> & H1 & H2).
    exists (String d s1), s2. simpl. by rewrite Hc, H1, H2.
Qed.

End StringFacts.

Lemma includes_lower_occurs (s p : string) :
  includes (toLowerCase s) (toLowerCase p) = true ↔ occurs_ci p s.
Proof.
  rewrite includes_spec. split.
  - intros (a & b & Hs).
    apply toLowerCase_split in Hs as (s1 & s2 & -> & <- & H2).
    apply toLowerCase_split in H2 as (m & s3 & -> & Hm & <-).
    by exists s1, m, s3.
  - intros (a & m & b & -> & Hm).
    exists (toLowerCase a), (toLowerCase b).
    by rewrite !toLowerCase_app, Hm.
Qed.

(* ===================================================================== *)
(** * The noise filter *)
(* ===================================================================== *)

Section FilterEmails.

Lemma match_here_bol_later (icase : bool) (r : regex) (pos : nat) (s : string) :
  match_here icase (Cat Bol r) (S pos) s = None.
Proof. reflexivity. Qed.

Lemma test_from_unfold (icase : bool) (r : regex) (pos : nat) (s : string) :
  test_from icase r pos s =
  match match_here icase r pos s with
  | Some _ => true
  | None =>
      match s with
      | EmptyString => false
      | String _ s' => test_from icase r (S pos) s'
      end
  end.
Proof. by destruct s. Qed.

Lemma test_from_bol_later (icase : bool) (r : regex) (pos : nat) (s : string) :
  test_from icase (Cat Bol r) (S pos) s = false.
Proof.
  revert pos. induction s as [|c s IH]; intros pos; rewrite test_from_unfold;
    rewrite match_here_bol_later; [reflexivity | apply IH].
Qed.

Lemma match_here_bol_lit (icase : bool) (c d : ascii) (r : regex) (rest : string) :
  match_here icase (Cat Bol (Cat (Lit c) r)) 0 (String d rest) =
  if lit_matches icase c d
  then run icase r 1 rest (fun pos' _ => Some (pos' - 0))
  else None.
Proof. reflexivity. Qed.

Lemma canon_at (d : ascii) : canon "@" = canon d → d = "@"%char.
Proof.
  destruct d as [[] [] [] [] [] [] [] []]; vm_compute; congruence.
Qed.

(** The last pattern, [/^@example/i], only matches a string whose first
    character is the at sign: no address with a local part. *)
Lemma example_pattern_needs_leading_at (email : string) :
  test true (Cat Bol (lits "@example")) email = true →
  startsWith email "@" = true.
Proof.
  unfold test. rewrite test_from_unfold. destruct email as [|d rest].
  - discriminate.
  - rewrite test_from_bol_later.
    change (lits "@example") with (Cat (Lit "@") (lits "example")).
    rewrite match_here_bol_lit. unfold lit_matches.
    destruct (Ascii.eqb_spec (canon "@") (canon d)) as [Hd|Hd].
    + apply canon_at in Hd as ->. reflexivity.
    + discriminate.
Qed.

(** What [filterEmails] keeps: the addresses no pattern matches, in
    their order. *)
Lemma filterEmails_In (emails : list string) (email : string) :
  In email (EmailExtractor.filterEmails emails) ↔
  In email emails ∧
  Forall (fun pattern => test true pattern email = false) EmailExtractor.excludePatterns.
Proof.
  unfold EmailExtractor.filterEmails. rewrite filter_In.
  split; intros [Hin Hno]; (split; [exact Hin|]).
  - apply negb_true_iff in Hno. apply List.Forall_forall. intros pattern Hp.
    destruct (test true pattern email) eqn:Ht; [|reflexivity].
    assert (existsb (fun pattern => test true pattern email)
                    EmailExtractor.excludePatterns = true) as Hex
        by (apply existsb_exists; eauto).
    congruence.
  - apply negb_true_iff, not_true_iff_false. intros Hex.
    apply existsb_exists in Hex as (pattern & Hp & Ht).
    rewrite List.Forall_forall in Hno. rewrite (Hno _ Hp) in Ht. discriminate.
Qed.

End FilterEmails.

(** C1. The noise filter is expected to drop every address at an "example"
    domain, so that a page with a [mailto:user@example.com] link never
    yields [user@example.com].  The code keeps it: the only pattern about
    the domain is anchored at the start of the address. Both the filter
    alone and a whole extraction on a page with that link return the
    address. *)
Theorem filterEmails_keeps_user_at_example :
  EmailExtractor.filterEmails ["user@example.com"] = ["user@example.com"] ∧
  ∃ record w',
    EmailExtractor.extractFromWordPressSite (H := Fixture.web) "demo.test" [] = (Ok record, w') ∧
    Fixture.dom_anchor_hrefs_of "demo.test" = ["mailto:user@example.com"] ∧
    cr_emails record = ["user@example.com"].
Proof.
  split; [by vm_compute|].
  eexists _, _. split; [by vm_compute|]. split; by vm_compute.
Qed.

(* ===================================================================== *)
(** * Phone numbers *)
(* ===================================================================== *)

Section Phones.

Lemma set_add_In (x y : string) (s : list string) :
  In y (set_add x s) ↔ y = x ∨ In y s.
Proof.
  unfold set_add. destruct (existsb (String.eqb x) s) eqn:Hmem.
  - apply existsb_exists in Hmem as (z & Hz & Heq).
    apply String.eqb_eq in Heq as <-. split; [auto | intros [->|]; assumption].
  - rewrite in_app_iff. simpl. split.
    + intros [Hin|[->|[]]]; auto.
    + intros [->|Hin]; auto.
Qed.

Lemma set_add_all_In (xs s : list string) (y : string) :
  In y (set_add_all xs s) ↔ In y xs ∨ In y s.
Proof.
  unfold set_add_all. revert s. induction xs as [|x xs IH]; intros s; simpl.
  - split; [auto | intros [[]|]; assumption].
  - rewrite IH, set_add_In. split; intros; intuition (subst; auto).
Qed.

(** The length test of the source counts digits and plus signs. *)
Lemma cleanPhone_length (phone : string) :
  String.length (EmailExtractor.cleanPhone phone) =
  String.length (filter_chars is_digit phone) +
  String.length (filter_chars (fun c => Ascii.eqb c "+") phone).
Proof.
  unfold EmailExtractor.cleanPhone. induction phone as [|c phone IH]; [reflexivity|].
  simpl. destruct (is_digit c) eqn:Hd; destruct (Ascii.eqb_spec c "+") as [->|Hp];
    simpl; try discriminate; lia.
Qed.

Lemma collect_matches_In (matches phones : list string) (p : string) :
  In p (fold_left EmailExtractor.addPhone matches phones) ↔
  In p phones ∨
  ∃ m, In m matches ∧ 7 ≤ String.length (EmailExtractor.cleanPhone m) ∧ p = trim m.
Proof.
  revert phones. induction matches as [|m matches IH]; intros phones; cbn [fold_left In].
  - split; [auto | intros [|(m & [] & _)]; assumption].
  - rewrite IH. unfold EmailExtractor.addPhone.
    destruct (Nat.leb_spec 7 (String.length (EmailExtractor.cleanPhone m)))
      as [Hlen|Hlen].
    + rewrite set_add_In. split.
      * intros [[->|Hin]|(m' & Hm' & Hl & ->)]; eauto 6.
      * intros [Hin|(m' & [<-|Hm'] & Hl & ->)]; eauto 6.
    + split.
      * intros [Hin|(m' & Hm' & Hl & ->)]; eauto 6.
      * intros [Hin|(m' & [<-|Hm'] & Hl & ->)]; eauto 6. lia.
Qed.

End Phones.

(** C2, as stated: a match is kept only if its digit-only form has at
    least 7 characters.  On the text [Tel: +123456] the match [+123456]
    has six digits and is kept. *)
Lemma phone_six_digits_with_plus_is_kept :
  ¬ (∀ m : string,
        In m (match_all false EmailExtractor.phoneRegex "Tel: +123456") →
        In (trim m) (EmailExtractor.collectPhones "Tel: +123456" []) →
        7 ≤ String.length (filter_chars is_digit m)).
Proof.
  intros Hclaim.
  assert (7 ≤ String.length (filter_chars is_digit "+123456")) as Hlen.
  { apply Hclaim; vm_compute; auto. }
  vm_compute in Hlen. lia.
Qed.

(** C2, amended: a phone number is in the record after a page was
    processed exactly when it was there before or it is the trimmed text of
    a match whose form without every character other than digits and [+]
    has at least 7 characters; the number is stored as matched, not
    normalised. *)
Theorem phones_kept_iff (pageText : string) (phones : list string) (p : string) :
  In p (EmailExtractor.collectPhones pageText phones) ↔
  In p phones ∨
  ∃ m, In m (match_all false EmailExtractor.phoneRegex pageText) ∧
       7 ≤ String.length (filter_chars is_digit m) +
           String.length (filter_chars (fun c => Ascii.eqb c "+") m) ∧
       p = trim m.
Proof.
  unfold EmailExtractor.collectPhones. rewrite collect_matches_In.
  split; intros [Hin|(m & Hm & Hlen & ->)]; auto; right; exists m;
    rewrite cleanPhone_length in *; auto.
Qed.

(* ===================================================================== *)
(** * Detection *)
(* ===================================================================== *)

Ltac unfold_monad :=
  unfold bind, ret, throw, try_catch, get, now, pause in *.

Section Detection.
Context `{Platform}.
Import WordPressDetector.

Lemma find_first {A} (f : A → bool) (before after : list A) (x : A) :
  (∀ y, In y before → f y = false) → f x = true →
  List.find f (before ++ x :: after) = Some x.
Proof.
  intros Hbefore Hx. induction before as [|y before IH]; simpl.
  - by rewrite Hx.
  - rewrite (Hbefore y) by (by left). apply IH. intros z Hz. apply Hbefore. by right.
Qed.

Lemma find_nowhere {A} (f : A → bool) (l : list A) :
  (∀ y, In y l → f y = false) → List.find f l = None.
Proof.
  intros Hl. induction l as [|y l IH]; simpl; [reflexivity|].
  rewrite (Hl y) by (by left). apply IH. intros z Hz. apply Hl. by right.
Qed.

Lemma find_split {A} (f : A → bool) (l : list A) (x : A) :
  List.find f l = Some x →
  ∃ before after, l = before ++ x :: after ∧ f x = true ∧ ∀ y, In y before → f y = false.
Proof.
  induction l as [|y l IH]; simpl; [discriminate|].
  destruct (f y) eqn:Hy.
  - intros [= <-]. exists [], l. split; [reflexivity|]. split; [exact Hy | intros ? []].
  - intros Hfind. destruct (IH Hfind) as (before & after & -> & Hx & Hbefore).
    exists (y :: before), after. split; [reflexivity|]. split; [exact Hx|].
    intros z [<-|Hz]; [exact Hy | by apply Hbefore].
Qed.

Lemma occurs_ci_false (p s : string) :
  ¬ occurs_ci p s → includes (toLowerCase s) (toLowerCase p) = false.
Proof.
  intros Hno. apply not_true_iff_false. by rewrite includes_lower_occurs.
Qed.

Lemma isWordPressSite_of_detect (url : string) (w w' : World) (v : Verdict) :
  detect (ensureProtocol url) w = (Ok v, w') →
  isWordPressSite url w = (Ok v, w').
Proof. intros Hd. unfold isWordPressSite, try_catch. by rewrite Hd. Qed.

(** [detect] once the page is fetched and its body is a string. *)
Lemma detect_text (url : string) (w w1 : World) (response : Response) (html : string) :
  axios_get url 10000 w = (Ok response, w1) →
  data response = JsonString html →
  detect url w =
  (let dom := cheerio_load html in
   match firstIndicator (toLowerCase html) with
   | Some indicator => ret (mkVerdict true (Some indicator) High)
   | None =>
       let generator := dom_meta_generator dom in
       if match generator with
          | Some g => negb (String.eqb g "") && includes (toLowerCase g) "wordpress"
          | None => false
          end
       then ret (mkVerdict true (Some "meta generator tag") High)
       else
         let* api :=
           try_catch
             (let* apiResponse := get (probeUrl url) 5000 in
              ret (Z.eqb (status apiResponse) 200))
             (fun _ => ret false) in
         if api : bool
         then ret (mkVerdict true (Some "WordPress REST API") High)
         else
           let links := List.filter (fun href => includes href "wp-") (dom_link_hrefs dom) in
           if Nat.ltb 0 (List.length links)
           then ret (mkVerdict true (Some "WordPress assets in link tags") Medium)
           else
             let bodyClasses := default "" (dom_body_class dom) in
             if includes bodyClasses "wp-" || includes bodyClasses "wordpress"
             then ret (mkVerdict true (Some "WordPress CSS classes") Medium)
             else ret (mkVerdict false None High)
   end) w1.
Proof.
  intros Hget Hdata. unfold detect. unfold bind at 1. unfold get. rewrite Hget.
  cbv zeta. rewrite Hdata. reflexivity.
Qed.

(** [detect] once the page is fetched and its body is not a string:
    loading it throws, or else lower-casing it does. *)
Lemma detect_not_text (url : string) (w w1 : World) (response : Response) :
  axios_get url 10000 w = (Ok response, w1) →
  (∀ html, data response ≠ JsonString html) →
  ∃ cause,
    detect url w = (Throw cause, w1) ∧
    (cheerio_load_value (data response) = Throw cause ∨
     (∃ dom, cheerio_load_value (data response) = Ok dom) ∧
     toLowerCaseOf "html" (data response) w1 = (Throw cause, w1)).
Proof.
  intros Hget Hdata. unfold detect. unfold bind at 1. unfold get. rewrite Hget.
  cbv zeta. unfold bind at 1.
  destruct (data response) as [|b|x|html|text|text] eqn:Hbody;
    try (by destruct (Hdata html eq_refl)); cbn [load]; unfold lift;
    (destruct (cheerio_load_value _) as [dom|cause] eqn:Hload;
     [ eexists; split; [reflexivity|]; right; split; [by exists dom | reflexivity]
     | exists cause; split; [reflexivity | by left] ]).
Qed.

Lemma detect_indicator (url : string) (w w1 : World) (response : Response)
      (html indicator : string) :
  axios_get url 10000 w = (Ok response, w1) →
  data response = JsonString html →
  firstIndicator (toLowerCase html) = Some indicator →
  detect url w = (Ok (mkVerdict true (Some indicator) High), w1).
Proof.
  intros Hget Hdata Hfirst. rewrite (detect_text url w w1 response html Hget Hdata).
  cbv zeta. by rewrite Hfirst.
Qed.

End Detection.

(** The verdicts on a body that is a string.  Once the page is fetched
    and axios hands its body back as a string: if any indicator of the
    fixed list occurs in it, case ignored, the verdict is positive with high
    confidence and carries the first indicator of the list that occurs, and
    nothing further is requested (the world is the one right after the
    fetch); in particular for [/wp-content/], the first of the list.  If no
    indicator occurs, the generator tag does not mention
    wordpress, the REST probe does not answer 200, no [link] points to a
    [wp-] path and the body carries no [wp-] or [wordpress] class, the
    verdict is negative, without indicator, with high confidence. *)
Lemma detection_verdict `{Platform} (url : string) (w w1 : World) (response : Response)
      (html : string) :
  axios_get (WordPressDetector.ensureProtocol url) 10000 w = (Ok response, w1) →
  data response = JsonString html →
  let dom := cheerio_load html in
  (∀ indicator,
      In indicator WordPressDetector.indicators →
      occurs_ci indicator html →
      ∃ before first after,
        WordPressDetector.indicators = before ++ first :: after ∧
        occurs_ci first html ∧
        (∀ earlier, In earlier before → ¬ occurs_ci earlier html) ∧
        WordPressDetector.isWordPressSite url w =
          (Ok (mkVerdict true (Some first) High), w1)) ∧
  (∀ before indicator after,
      WordPressDetector.indicators = before ++ indicator :: after →
      occurs_ci indicator html →
      (∀ earlier, In earlier before → ¬ occurs_ci earlier html) →
      WordPressDetector.isWordPressSite url w =
        (Ok (mkVerdict true (Some indicator) High), w1)) ∧
  (occurs_ci "/wp-content/" html →
   WordPressDetector.isWordPressSite url w =
     (Ok (mkVerdict true (Some "/wp-content/") High), w1)) ∧
  ((∀ indicator, In indicator WordPressDetector.indicators → ¬ occurs_ci indicator html) →
   (∀ g, dom_meta_generator dom = Some g → ¬ occurs_ci "wordpress" g) →
   (∀ r w2, axios_get (WordPressDetector.probeUrl (WordPressDetector.ensureProtocol url)) 5000 w1 = (Ok r, w2) → status r ≠ 200%Z) →
   (∀ href, In href (dom_link_hrefs dom) → includes href "wp-" = false) →
   (∀ c, dom_body_class dom = Some c →
         includes c "wp-" = false ∧ includes c "wordpress" = false) →
   WordPressDetector.isWordPressSite url w =
     (Ok (mkVerdict false None High), snd (axios_get (WordPressDetector.probeUrl (WordPressDetector.ensureProtocol url)) 5000 w1))).
Proof.
  intros Hget Hdata dom.
  assert (∀ before indicator after,
      WordPressDetector.indicators = before ++ indicator :: after →
      occurs_ci indicator html →
      (∀ earlier, In earlier before → ¬ occurs_ci earlier html) →
      WordPressDetector.isWordPressSite url w =
        (Ok (mkVerdict true (Some indicator) High), w1)) as Hfirst.
  { intros before indicator after Hlist Hocc Hbefore.
    apply isWordPressSite_of_detect, (detect_indicator _ _ _ _ _ _ Hget Hdata).
    unfold WordPressDetector.firstIndicator. rewrite Hlist.
    apply find_first.
    - intros earlier Hin. by apply occurs_ci_false, Hbefore.
    - by apply includes_lower_occurs. }
  split; [|split; [exact Hfirst|split]].
  - intros indicator Hin Hocc.
    destruct (WordPressDetector.firstIndicator (toLowerCase html)) as [first|] eqn:Hfind.
    + destruct (find_split _ _ _ Hfind) as (before & after & Hlist & Hhit & Hmiss).
      exists before, first, after.
      assert (occurs_ci first html) as Hfirst_occurs by (by apply includes_lower_occurs).
      assert (∀ earlier, In earlier before → ¬ occurs_ci earlier html) as Hbefore.
      { intros earlier Hearlier Hoccurs. apply includes_lower_occurs in Hoccurs.
        rewrite (Hmiss earlier Hearlier) in Hoccurs. discriminate. }
      split; [exact Hlist|]. split; [exact Hfirst_occurs|]. split; [exact Hbefore|].
      by apply (Hfirst before first after).
    + apply includes_lower_occurs in Hocc.
      pose proof (List.find_none _ _ Hfind indicator Hin) as Hmiss. cbv beta in Hmiss.
      rewrite Hmiss in Hocc. discriminate.
  - intros Hocc. apply (Hfirst [] "/wp-content/" (tl WordPressDetector.indicators));
      [reflexivity | exact Hocc | intros ? []].
  - intros Hnone Hgen Hprobe Hlinks Hbody.
    apply isWordPressSite_of_detect.
    rewrite (detect_text _ _ _ _ _ Hget Hdata). cbv zeta. fold dom. unfold bind, get.
    assert (WordPressDetector.firstIndicator (toLowerCase html) = None) as ->.
    { apply find_nowhere. intros ind Hin. by apply occurs_ci_false, Hnone. }
    assert (match dom_meta_generator dom with
            | Some g => negb (String.eqb g "") && includes (toLowerCase g) "wordpress"
            | None => false
            end = false) as ->.
    { destruct (dom_meta_generator dom) as [g|] eqn:Hg; [|reflexivity].
      apply andb_false_iff; right.
      change "wordpress" with (toLowerCase "wordpress").
      by apply occurs_ci_false, Hgen. }
    unfold try_catch, ret.
    assert (List.filter (fun href => includes href "wp-") (dom_link_hrefs dom) = []) as Hfilter.
    { induction (dom_link_hrefs dom) as [|href hrefs IH]; [reflexivity|]. simpl.
      rewrite (Hlinks href) by (by left). apply IH. intros h Hh. apply Hlinks. by right. }
    assert (includes (default "" (dom_body_class dom)) "wp-"
            || includes (default "" (dom_body_class dom)) "wordpress" = false) as Hclass.
    { destruct (dom_body_class dom) as [c|] eqn:Hc; [|reflexivity].
      destruct (Hbody c eq_refl) as [Hwp Hword]. simpl. by rewrite Hwp, Hword. }
    destruct (axios_get (WordPressDetector.probeUrl (WordPressDetector.ensureProtocol url)) 5000 w1) as [[r|message] w2] eqn:Hp; simpl.
    + destruct (Z.eqb_spec (status r) 200) as [H200|_].
      * by destruct (Hprobe r w2 eq_refl).
      * by rewrite Hfilter, Hclass.
    + by rewrite Hfilter, Hclass.
Qed.

(** [detection_verdict] on the static web: the shop page carries
    [/wp-content/], the plain page nothing. *)
Lemma detection_verdict_witness :
  WordPressDetector.isWordPressSite (H := Fixture.web) "shop.test" [] =
    (Ok (mkVerdict true (Some "/wp-content/") High), ["https://shop.test"]) ∧
  WordPressDetector.isWordPressSite (H := Fixture.web) "plain.test" [] =
    (Ok (mkVerdict false None High),
     ["https://plain.test/wp-json/wp/v2/posts?per_page=1"; "https://plain.test"]).
Proof.
  split.
  - apply (proj1 (proj2 (proj2 (detection_verdict (H := Fixture.web) "shop.test" []
                                  ["https://shop.test"]
                                  (mkResponse 200 (JsonString Fixture.shop_html))
                                  Fixture.shop_html eq_refl eq_refl)))).
    apply includes_lower_occurs. vm_compute. reflexivity.
  - apply (proj2 (proj2 (proj2 (detection_verdict (H := Fixture.web) "plain.test" []
                                  ["https://plain.test"]
                                  (mkResponse 200 (JsonString Fixture.plain_html))
                                  Fixture.plain_html eq_refl eq_refl)))).
    + intros indicator Hin Hocc. apply includes_lower_occurs in Hocc.
      simpl in Hin.
      repeat (destruct Hin as [<-|Hin]; [vm_compute in Hocc; discriminate|]).
      destruct Hin.
    + intros g Hg. vm_compute in Hg. discriminate.
    + intros r w2 Hr. vm_compute in Hr. discriminate.
    + intros href Hin. vm_compute in Hin. destruct Hin.
    + intros c Hc. vm_compute in Hc. discriminate.
Defined.

(** C3. The claim is about every page whose raw body contains an
    indicator.  A body that is JSON text does not reach the detector as a
    string: axios hands back the value the text parses to, and
    [cheerio.load(html)] or else [html.toLowerCase()] throws on it inside
    the outer [try].  So for every fetched body that is not a string the
    detection throws instead of returning a verdict; on the static web the
    site whose body is the JSON text of an object, with [/wp-content/] in
    it, gets the error of the missing method and no verdict. *)
Theorem detection_throws_on_json_body :
  (∀ (H : Platform) (url : string) (w w1 : World) (response : Response),
      axios_get (WordPressDetector.ensureProtocol url) 10000 w = (Ok response, w1) →
      (∀ html, data response ≠ JsonString html) →
      ∃ cause,
        WordPressDetector.isWordPressSite url w =
        (Throw ("Failed to check WordPress status for " +:+
                WordPressDetector.ensureProtocol url +:+ ": " +:+ cause), w1)) ∧
  includes Fixture.api_body "/wp-content/" = true ∧
  axios_get (Platform := Fixture.web) "https://api.test" 10000 [] =
    (Ok (mkResponse 200 (JsonObject Fixture.api_body)), ["https://api.test"]) ∧
  WordPressDetector.isWordPressSite (H := Fixture.web) "api.test" [] =
    (Throw "Failed to check WordPress status for https://api.test: html.toLowerCase is not a function",
     ["https://api.test"]).
Proof.
  split; [|split; [by vm_compute | split; by vm_compute]].
  intros H url w w1 response Hget Hnot.
  destruct (detect_not_text _ w w1 response Hget Hnot) as (cause & Hdetect & _).
  exists cause. unfold WordPressDetector.isWordPressSite, try_catch, throw.
  by rewrite Hdetect.
Qed.

(* ===================================================================== *)
(** * Batch detection *)
(* ===================================================================== *)

Section BatchDetection.
Context `{Platform}.
Import WordPressDetector Trace.

Lemma checkWordPressBatch_loop_spec (urls : list string) (results : list BatchVerdict)
      (w : World) :
  ∃ w', checkWordPressBatch_loop urls results w =
        (Ok (results ++ zip_with verdictRecord urls (detections urls w)), w').
Proof.
  revert results w. induction urls as [|url rest IH]; intros results w.
  - exists w. simpl. unfold ret. by rewrite List.app_nil_r.
  - simpl. unfold bind at 1. unfold try_catch, bind, pause, ret.
    destruct (isWordPressSite url w) as [[result|message] w1] eqn:Hdetect;
      cbn [zip_with verdictRecord].
    + destruct (IH (results ++ [verdictRecord url (Ok result)]) (sleep 1000 w1))
        as [w' Hloop].
      exists w'. simpl in Hloop. rewrite Hloop. by rewrite <- List.app_assoc.
    + destruct (IH (results ++ [verdictRecord url (Throw message)]) w1) as [w' Hloop].
      exists w'. simpl in Hloop. rewrite Hloop. by rewrite <- List.app_assoc.
Qed.

Lemma detections_length (urls : list string) (w : World) :
  List.length (detections urls w) = List.length urls.
Proof.
  revert w. induction urls as [|url rest IH]; intros w; simpl; [reflexivity|].
  destruct (isWordPressSite url w) as [outcome w1]. simpl. by rewrite IH.
Qed.

Lemma verdictRecord_urls (urls : list string) (outcomes : list (Result Verdict)) :
  List.length outcomes = List.length urls →
  List.map bv_url (zip_with verdictRecord urls outcomes) = urls.
Proof.
  revert outcomes. induction urls as [|url rest IH]; intros [|outcome outcomes] Hlen;
    simpl in *; try discriminate; [reflexivity|].
  f_equal; [by destruct outcome | apply IH; lia].
Qed.

End BatchDetection.

(** C4. [checkWordPressBatch] returns, for every list of URLs and every
    behaviour of the network: it never throws.  The array it returns has
    one record per URL, in the order of the input; the record of a URL
    whose detection threw is the one with confidence unknown and the
    message of the exception, the record of any other URL carries its
    verdict and no error. *)
Theorem checkWordPressBatch_never_throws `{Platform} (urls : list string) (w : World) :
  ∃ results w',
    WordPressDetector.checkWordPressBatch urls w = (Ok results, w') ∧
    List.length results = List.length urls ∧
    List.map bv_url results = urls ∧
    results = zip_with Trace.verdictRecord urls (Trace.detections urls w) ∧
    ∀ i url message,
      urls !! i = Some url →
      Trace.detections urls w !! i = Some (Throw message) →
      results !! i = Some (mkBatchVerdict url false None Unknown (Some message)).
Proof.
  destruct (checkWordPressBatch_loop_spec urls [] w) as [w' Hloop].
  simpl in Hloop.
  exists (zip_with Trace.verdictRecord urls (Trace.detections urls w)), w'.
  split; [exact Hloop|].
  assert (List.map bv_url (zip_with Trace.verdictRecord urls (Trace.detections urls w)) = urls)
    as Hurls by apply verdictRecord_urls, detections_length.
  split; [|split; [exact Hurls|split; [reflexivity|]]].
  - transitivity
      (List.length
         (List.map bv_url (zip_with Trace.verdictRecord urls (Trace.detections urls w))));
      [symmetry; apply List.length_map | by rewrite Hurls].
  - intros i url message Hurl Hthrow.
    rewrite lookup_zip_with, Hurl. simpl. by rewrite Hthrow.
Qed.

(** [checkWordPressBatch_never_throws] on the static web: of three URLs
    the second is unreachable, and its record is the tagged one. *)
Lemma checkWordPressBatch_never_throws_witness :
  ∃ results w',
    WordPressDetector.checkWordPressBatch (H := Fixture.web)
      ["shop.test"; "down.test"; "plain.test"] [] = (Ok results, w') ∧
    List.length results = 3 ∧
    results !! 1 =
      Some (mkBatchVerdict "down.test" false None Unknown
              (Some "Failed to check WordPress status for https://down.test: Request failed with status code 404")).
Proof.
  destruct (checkWordPressBatch_never_throws (H := Fixture.web)
              ["shop.test"; "down.test"; "plain.test"] [])
    as (results & w' & Hrun & Hlen & _ & _ & Herror).
  exists results, w'. split; [exact Hrun|]. split; [exact Hlen|].
  apply Herror; [reflexivity | vm_compute; reflexivity].
Defined.

(** Three URLs, the second unreachable: three records, the second tagged. *)
Example checkWordPressBatch_one_unreachable :
  fst (WordPressDetector.checkWordPressBatch (H := Fixture.web)
         ["shop.test"; "down.test"; "plain.test"] []) =
  Ok [ mkBatchVerdict "shop.test" true (Some "/wp-content/") High None;
       mkBatchVerdict "down.test" false None Unknown
         (Some "Failed to check WordPress status for https://down.test: Request failed with status code 404");
       mkBatchVerdict "plain.test" false None High None ].
Proof. vm_compute. reflexivity. Qed.

(* ===================================================================== *)
(** * The summary *)
(* ===================================================================== *)

Section Summary.
Import WordPressProspector.

(** [toFixed(1)] rounds to the nearest tenth, upwards on a tie: for the
    Number [m * 2^e], the integer [n] of tenths is exact when [0 <= e]
    and otherwise within half a tenth. *)
Lemma tenths_nearest (m : positive) (e : Z) :
  let n := JsNumber.tenths m e in
  if (0 <=? e)%Z
  then n = (10 * Z.pos m * 2 ^ e)%Z
  else
    let D := (2 ^ (- e))%Z in
    (2 * (n * D - 10 * Z.pos m) <= D)%Z ∧ (2 * (10 * Z.pos m - n * D) < D)%Z.
Proof.
  unfold JsNumber.tenths. destruct (Z.leb_spec 0 e) as [He|He]; [reflexivity|].
  cbv zeta.
  assert (0 < 2 ^ (- e))%Z as HD by (apply Z.pow_pos_nonneg; lia).
  replace (2 ^ (1 - e))%Z with (2 * 2 ^ (- e))%Z
    by (rewrite <- Z.pow_succ_r by lia; f_equal; lia).
  set (D := (2 ^ (- e))%Z) in *.
  pose proof (Z.div_mod (20 * Z.pos m + D) (2 * D) ltac:(lia)) as Hdiv.
  pose proof (Z.mod_pos_bound (20 * Z.pos m + D) (2 * D) ltac:(lia)) as Hmod.
  set (n := ((20 * Z.pos m + D) / (2 * D))%Z) in *.
  split; nia.
Qed.

Lemma filter_length_le {A} (f : A → bool) (l : list A) :
  List.length (List.filter f l) ≤ List.length l.
Proof.
  induction l as [|x l IH]; simpl; [lia|]. destruct (f x); simpl; lia.
Qed.

End Summary.

(** C5, as stated: with a positive number of validated sites the rate
    equals confirmed / validated × 100.  With one site confirmed out of
    three the summary holds the string [33.3], which is not 100/3. *)
Lemma detection_rate_one_in_three :
  WordPressProspector.sitesValidated
    (WordPressProspector.generateSummary Fixture.oneInThree) = 3 ∧
  WordPressProspector.confirmedWordPressSites
    (WordPressProspector.generateSummary Fixture.oneInThree) = 1 ∧
  WordPressProspector.wordpressDetectionRate
    (WordPressProspector.generateSummary Fixture.oneInThree) = JsString "33.3" ∧
  ¬ (∃ q : Q,
        numeric_value
          (WordPressProspector.wordpressDetectionRate
             (WordPressProspector.generateSummary Fixture.oneInThree)) = Some q ∧
        (q == (1 # 3) * 100)%Q).
Proof.
  split; [|split; [|split]]; try (vm_compute; reflexivity).
  intros (q & Hq & Heq). vm_compute in Hq. injection Hq as <-.
  vm_compute in Heq. discriminate.
Qed.

(** C5, amended: the summary counts as validated every entry of
    [wordpressSites] and as confirmed those whose [isWordPress] is the
    boolean [true]; with no validated site the rate is the number 0, and
    no division takes place; otherwise it is the string that [toFixed(1)]
    makes of the Number confirmed / validated × 100, that is the quotient
    rounded to one decimal. *)
Theorem detection_rate_value (pipeline : WordPressProspector.Pipeline) :
  let summary := WordPressProspector.generateSummary pipeline in
  let validated := List.length (WordPressProspector.wordpressSites pipeline) in
  let confirmed :=
    List.length
      (List.filter (fun site => strict_eq_true (site_isWordPress site))
                   (WordPressProspector.wordpressSites pipeline)) in
  WordPressProspector.sitesValidated summary = validated ∧
  WordPressProspector.confirmedWordPressSites summary = confirmed ∧
  confirmed ≤ validated ∧
  match validated with
  | O =>
      WordPressProspector.wordpressDetectionRate summary = JsNumber (S754_zero false) ∧
      numeric_value (WordPressProspector.wordpressDetectionRate summary) = Some 0%Q
  | S _ =>
      WordPressProspector.wordpressDetectionRate summary =
      JsString
        (JsNumber.toFixed1
           (JsNumber.mul
              (JsNumber.div (JsNumber.of_nat confirmed) (JsNumber.of_nat validated))
              (JsNumber.of_Z 100)))
  end.
Proof.
  cbv zeta. unfold WordPressProspector.generateSummary. cbn [WordPressProspector.sitesValidated
    WordPressProspector.confirmedWordPressSites WordPressProspector.wordpressDetectionRate].
  split; [reflexivity|]. split; [reflexivity|]. split; [apply filter_length_le|].
  destruct (WordPressProspector.wordpressSites pipeline) as [|site sites];
    [split|]; reflexivity.
Qed.

(* ===================================================================== *)
(** * Deduplication of search results *)
(* ===================================================================== *)

Section Deduplication.
Import GoogleSearcher.

(** A second pass with the same [seen] set removes nothing. *)
Lemma dedup_filter_idempotent (seen : gset string) (results : list SearchResult) :
  dedup_filter seen (dedup_filter seen results) = dedup_filter seen results.
Proof.
  revert seen. induction results as [|result rest IH]; intros seen; [reflexivity|].
  cbn [dedup_filter]. destruct (decide (toLowerCase (sr_url result) ∈ seen)) as [Hin|Hout].
  - apply IH.
  - cbn [dedup_filter]. rewrite decide_False by exact Hout. by rewrite IH.
Qed.

(** Every key of the output is new with respect to [seen], and no two
    results of the output share a key. *)
Lemma dedup_filter_keys (seen : gset string) (results : list SearchResult) :
  Forall (fun result => toLowerCase (sr_url result) ∉ seen) (dedup_filter seen results) ∧
  NoDup (List.map (fun result => toLowerCase (sr_url result)) (dedup_filter seen results)).
Proof.
  revert seen. induction results as [|result rest IH]; intros seen; cbn [dedup_filter].
  - split; constructor.
  - destruct (decide (toLowerCase (sr_url result) ∈ seen)) as [Hin|Hout]; [apply IH|].
    destruct (IH ({[toLowerCase (sr_url result)]} ∪ seen)) as [Hnew Hnodup].
    split.
    + constructor; [exact Hout|].
      eapply Forall_impl; [exact Hnew|]. intros r Hr Hseen.
      apply Hr, elem_of_union. by right.
    + cbn [List.map]. constructor; [|exact Hnodup].
      intros Hdup. apply list_elem_of_In, in_map_iff in Hdup as (r & Hkey & Hr).
      rewrite List.Forall_forall in Hnew. apply Hnew in Hr.
      apply Hr, elem_of_union. left. by apply elem_of_singleton.
Qed.

(** Nothing is invented or reordered. *)
Lemma dedup_filter_sublist (seen : gset string) (results : list SearchResult) :
  sublist (dedup_filter seen results) results.
Proof.
  revert seen. induction results as [|result rest IH]; intros seen; cbn [dedup_filter].
  - constructor.
  - destruct (decide (toLowerCase (sr_url result) ∈ seen)).
    + apply sublist_cons, IH.
    + apply sublist_skip, IH.
Qed.

(** A result whose key was not seen, neither before the call nor earlier
    in the sequence, is kept. *)
Lemma dedup_filter_first (seen : gset string) (before after : list SearchResult)
      (result : SearchResult) :
  toLowerCase (sr_url result) ∉ seen →
  (∀ r, In r before → toLowerCase (sr_url r) ≠ toLowerCase (sr_url result)) →
  In result (dedup_filter seen (before ++ result :: after)).
Proof.
  revert seen. induction before as [|r before IH]; intros seen Hnew Hbefore.
  - cbn [app dedup_filter]. rewrite decide_False by exact Hnew. by left.
  - cbn [app dedup_filter]. destruct (decide (toLowerCase (sr_url r) ∈ seen)).
    + apply IH; [exact Hnew|]. intros x Hx. apply Hbefore. by right.
    + right. apply IH.
      * intros Hin. apply elem_of_union in Hin as [Hin|Hin]; [|by apply Hnew].
        apply elem_of_singleton in Hin. symmetry in Hin. revert Hin. apply Hbefore. by left.
      * intros x Hx. apply Hbefore. by right.
Qed.

End Deduplication.

(** C6. Deduplicating twice gives the same sequence as deduplicating once.
    The sequence is a subsequence of the input in which no two results have
    the same URL, case ignored, and it keeps every result that no earlier
    result shares its URL with: the first occurrence. *)
Theorem deduplicateResults_idempotent (results : list SearchResult) :
  GoogleSearcher.deduplicateResults (GoogleSearcher.deduplicateResults results) =
    GoogleSearcher.deduplicateResults results ∧
  sublist (GoogleSearcher.deduplicateResults results) results ∧
  NoDup (List.map (fun result => toLowerCase (sr_url result))
                  (GoogleSearcher.deduplicateResults results)) ∧
  ∀ before result after,
    results = before ++ result :: after →
    (∀ r, In r before → toLowerCase (sr_url r) ≠ toLowerCase (sr_url result)) →
    In result (GoogleSearcher.deduplicateResults results).
Proof.
  unfold GoogleSearcher.deduplicateResults. split; [|split; [|split]].
  - apply dedup_filter_idempotent.
  - apply dedup_filter_sublist.
  - apply dedup_filter_keys.
  - intros before result after -> Hbefore.
    apply dedup_filter_first; [apply not_elem_of_empty | exact Hbefore].
Qed.

(* ===================================================================== *)
(** * The URL validity filter *)
(* ===================================================================== *)

Section ValidUrl.
Context `{Platform}.
Import GoogleSearcher.

(** The suffix test adds nothing to the substring test. *)
Lemma excluded_iff_includes (host : string) :
  existsb (fun domain => includes host domain || endsWith host domain) excludeDomains = false ↔
  ∀ domain, In domain excludeDomains → includes host domain = false.
Proof.
  split.
  - intros Hex domain Hin. apply not_true_iff_false. intros Hinc.
    apply not_true_iff_false in Hex. apply Hex, existsb_exists.
    exists domain. split; [exact Hin | by rewrite Hinc].
  - intros Hall. apply not_true_iff_false. intros Hex.
    apply existsb_exists in Hex as (domain & Hin & Hor).
    apply orb_true_iff in Hor as [Hinc|Hend].
    + rewrite (Hall domain Hin) in Hinc. discriminate.
    + apply endsWith_includes in Hend. rewrite (Hall domain Hin) in Hend. discriminate.
Qed.

Lemma isValidUrl_parsed (url : string) (u : Url) :
  url_parse url = Some u →
  isValidUrl url =
    negb (existsb (fun domain => includes (toLowerCase (hostname u)) domain
                                 || endsWith (toLowerCase (hostname u)) domain)
                  excludeDomains)
    && startsWith (protocol u) "http"
    && includes (toLowerCase (hostname u)) "."
    && negb (includes (toLowerCase (hostname u)) "localhost").
Proof. intros Hparse. unfold isValidUrl. by rewrite Hparse. Qed.

End ValidUrl.

(** C7, as stated: acceptance is equivalent to "scheme http or https, a dot
    in the host, host other than localhost, no exclusion entry in or at the
    end of the host", and no other scheme is accepted.  The filter rejects
    [http://mylocalhost.com/], whose host only contains the word, and
    accepts [httpx://prospect.org/]. *)
Lemma isValidUrl_not_as_stated :
  ¬ (∀ (url : string) (u : Url),
        url_parse (Platform := Fixture.web) url = Some u →
        (GoogleSearcher.isValidUrl (H := Fixture.web) url = true ↔
         (protocol u = "http:" ∨ protocol u = "https:") ∧
         includes (hostname u) "." = true ∧
         hostname u ≠ "localhost" ∧
         ∀ domain, In domain GoogleSearcher.excludeDomains →
                   includes (hostname u) domain = false ∧
                   endsWith (hostname u) domain = false)) ∧
  ¬ (∀ (url : string) (u : Url),
        url_parse (Platform := Fixture.web) url = Some u →
        protocol u ≠ "http:" → protocol u ≠ "https:" →
        GoogleSearcher.isValidUrl (H := Fixture.web) url = false).
Proof.
  split.
  - intros Hclaim.
    destruct (Hclaim "http://mylocalhost.com/" (mkUrl "http:" "mylocalhost.com" "/") eq_refl)
      as [_ Haccept].
    assert (GoogleSearcher.isValidUrl (H := Fixture.web) "http://mylocalhost.com/" = true)
      as Hvalid.
    { apply Haccept. split; [by left|]. split; [by vm_compute|]. split; [discriminate|].
      intros domain Hin. simpl in Hin.
      repeat (destruct Hin as [<-|Hin]; [by vm_compute|]). destruct Hin. }
    vm_compute in Hvalid. discriminate.
  - intros Hclaim.
    assert (GoogleSearcher.isValidUrl (H := Fixture.web) "httpx://prospect.org/" = false)
      as Hinvalid.
    { apply (Hclaim "httpx://prospect.org/" (mkUrl "httpx:" "prospect.org" "/") eq_refl);
        discriminate. }
    vm_compute in Hinvalid. discriminate.
Qed.

(** C7, amended: a string the URL parser refuses is rejected, and so is
    every URL whose scheme does not begin with [http]; a URL whose scheme
    is http or https is accepted if and only if its lower-cased host
    contains a dot, does not contain [localhost] anywhere, and contains no
    entry of the exclusion list as a substring (an entry at the end of the
    host is such a substring). *)
Theorem isValidUrl_accepts `{Platform} (url : string) :
  match url_parse url with
  | None => GoogleSearcher.isValidUrl url = false
  | Some u =>
      let host := toLowerCase (hostname u) in
      (startsWith (protocol u) "http" = false → GoogleSearcher.isValidUrl url = false) ∧
      (protocol u = "http:" ∨ protocol u = "https:" →
       (GoogleSearcher.isValidUrl url = true ↔
        includes host "." = true ∧
        includes host "localhost" = false ∧
        ∀ domain, In domain GoogleSearcher.excludeDomains → includes host domain = false))
  end.
Proof.
  destruct (url_parse url) as [u|] eqn:Hparse.
  - cbv zeta. rewrite (isValidUrl_parsed url u Hparse). split.
    + intros ->. by rewrite andb_false_r.
    + intros Hscheme.
      assert (startsWith (protocol u) "http" = true) as ->
        by (destruct Hscheme as [-> | ->]; reflexivity).
      rewrite andb_true_r, !andb_true_iff, !negb_true_iff, excluded_iff_includes.
      tauto.
  - unfold GoogleSearcher.isValidUrl. by rewrite Hparse.
Qed.

(** [isValidUrl_accepts] on the static web: an https prospect is accepted,
    an ftp URL and a string that is no URL are rejected. *)
Lemma isValidUrl_accepts_witness :
  GoogleSearcher.isValidUrl (H := Fixture.web) "https://shop.test/" = true ∧
  GoogleSearcher.isValidUrl (H := Fixture.web) "ftp://files.test/" = false ∧
  GoogleSearcher.isValidUrl (H := Fixture.web) "shop" = false.
Proof.
  split; [|split].
  - apply (proj2 (isValidUrl_accepts (H := Fixture.web) "https://shop.test/")).
    + by right.
    + split; [by vm_compute|]. split; [by vm_compute|].
      intros domain Hin. simpl in Hin.
      repeat (destruct Hin as [<-|Hin]; [by vm_compute|]). destruct Hin.
  - apply (proj1 (isValidUrl_accepts (H := Fixture.web) "ftp://files.test/")).
    by vm_compute.
  - exact (isValidUrl_accepts (H := Fixture.web) "shop").
Defined.

(* ===================================================================== *)
(** * Contact extraction *)
(* ===================================================================== *)

Section Extraction.
Context `{Platform}.
Import EmailExtractor Trace.

Lemma collectSocial_app (hrefs1 hrefs2 : list string) (sm : gmap string string) :
  collectSocial (hrefs1 ++ hrefs2) sm = collectSocial hrefs2 (collectSocial hrefs1 sm).
Proof. unfold collectSocial. by rewrite List.filter_app, fold_left_app. Qed.

(** Anchors of other platforms leave an entry alone. *)
Lemma collectSocial_others (hrefs : list string) (sm : gmap string string)
      (platform : string) :
  (∀ href, In href hrefs → socialSelector href = true → platformOf href ≠ platform) →
  collectSocial hrefs sm !! platform = sm !! platform.
Proof.
  unfold collectSocial. revert sm.
  induction hrefs as [|href hrefs IH]; intros sm Hothers; [reflexivity|].
  cbn [List.filter]. destruct (socialSelector href) eqn:Hsel.
  - cbn [fold_left]. rewrite IH by (intros h Hh; apply Hothers; by right).
    apply lookup_insert_ne, Hothers; [by left | exact Hsel].
  - apply IH. intros h Hh. apply Hothers. by right.
Qed.

(** The entry of a platform is the last selected anchor classified
    under it. *)
Lemma collectSocial_last (before after : list string) (href : string)
      (sm : gmap string string) :
  socialSelector href = true →
  (∀ h, In h after → socialSelector h = true → platformOf h ≠ platformOf href) →
  collectSocial (before ++ href :: after) sm !! platformOf href = Some href.
Proof.
  intros Hsel Hafter.
  rewrite collectSocial_app.
  change (href :: after) with ([href] ++ after).
  rewrite collectSocial_app, (collectSocial_others after) by exact Hafter.
  unfold collectSocial at 1. cbn [List.filter]. rewrite Hsel. cbn [fold_left].
  apply lookup_insert_eq.
Qed.

(** A page never makes the crawl fail; how the world moves on does not
    depend on what was collected before. *)
Lemma processPage_spec (url : string) (contactInfo : ContactInfo) (w : World) :
  ∃ contactInfo',
    processPage url contactInfo w =
      (Ok contactInfo', snd (processPage url noContactInfo w)) ∧
    ci_socialMedia contactInfo' =
      match pageDom url w with
      | Some dom => collectSocial (dom_anchor_hrefs dom) (ci_socialMedia contactInfo)
      | None => ci_socialMedia contactInfo
      end.
Proof.
  unfold processPage, pageDom, extractEmailsFromPage.
  unfold_monad.
  destruct (axios_get url 10000 w) as [[response|message] w1]; cbn.
  - destruct (load (data response) w1) as [[dom|cause] w1']; cbn.
    + destruct (axios_get url 10000 w1') as [[response'|message'] w2]; cbn.
      * destruct (load (data response') w2) as [[dom'|cause'] w2']; cbn;
          eexists; split; reflexivity.
      * eexists; split; reflexivity.
    + eexists; split; reflexivity.
  - eexists; split; reflexivity.
Qed.

Lemma processPages_spec (urlsToCheck : list string) (contactInfo : ContactInfo) (w : World) :
  ∃ contactInfo' w',
    processPages urlsToCheck contactInfo w = (Ok contactInfo', w') ∧
    ci_socialMedia contactInfo' =
      collectSocial (List.concat (List.map dom_anchor_hrefs (pagesRead urlsToCheck w)))
                    (ci_socialMedia contactInfo).
Proof.
  revert contactInfo w. induction urlsToCheck as [|url rest IH]; intros contactInfo w.
  - exists contactInfo, w. split; reflexivity.
  - cbn [processPages pagesRead]. unfold bind at 1.
    destruct (processPage_spec url contactInfo w) as (contactInfo1 & Hpage & Hsocial).
    rewrite Hpage.
    destruct (IH contactInfo1 (snd (processPage url noContactInfo w)))
      as (contactInfo' & w' & Hrest & Hsocial').
    exists contactInfo', w'. split; [exact Hrest|].
    rewrite Hsocial', Hsocial, List.map_app, List.concat_app, collectSocial_app.
    destruct (pageDom url w) as [dom|]; cbn; [|reflexivity].
    by rewrite List.app_nil_r.
Qed.

(** [extractFromWordPressSite] always returns a record for the URL it
    was given. *)
Lemma extractFromWordPressSite_spec (url : string) (w : World) :
  ∃ record w',
    extractFromWordPressSite url w = (Ok record, w') ∧
    cr_url record = url ∧
    cr_socialMedia record = collectSocial (anchorsRead url w) ∅.
Proof.
  unfold extractFromWordPressSite, extractContactInfo, anchorsRead.
  destruct (processPages_spec
              (List.map (fun page => WordPressDetector.ensureProtocol url +:+ page) commonPages)
              noContactInfo w) as (contactInfo & w1 & Hpages & Hsocial).
  unfold_monad. cbv zeta. rewrite Hpages.
  destruct (date_now w1) as [extractedAt w2].
  eexists _, _. split; [reflexivity|]. split; [reflexivity|]. exact Hsocial.
Qed.

End Extraction.

(** Among the anchors the code files under one platform the last one
    wins.  Take the anchors the extractor reads for a site, page after page
    and in document order within a page.  If two of them are selected and
    classified under the same platform, and no anchor after the later one
    is, then the extraction returns a record whose [socialMedia] entry for
    that platform is the target of the later anchor. *)
Lemma social_later_anchor_wins `{Platform} (baseUrl : string) (w : World)
        (platform : string) (before between after : list string) (earlier later : string) :
  Trace.anchorsRead baseUrl w = before ++ earlier :: between ++ later :: after →
  EmailExtractor.socialSelector earlier = true →
  EmailExtractor.platformOf earlier = platform →
  EmailExtractor.socialSelector later = true →
  EmailExtractor.platformOf later = platform →
  (∀ href, In href after →
           EmailExtractor.socialSelector href = true →
           EmailExtractor.platformOf href ≠ platform) →
  ∃ record w',
    EmailExtractor.extractFromWordPressSite baseUrl w = (Ok record, w') ∧
    cr_socialMedia record !! platform = Some later.
Proof.
  intros Hanchors _ _ Hsel <- Hafter.
  destruct (extractFromWordPressSite_spec baseUrl w) as (record & w' & Hrun & _ & Hsocial).
  exists record, w'. split; [exact Hrun|].
  rewrite Hsocial, Hanchors.
  change (before ++ earlier :: between ++ later :: after)
    with (before ++ (earlier :: between) ++ later :: after).
  rewrite List.app_assoc. by apply collectSocial_last.
Qed.

(** [social_later_anchor_wins] on the static web: the page of
    [social.test] links to two Facebook pages, with a Twitter link in
    between. *)
Lemma social_later_anchor_wins_witness :
  ∃ record w',
    EmailExtractor.extractFromWordPressSite (H := Fixture.web) "social.test" [] =
      (Ok record, w') ∧
    cr_socialMedia record !! "facebook" = Some "https://facebook.com/new-page".
Proof.
  apply (social_later_anchor_wins (H := Fixture.web) "social.test" [] "facebook"
           [] ["https://twitter.com/acme"] []
           "https://facebook.com/old-page" "https://facebook.com/new-page").
  - vm_compute. reflexivity.
  - vm_compute. reflexivity.
  - vm_compute. reflexivity.
  - vm_compute. reflexivity.
  - vm_compute. reflexivity.
  - intros href [].
Defined.

(** C8. An anchor is picked by the domain in its target ([twitter.com])
    but filed by the first platform name its target contains, [facebook]
    being tried first.  A page with two links to Twitter, the later one to
    an account with [facebook] in its name, gives a record whose [twitter]
    entry is still the earlier link: the later one is filed under
    [facebook], though its target does not contain [facebook.com]. *)
Theorem social_later_anchor_misfiled :
  Trace.anchorsRead (H := Fixture.web) "tweets.test" [] =
    [ "https://twitter.com/acme"; "https://twitter.com/acme_facebook_fans" ] ∧
  includes "https://twitter.com/acme" "twitter.com" = true ∧
  includes "https://twitter.com/acme_facebook_fans" "twitter.com" = true ∧
  includes "https://twitter.com/acme_facebook_fans" "facebook.com" = false ∧
  EmailExtractor.socialSelector "https://twitter.com/acme_facebook_fans" = true ∧
  EmailExtractor.platformOf "https://twitter.com/acme_facebook_fans" = "facebook" ∧
  ∃ record w',
    EmailExtractor.extractFromWordPressSite (H := Fixture.web) "tweets.test" [] =
      (Ok record, w') ∧
    cr_socialMedia record !! "twitter" = Some "https://twitter.com/acme" ∧
    cr_socialMedia record !! "facebook" = Some "https://twitter.com/acme_facebook_fans".
Proof.
  assert (Trace.anchorsRead (H := Fixture.web) "tweets.test" [] =
          [ "https://twitter.com/acme"; "https://twitter.com/acme_facebook_fans" ])
    as Hanchors by (by vm_compute).
  split; [exact Hanchors|]. do 5 (split; [by vm_compute|]).
  destruct (extractFromWordPressSite_spec (H := Fixture.web) "tweets.test" [])
    as (record & w' & Hrun & _ & Hsocial).
  exists record, w'. split; [exact Hrun|]. rewrite Hsocial, Hanchors.
  unfold EmailExtractor.collectSocial.
  change (List.filter EmailExtractor.socialSelector
            [ "https://twitter.com/acme"; "https://twitter.com/acme_facebook_fans" ])
    with [ "https://twitter.com/acme"; "https://twitter.com/acme_facebook_fans" ].
  cbn [fold_left].
  change (EmailExtractor.platformOf "https://twitter.com/acme") with "twitter".
  change (EmailExtractor.platformOf "https://twitter.com/acme_facebook_fans") with "facebook".
  split.
  - rewrite lookup_insert_ne by discriminate. apply lookup_insert_eq.
  - apply lookup_insert_eq.
Qed.

(* ===================================================================== *)
(** * Batch scraping *)
(* ===================================================================== *)

Section BatchScraping.
Context `{Platform}.
Variable this : WordPressScraper.Options.
Import WordPressScraper Trace.

(** [scrapeWebsite] never throws; a record it returns is about the URL
    it was given; without [onlyWordPress] it never returns [null]. *)
Lemma scrapeWebsite_spec (url : string) (w : World) :
  ∃ result w',
    scrapeWebsite this url w = (Ok result, w') ∧
    (∀ site, result = Some site → site_url site = url ∧ booleanVerdict site) ∧
    (onlyWordPress this = false → result ≠ None).
Proof.
  unfold scrapeWebsite. unfold_monad.
  destruct (WordPressDetector.isWordPressSite url w) as [[verdict|message] w1].
  - destruct (negb (isWordPress verdict) && onlyWordPress this) eqn:Hskip.
    + exists None, w1. split; [reflexivity|]. split; [discriminate|].
      intros Hoff. rewrite Hoff, andb_false_r in Hskip. discriminate.
    + destruct (extractFromWordPressSite_spec url w1) as (record & w2 & Hrun & Hurl & _).
      rewrite Hrun. eexists _, _. split; [reflexivity|]. split; [|discriminate].
      intros site [= <-]. split; [exact Hurl | by eexists].
  - destruct (date_now w1) as [extractedAt w2].
    eexists _, _. split; [reflexivity|]. split; [|discriminate].
    intros site [= <-]. split; [reflexivity | by eexists].
Qed.


Lemma scrapeBatch_turn (batchOptions : Options) (n i : nat) (url : string)
      (rest : list string) (results : list Site) (w w1 : World) (result : option Site) :
  scrapeWebsite this url w = (Ok result, w1) →
  scrapeBatch_loop this batchOptions n i (url :: rest) results w =
  scrapeBatch_loop this batchOptions n (S i) rest
    (match result with Some site => results ++ [site] | None => results end)
    (afterTurn batchOptions n i w1).
Proof.
  intros Hscrape. cbn [scrapeBatch_loop]. unfold bind at 1.
  unfold try_catch, bind at 1. rewrite Hscrape. unfold afterTurn.
  destruct (respectful batchOptions && Nat.ltb i (n - 1)); reflexivity.
Qed.

Lemma scrapeBatch_loop_spec (batchOptions : Options) (n i : nat) (rest : list string)
      (results : list Site) (w : World) :
  ∃ sites w',
    scrapeBatch_loop this batchOptions n i rest results w = (Ok (results ++ sites), w') ∧
    List.length sites ≤ List.length rest ∧
    Forall booleanVerdict sites ∧
    (onlyWordPress this = false → List.map site_url sites = rest).
Proof.
  revert i results w. induction rest as [|url rest IH]; intros i results w.
  - exists [], w. cbn. unfold ret. rewrite List.app_nil_r. auto.
  - destruct (scrapeWebsite_spec url w) as (result & w1 & Hscrape & Hsite & Hsome).
    rewrite (scrapeBatch_turn _ _ _ _ _ _ _ _ _ Hscrape).
    destruct result as [site|].
    + destruct (IH (S i) (results ++ [site]) (afterTurn batchOptions n i w1))
        as (sites & w' & Hloop & Hlen & Hbool & Hurls).
      destruct (Hsite site eq_refl) as [Hurl Hb].
      exists (site :: sites), w'. rewrite Hloop, <- List.app_assoc.
      split; [reflexivity|]. split; [simpl; lia|]. split; [by constructor|].
      intros Hoff. cbn. by rewrite Hurl, (Hurls Hoff).
    + destruct (IH (S i) results (afterTurn batchOptions n i w1))
        as (sites & w' & Hloop & Hlen & Hbool & Hurls).
      exists sites, w'. split; [exact Hloop|]. split; [simpl; lia|].
      split; [exact Hbool|]. intros Hoff. by destruct (Hsome Hoff).
Qed.

Lemma scrapeBatch_spec (urls : list string) (options : BatchOptions) (w : World) :
  ∃ results w',
    scrapeBatch this urls options w = (Ok results, w') ∧
    List.length results ≤ List.length urls ∧
    Forall booleanVerdict results ∧
    (onlyWordPress this = false → List.map site_url results = urls).
Proof. unfold scrapeBatch. apply (scrapeBatch_loop_spec _ _ _ _ []). Qed.

End BatchScraping.



(** With [onlyWordPress] the batch of two sites returns one record, and an
    [onlyWordPress: false] passed to the call does not change that:
    [scrapeWebsite] reads the option of the scraper. *)
Example scrapeBatch_only_wordpress :
  match fst (WordPressScraper.scrapeBatch (H := Fixture.web)
               (WordPressScraper.mkOptions true 1000 true)
               ["shop.test"; "plain.test"]
               (WordPressScraper.mkBatchOptions None None (Some false)) []) with
  | Ok results => List.map site_url results
  | Throw _ => []
  end = ["shop.test"].
Proof. vm_compute. reflexivity. Qed.

(* ===================================================================== *)
(** * The pipeline without validation *)
(* ===================================================================== *)

Section Pipeline.
Context `{Platform}.
Import WordPressProspector DataExporter.

(** Every row of the tabular export comes from one site of the data. *)
Lemma csvData_rows (data : list Site) (r : CsvRow) :
  In r (csvData data) → ∃ site email, In site data ∧ r = row site email.
Proof.
  unfold csvData. rewrite in_flat_map. intros (site & Hsite & Hrow).
  destruct (site_emails site) as [[|email emails]|].
  - destruct Hrow as [<-|[]]. by exists site, "".
  - apply in_map_iff in Hrow as (e & <- & _). by exists site, e.
  - destruct Hrow as [<-|[]]. by exists site, "".
Qed.

(** On records whose verdict is a boolean, the column says Yes for the
    boolean [true] only. *)
Lemma csvData_yes (data : list Site) (r : CsvRow) :
  Forall Trace.booleanVerdict data →
  In r (csvData data) →
  row_wordpressDetected r = "Yes" →
  ∃ site, In site data ∧ row_url r = site_url site ∧ site_isWordPress site = JsBool true.
Proof.
  intros Hbool Hr Hyes.
  apply csvData_rows in Hr as (site & email & Hsite & ->).
  exists site. split; [exact Hsite|]. split; [reflexivity|].
  rewrite List.Forall_forall in Hbool. destruct (Hbool site Hsite) as [b Hb].
  cbn in Hyes. rewrite Hb in Hyes |- *. by destruct b.
Qed.

Lemma notValidated_not_confirmed (urls : list string) :
  List.filter (fun site => strict_eq_true (site_isWordPress site))
              (List.map notValidated urls) = [].
Proof. induction urls as [|url urls IH]; [reflexivity | exact IH]. Qed.

Lemma confirmed_generateSummary (pipeline : Pipeline) :
  confirmedWordPressSites (generateSummary pipeline) =
  List.length (List.filter (fun site => strict_eq_true (site_isWordPress site))
                           (wordpressSites pipeline)).
Proof. reflexivity. Qed.

Lemma notValidated_tagged (urls : list string) :
  Forall (fun site => site_isWordPress site = JsString "not_validated")
         (List.map notValidated urls).
Proof. induction urls as [|url urls IH]; by constructor. Qed.

End Pipeline.

(** C9. With validation switched off and a search that returns, the
    pipeline returns, and [wordpressSites] holds, for every discovered
    URL in order, the record tagged [not_validated].  The tag is not the
    boolean [true]: no such record counts as confirmed, so the summary,
    when there is one, reports zero confirmed sites.  The exporters only
    get [contactData], whose records all carry the boolean verdict of a
    detection; a row of the tabular export says Yes only for a record whose
    verdict is the boolean [true]. *)
Theorem not_validated_kept_distinct `{Platform}
        (this : WordPressProspector.Options) (scraper : WordPressScraper.Options)
        (w w1 : World) (found : list SearchResult) :
  WordPressProspector.validateWordPress this = false →
  searcher_findWordPressSites w = (Ok found, w1) →
  ∃ pipeline w',
    WordPressProspector.findAndScrapeWordPressSites this scraper w = (Ok pipeline, w') ∧
    WordPressProspector.wordpressSites pipeline =
      List.map WordPressProspector.notValidated (GoogleSearcher.extractDomains found) ∧
    Forall (fun site => site_isWordPress site = JsString "not_validated")
           (WordPressProspector.wordpressSites pipeline) ∧
    WordPressProspector.confirmedWordPressSites
      (WordPressProspector.generateSummary pipeline) = 0 ∧
    (found ≠ [] →
     WordPressProspector.summary pipeline =
       Some (WordPressProspector.generateSummary pipeline)) ∧
    Forall Trace.booleanVerdict (WordPressProspector.contactData pipeline) ∧
    ∀ data r,
      WordPressProspector.exportedData pipeline = Some data →
      In r (DataExporter.csvData data) →
      DataExporter.row_wordpressDetected r = "Yes" →
      ∃ site, In site data ∧ DataExporter.row_url r = site_url site ∧
              site_isWordPress site = JsBool true.
Proof.
  intros Hskip Hsearch.
  assert (∀ sites contact,
             Forall Trace.booleanVerdict contact →
             ∀ data r,
               WordPressProspector.exportedData
                 (WordPressProspector.mkPipeline found sites contact
                    (Some (WordPressProspector.generateSummary
                             (WordPressProspector.mkPipeline found sites contact None))))
               = Some data →
               In r (DataExporter.csvData data) →
               DataExporter.row_wordpressDetected r = "Yes" →
               ∃ site, In site data ∧ DataExporter.row_url r = site_url site ∧
                       site_isWordPress site = JsBool true) as Hexport.
  { intros sites contact Hbool data r Hdata. unfold WordPressProspector.exportedData in Hdata.
    cbn in Hdata. destruct contact as [|site contact]; [discriminate|].
    injection Hdata as <-. by apply csvData_yes. }
  unfold WordPressProspector.findAndScrapeWordPressSites, try_catch, bind.
  rewrite Hsearch. destruct found as [|result found'].
  - cbn. eexists _, _. split; [reflexivity|]. cbn.
    repeat split; try constructor; try reflexivity; try done.
  - cbn [List.length Nat.eqb].
    unfold WordPressProspector.validateAndExtract. rewrite Hskip.
    unfold bind, ret. cbv zeta.
    set (urls := GoogleSearcher.extractDomains (result :: found')).
    destruct (WordPressProspector.extractEmails this && Nat.ltb 0 (List.length urls)).
    + destruct (scrapeBatch_spec scraper urls
                  (WordPressScraper.mkBatchOptions None (Some 2000%Z) (Some false)) w1)
        as (contact & w' & Hrun & _ & Hbool & _).
      rewrite Hrun. eexists _, _. split; [reflexivity|].
      rewrite confirmed_generateSummary.
      cbn [WordPressProspector.wordpressSites WordPressProspector.contactData
           WordPressProspector.summary].
      split; [reflexivity|]. split; [apply notValidated_tagged|].
      split; [by rewrite notValidated_not_confirmed|].
      split; [reflexivity|]. split; [exact Hbool|]. by apply Hexport.
    + eexists _, _. split; [reflexivity|].
      rewrite confirmed_generateSummary.
      cbn [WordPressProspector.wordpressSites WordPressProspector.contactData
           WordPressProspector.summary].
      split; [reflexivity|]. split; [apply notValidated_tagged|].
      split; [by rewrite notValidated_not_confirmed|].
      split; [reflexivity|]. split; [constructor|]. by apply Hexport.
Qed.

(** [not_validated_kept_distinct] on the static web: the search finds two
    sites, validation is off. *)
Lemma not_validated_kept_distinct_witness :
  ∃ pipeline w',
    WordPressProspector.findAndScrapeWordPressSites (H := Fixture.web)
      (WordPressProspector.mkOptions false true)
      (WordPressScraper.mkOptions true 1000 false) [] = (Ok pipeline, w') ∧
    WordPressProspector.wordpressSites pipeline =
      [ WordPressProspector.notValidated "shop.test";
        WordPressProspector.notValidated "plain.test" ] ∧
    WordPressProspector.confirmedWordPressSites
      (WordPressProspector.generateSummary pipeline) = 0.
Proof.
  destruct (not_validated_kept_distinct (H := Fixture.web)
              (WordPressProspector.mkOptions false true)
              (WordPressScraper.mkOptions true 1000 false)
              [] [] Fixture.found eq_refl eq_refl)
    as (pipeline & w' & Hrun & Hsites & _ & Hconfirmed & _).
  exists pipeline, w'. split; [exact Hrun|]. split; [exact Hsites | exact Hconfirmed].
Defined.

(** The run behind the witness: two tagged records, none confirmed, a rate
    of [0.0]; the export rows come from [contactData] and show the verdict
    of the detection made during extraction. *)
Example pipeline_without_validation :
  match fst (WordPressProspector.findAndScrapeWordPressSites (H := Fixture.web)
               (WordPressProspector.mkOptions false true)
               (WordPressScraper.mkOptions true 1000 false) []) with
  | Ok pipeline =>
      ( List.map site_isWordPress (WordPressProspector.wordpressSites pipeline),
        option_map
          (fun s => (WordPressProspector.sitesValidated s,
                     WordPressProspector.confirmedWordPressSites s,
                     WordPressProspector.wordpressDetectionRate s))
          (WordPressProspector.summary pipeline),
        List.map
          (fun r => (DataExporter.row_url r, DataExporter.row_email r,
                     DataExporter.row_wordpressDetected r))
          (DataExporter.csvData (WordPressProspector.contactData pipeline)) )
  | Throw _ => ([], None, [])
  end =
  ( [ JsString "not_validated"; JsString "not_validated" ],
    Some (2, 0, JsString "0.0"),
    [ ("shop.test", "info@realcompany.com", "Yes"); ("plain.test", "", "No") ] ).
Proof. vm_compute. reflexivity. Qed.

(** The tabular export tests the verdict for truthiness: a tagged record
    would read Yes if one were handed to it.  In the pipeline none is, as
    the theorem above shows. *)
Example csv_row_of_tagged_record :
  DataExporter.row_wordpressDetected
    (DataExporter.row (WordPressProspector.notValidated "shop.test") "") = "Yes".
Proof. reflexivity. Qed.

Lemma filter_truthy_confirmed (sites : list Site) :
  Forall Trace.booleanVerdict sites →
  Forall (fun site => site_isWordPress site = JsBool true)
         (List.filter (fun site => truthy (site_isWordPress site)) sites).
Proof.
  induction 1 as [|site sites [b Hb] _ IH]; [constructor|].
  cbn [List.filter]. rewrite Hb. destruct b; cbn [truthy]; [|exact IH].
  constructor; [exact Hb | exact IH].
Qed.

(** With validation on, [wordpressSites] only keeps the records detection
    confirmed: the summary then counts the same sites as validated and as
    confirmed. *)
Lemma validated_sites_all_confirmed `{Platform}
      (this : WordPressProspector.Options) (scraper : WordPressScraper.Options)
      (w w1 : World) (found : list SearchResult) :
  WordPressProspector.validateWordPress this = true →
  searcher_findWordPressSites w = (Ok found, w1) →
  ∃ pipeline w',
    WordPressProspector.findAndScrapeWordPressSites this scraper w = (Ok pipeline, w') ∧
    Forall (fun site => site_isWordPress site = JsBool true)
           (WordPressProspector.wordpressSites pipeline).
Proof.
  intros Hvalidate Hsearch.
  unfold WordPressProspector.findAndScrapeWordPressSites, try_catch, bind.
  rewrite Hsearch. destruct found as [|result found'].
  - cbn. eexists _, _. split; [reflexivity | constructor].
  - cbn [List.length Nat.eqb].
    unfold WordPressProspector.validateAndExtract. rewrite Hvalidate.
    unfold bind, ret. cbv zeta.
    set (urls := GoogleSearcher.extractDomains (result :: found')).
    destruct (scrapeBatch_spec scraper urls
                (WordPressScraper.mkBatchOptions None (Some 1500%Z) (Some false)) w1)
      as (detection & w2 & Hrun & _ & Hbool & _).
    rewrite Hrun.
    set (sites := List.filter (fun site => truthy (site_isWordPress site)) detection).
    destruct (WordPressProspector.extractEmails this
              && Nat.ltb 0 (List.length (List.map site_url sites))).
    + destruct (scrapeBatch_spec scraper (List.map site_url sites)
                  (WordPressScraper.mkBatchOptions None (Some 2000%Z) (Some false)) w2)
        as (contact & w' & Hrun' & _).
      rewrite Hrun'. eexists _, _. split; [reflexivity|].
      by apply filter_truthy_confirmed.
    + eexists _, _. split; [reflexivity|]. by apply filter_truthy_confirmed.
Qed.

(* ===================================================================== *)
(** * More on detection *)
(* ===================================================================== *)

Section DetectionContract.
Context `{Platform}.
Import WordPressDetector.

Lemma body_cases (content : Json) :
  (∃ html, content = JsonString html) ∨ (∀ html, content ≠ JsonString html).
Proof. destruct content; try (right; intros ?; discriminate). left. by eexists. Qed.

(** After a successful fetch of a body that is a string, [detect] returns,
    with one of the five positive verdicts or the negative one. *)
Lemma detect_returns (url : string) (w w1 : World) (response : Response) (html : string) :
  axios_get url 10000 w = (Ok response, w1) →
  data response = JsonString html →
  ∃ v w',
    detect url w = (Ok v, w') ∧
    ((isWordPress v = true ∧ confidence v = High ∧ ∃ i, indicator v = Some i) ∨
     (isWordPress v = true ∧ confidence v = Medium ∧
      (indicator v = Some "WordPress assets in link tags" ∨
       indicator v = Some "WordPress CSS classes")) ∨
     v = mkVerdict false None High).
Proof.
  intros Hget Hdata. rewrite (detect_text url w w1 response html Hget Hdata). cbv zeta.
  destruct (firstIndicator (toLowerCase html)) as [i|].
  { eexists _, _. split; [reflexivity|]. left. eauto. }
  destruct (match dom_meta_generator (cheerio_load html) with
            | Some g => negb (String.eqb g "") && includes (toLowerCase g) "wordpress"
            | None => false
            end).
  { eexists _, _. split; [reflexivity|]. left. eauto. }
  unfold bind, try_catch, get, ret.
  destruct (axios_get (probeUrl url) 5000 w1) as [[r|message] w2]; cbn;
    [destruct (Z.eqb (status r) 200)|];
    repeat match goal with
           | |- context [if ?b then _ else _] => destruct b
           end;
    eexists _, _; (split; [reflexivity|]);
    first [ left; by eauto
          | right; left; by auto
          | right; right; reflexivity ].
Qed.

(** A detection that returns has fetched a body that is a string. *)
Lemma detect_ok_text (url : string) (w w' : World) (v : Verdict) :
  detect url w = (Ok v, w') →
  ∃ response w1 html,
    axios_get url 10000 w = (Ok response, w1) ∧ data response = JsonString html.
Proof.
  intros Hdetect.
  destruct (axios_get url 10000 w) as [[response|cause] w1] eqn:Hget.
  - destruct (body_cases (data response)) as [[html Hdata]|Hnot].
    + by exists response, w1, html.
    + destruct (detect_not_text url w w1 response Hget Hnot) as (cause & Hthrow & _).
      congruence.
  - unfold detect, bind, get in Hdetect. rewrite Hget in Hdetect. discriminate.
Qed.

End DetectionContract.

(** X1. [isWordPressSite] throws exactly when the request for the page
    fails, or the page is fetched and its body does not come back as a
    string: loading that value throws, or else lower-casing it does.  The
    message is the cause behind the fixed prefix and the normalised URL,
    and the world is the one the request left.  So a fetched page whose
    body is a string always gets a verdict: a failure of the REST probe
    never surfaces. *)
Theorem isWordPressSite_throws_iff `{Platform} (url message : string) (w w' : World) :
  WordPressDetector.isWordPressSite url w = (Throw message, w') ↔
  ∃ cause,
    message = "Failed to check WordPress status for " +:+
              WordPressDetector.ensureProtocol url +:+ ": " +:+ cause ∧
    (axios_get (WordPressDetector.ensureProtocol url) 10000 w = (Throw cause, w') ∨
     ∃ response,
       axios_get (WordPressDetector.ensureProtocol url) 10000 w = (Ok response, w') ∧
       (∀ html, data response ≠ JsonString html) ∧
       (cheerio_load_value (data response) = Throw cause ∨
        (∃ dom, cheerio_load_value (data response) = Ok dom) ∧
        cause = match data response with
                | JsonNull => "Cannot read properties of null (reading 'toLowerCase')"
                | _ => "html.toLowerCase is not a function"
                end)).
Proof.
  unfold WordPressDetector.isWordPressSite, try_catch.
  destruct (axios_get (WordPressDetector.ensureProtocol url) 10000 w)
    as [[response|cause] w1] eqn:Hget.
  - destruct (body_cases (data response)) as [[html Hdata]|Hnot].
    + destruct (detect_returns _ _ _ _ _ Hget Hdata) as (v & w2 & -> & _).
      split; [discriminate|].
      intros (cause & _ & [[=]|(response' & [= <- <-] & Hnot & _)]).
      by destruct (Hnot html).
    + destruct (detect_not_text _ _ _ _ Hget Hnot) as (cause & -> & Hwhy).
      assert (cheerio_load_value (data response) = Throw cause ∨
              (∃ dom, cheerio_load_value (data response) = Ok dom) ∧
              cause = match data response with
                      | JsonNull => "Cannot read properties of null (reading 'toLowerCase')"
                      | _ => "html.toLowerCase is not a function"
                      end) as Hcause.
      { destruct Hwhy as [Hload|[Hload Hlower]]; [by left|]. right. split; [exact Hload|].
        destruct (data response) as [|b|x|html|text|text];
          try (by destruct (Hnot html eq_refl));
          cbn [toLowerCaseOf] in Hlower; unfold throw in Hlower; by injection Hlower. }
      unfold throw. split.
      * intros [= <- <-]. exists cause. split; [reflexivity|]. right. by exists response.
      * intros (cause' & -> & [[=]|(response' & [= <- <-] & _ & Hcause')]).
        assert (cause' = cause) as ->; [|reflexivity].
        destruct Hcause as [Hload|[[dom Hload] ->]];
          destruct Hcause' as [Hload'|[[dom' Hload'] ->]]; congruence.
  - unfold WordPressDetector.detect, bind, get, throw. rewrite Hget. split.
    + intros [= <- <-]. exists cause. split; [reflexivity | by left].
    + intros (cause' & -> & [[= <- <-]|(response & [=] & _)]). reflexivity.
Qed.

(** X2. A verdict [isWordPressSite] returns is of one of three shapes:
    positive with high confidence and some indicator; positive with medium
    confidence and the indicator of the link tags or of the CSS classes;
    or negative, without indicator, with high confidence.  So the indicator
    is [null] exactly when the verdict is negative, and the confidences
    low and unknown never come out of a detection. *)
Theorem isWordPressSite_verdict_shape `{Platform} (url : string) (w w' : World) (v : Verdict) :
  WordPressDetector.isWordPressSite url w = (Ok v, w') →
  ((isWordPress v = true ∧ confidence v = High ∧ ∃ i, indicator v = Some i) ∨
   (isWordPress v = true ∧ confidence v = Medium ∧
    (indicator v = Some "WordPress assets in link tags" ∨
     indicator v = Some "WordPress CSS classes")) ∨
   v = mkVerdict false None High) ∧
  (indicator v = None ↔ isWordPress v = false) ∧
  confidence v ≠ Low ∧ confidence v ≠ Unknown.
Proof.
  unfold WordPressDetector.isWordPressSite, try_catch. intros Hrun.
  destruct (axios_get (WordPressDetector.ensureProtocol url) 10000 w)
    as [[response|cause] w1] eqn:Hget.
  - destruct (body_cases (data response)) as [[html Hdata]|Hnot].
    + destruct (detect_returns _ _ _ _ _ Hget Hdata) as (v0 & w2 & Hdetect & Hshape).
      rewrite Hdetect in Hrun. injection Hrun as <- <-.
      split; [exact Hshape|].
      destruct v0 as [b ind c]. cbn in Hshape |- *.
      destruct Hshape as [(-> & -> & i & ->)|[(-> & -> & [-> | ->])|[= -> -> ->]]];
        (split; [split; intros; congruence | split; congruence]).
    + destruct (detect_not_text _ _ _ _ Hget Hnot) as (cause & Hthrow & _).
      rewrite Hthrow in Hrun. discriminate.
  - unfold WordPressDetector.detect, bind, get, throw in Hrun. rewrite Hget in Hrun.
    discriminate.
Qed.

(** [isWordPressSite_verdict_shape] on the static web. *)
Lemma isWordPressSite_verdict_shape_witness :
  indicator (mkVerdict true (Some "/wp-content/") High) = None ↔
  isWordPress (mkVerdict true (Some "/wp-content/") High) = false.
Proof.
  exact (proj1 (proj2 (isWordPressSite_verdict_shape (H := Fixture.web) "shop.test" []
                         ["https://shop.test"] (mkVerdict true (Some "/wp-content/") High)
                         eq_refl))).
Defined.

(** X3. Adding the protocol is idempotent, so a detection and an extraction
    behave on a URL that already has its protocol exactly as on the URL they
    make of a bare domain: [isWordPressSite] and [extractContactInfo] give
    the same result, in the same world, for [example.org] and for
    [https://example.org]. *)
Theorem ensureProtocol_idempotent `{Platform} (url : string) :
  WordPressDetector.ensureProtocol (WordPressDetector.ensureProtocol url) =
    WordPressDetector.ensureProtocol url ∧
  (∀ w, WordPressDetector.isWordPressSite (WordPressDetector.ensureProtocol url) w =
        WordPressDetector.isWordPressSite url w) ∧
  (∀ w, EmailExtractor.extractContactInfo (WordPressDetector.ensureProtocol url) w =
        EmailExtractor.extractContactInfo url w).
Proof.
  assert (WordPressDetector.ensureProtocol (WordPressDetector.ensureProtocol url) =
          WordPressDetector.ensureProtocol url) as Hidem.
  { unfold WordPressDetector.ensureProtocol.
    destruct (negb (startsWith url "http://") && negb (startsWith url "https://")) eqn:Hbare.
    - assert (startsWith ("https://" +:+ url) "https://" = true) as ->
        by (apply startsWith_spec; by exists url).
      by destruct (startsWith ("https://" +:+ url) "http://").
    - by rewrite Hbare. }
  split; [exact Hidem|]. split.
  - intros w. unfold WordPressDetector.isWordPressSite. by rewrite Hidem.
  - intros w. unfold EmailExtractor.extractContactInfo. by rewrite Hidem.
Qed.

Section BatchComposition.
Context `{Platform}.
Import WordPressDetector Trace.

Lemma checkWordPressBatch_step (url : string) (rest : list string)
      (results : list BatchVerdict) (w : World) :
  checkWordPressBatch_loop (url :: rest) results w =
  checkWordPressBatch_loop rest
    (results ++ [verdictRecord url (fst (isWordPressSite url w))])
    (match fst (isWordPressSite url w) with
     | Ok _ => sleep 1000 (snd (isWordPressSite url w))
     | Throw _ => snd (isWordPressSite url w)
     end).
Proof.
  cbn [checkWordPressBatch_loop]. unfold bind at 1. unfold try_catch, bind, pause, ret.
  by destruct (isWordPressSite url w) as [[result|message] w1].
Qed.

(** The records found before the loop starts are kept in front. *)
Lemma checkWordPressBatch_loop_shift (urls : list string) (results rs : list BatchVerdict)
      (w w' : World) :
  checkWordPressBatch_loop urls [] w = (Ok rs, w') →
  checkWordPressBatch_loop urls results w = (Ok (results ++ rs), w').
Proof.
  revert results rs w w'. induction urls as [|url rest IH]; intros results rs w w'.
  - cbn. unfold ret. intros [= <- <-]. by rewrite List.app_nil_r.
  - rewrite !checkWordPressBatch_step. cbn [app].
    set (x := verdictRecord url (fst (isWordPressSite url w))).
    set (w1 := match fst (isWordPressSite url w) with
               | Ok _ => sleep 1000 (snd (isWordPressSite url w))
               | Throw _ => snd (isWordPressSite url w)
               end).
    destruct (checkWordPressBatch_loop_spec rest [] w1) as [w0 Hrest].
    rewrite (IH [x] _ _ _ Hrest). intros [= <- <-].
    rewrite (IH (results ++ [x]) _ _ _ Hrest). by rewrite <- List.app_assoc.
Qed.

Lemma checkWordPressBatch_loop_app (urls1 urls2 : list string) (results : list BatchVerdict)
      (w : World) :
  checkWordPressBatch_loop (urls1 ++ urls2) results w =
  match checkWordPressBatch_loop urls1 results w with
  | (Ok results1, w1) => checkWordPressBatch_loop urls2 results1 w1
  | (Throw message, w1) => (Throw message, w1)
  end.
Proof.
  revert results w. induction urls1 as [|url rest IH]; intros results w.
  - reflexivity.
  - cbn [app]. rewrite !checkWordPressBatch_step. apply IH.
Qed.

End BatchComposition.

(** X4. Checking a list of URLs in one batch gives the records, and leaves
    the world, of checking a first part of it and then the rest: the
    batch keeps nothing from one URL to the next. *)
Theorem checkWordPressBatch_app `{Platform} (urls1 urls2 : list string) (w : World) :
  ∃ results1 w1 results2 w2,
    WordPressDetector.checkWordPressBatch urls1 w = (Ok results1, w1) ∧
    WordPressDetector.checkWordPressBatch urls2 w1 = (Ok results2, w2) ∧
    WordPressDetector.checkWordPressBatch (urls1 ++ urls2) w = (Ok (results1 ++ results2), w2).
Proof.
  unfold WordPressDetector.checkWordPressBatch.
  destruct (checkWordPressBatch_loop_spec urls1 [] w) as [w1 H1].
  destruct (checkWordPressBatch_loop_spec urls2 [] w1) as [w2 H2].
  eexists _, w1, _, w2. split; [exact H1|]. split; [exact H2|].
  rewrite checkWordPressBatch_loop_app, H1.
  by apply checkWordPressBatch_loop_shift.
Qed.

(* ===================================================================== *)
(** * What a contact record holds *)
(* ===================================================================== *)

Section RecordInvariants.
Context `{Platform}.
Import EmailExtractor.

Lemma set_add_NoDup (x : string) (s : list string) :
  List.NoDup s → List.NoDup (set_add x s).
Proof.
  intros Hs. unfold set_add. destruct (existsb (String.eqb x) s) eqn:Hmem; [exact Hs|].
  apply List.NoDup_app; [exact Hs | repeat constructor; intros [] |].
  intros y Hy [Heq|[]]. subst y.
  assert (existsb (String.eqb x) s = true) as Hex.
  { apply existsb_exists. exists x. split; [exact Hy | apply String.eqb_refl]. }
  congruence.
Qed.

Lemma set_add_all_NoDup (xs s : list string) :
  List.NoDup s → List.NoDup (set_add_all xs s).
Proof.
  unfold set_add_all. revert s. induction xs as [|x xs IH]; intros s Hs; [exact Hs|].
  cbn [fold_left]. by apply IH, set_add_NoDup.
Qed.

Lemma set_add_all_Forall (P : string → Prop) (xs s : list string) :
  List.Forall P xs → List.Forall P s → List.Forall P (set_add_all xs s).
Proof.
  intros Hxs Hs. apply List.Forall_forall. intros y Hy.
  apply set_add_all_In in Hy as [Hy|Hy].
  - by apply (proj1 (List.Forall_forall P xs) Hxs).
  - by apply (proj1 (List.Forall_forall P s) Hs).
Qed.

Lemma filter_Forall (f : string → bool) (l : list string) :
  List.Forall (fun x => f x = true) (List.filter f l).
Proof. apply List.Forall_forall. intros x Hx. by apply filter_In in Hx as [_ ?]. Qed.

(** Every way into the set of a page goes through the syntax check. *)
Lemma emailsOfDom_valid (dom : Dom) :
  List.NoDup (emailsOfDom dom) ∧
  List.Forall (fun email => validator_isEmail email = true) (emailsOfDom dom).
Proof.
  unfold emailsOfDom, extractEmailsFromText, mailtoEmails, dataEmails, obfuscatedEmails.
  split.
  - repeat apply set_add_all_NoDup. constructor.
  - repeat first [apply filter_Forall | apply set_add_all_Forall | apply List.Forall_nil].
Qed.

(** What one turn of the crawl can do to the collected data. *)
Lemma processPage_cases (url : string) (contactInfo : ContactInfo) (w : World) :
  ∃ contactInfo' w',
    processPage url contactInfo w = (Ok contactInfo', w') ∧
    (contactInfo' = contactInfo ∨
     ∃ dom emails,
       (emails = [] ∨ ∃ dom', emails = emailsOfDom dom') ∧
       contactInfo' =
         mkContactInfo
           (set_add_all emails (ci_emails contactInfo))
           (collectPhones (dom_text dom) (ci_phones contactInfo))
           (collectSocial (dom_anchor_hrefs dom) (ci_socialMedia contactInfo))
           (collectForms url (dom_forms dom) (ci_contactForms contactInfo))).
Proof.
  unfold processPage, extractEmailsFromPage. unfold_monad.
  destruct (axios_get url 10000 w) as [[response|message] w1]; cbn.
  - destruct (load (data response) w1) as [[dom|cause] w1']; cbn.
    + destruct (axios_get url 10000 w1') as [[response'|message'] w2]; cbn.
      * destruct (load (data response') w2) as [[dom'|cause'] w2']; cbn;
          eexists _, _; (split; [reflexivity|]); right; eexists _, _; eauto.
      * eexists _, _. split; [reflexivity|]. right. eexists _, _. eauto.
    + eexists _, _. split; [reflexivity|]. by left.
  - eexists _, _. split; [reflexivity|]. by left.
Qed.

(** A property of the collected data that every turn keeps holds of what
    the crawl returns. *)
Lemma processPages_keeps (P : ContactInfo → Prop) (urlsToCheck : list string) :
  (∀ url contactInfo w,
      In url urlsToCheck → P contactInfo → P (match processPage url contactInfo w with
                                              | (Ok contactInfo', _) => contactInfo'
                                              | (Throw _, _) => contactInfo
                                              end)) →
  ∀ contactInfo w,
    P contactInfo →
    ∃ contactInfo' w',
      processPages urlsToCheck contactInfo w = (Ok contactInfo', w') ∧ P contactInfo'.
Proof.
  induction urlsToCheck as [|url rest IH]; intros Hstep contactInfo w HP.
  - exists contactInfo, w. by split.
  - cbn [processPages]. unfold bind at 1.
    destruct (processPage_cases url contactInfo w) as (contactInfo1 & w1 & Hpage & _).
    pose proof (Hstep url contactInfo w (or_introl eq_refl) HP) as HP1.
    rewrite Hpage in HP1 |- *.
    apply IH; [|exact HP1]. intros u ci w0 Hu. apply Hstep. by right.
Qed.

End RecordInvariants.

Section TrimFacts.

Lemma filter_chars_trimStart (keep : ascii → bool) (s : string) :
  (∀ c, is_space c = true → keep c = false) →
  filter_chars keep (trimStart s) = filter_chars keep s.
Proof.
  intros Hkeep. induction s as [|c s IH]; [reflexivity|].
  cbn [trimStart]. destruct (is_space c) eqn:Hc; [|reflexivity].
  cbn [filter_chars]. by rewrite (Hkeep c Hc).
Qed.

Lemma filter_chars_rev_app (keep : ascii → bool) (s acc : string) :
  filter_chars keep (String.rev_app s acc) =
  String.rev_app (filter_chars keep s) (filter_chars keep acc).
Proof.
  revert acc. induction s as [|c s IH]; intros acc; [reflexivity|].
  cbn [String.rev_app filter_chars]. rewrite IH. cbn [filter_chars].
  by destruct (keep c).
Qed.

Lemma rev_app_rev_app (s acc1 acc2 : string) :
  String.rev_app (String.rev_app s acc1) acc2 = String.rev_app acc1 (s +:+ acc2).
Proof.
  revert acc1 acc2. induction s as [|c s IH]; intros acc1 acc2; [reflexivity|].
  cbn [String.rev_app]. rewrite IH. cbn [String.rev_app]. by rewrite append_cons.
Qed.

Lemma rev_involutive (s : string) : String.rev (String.rev s) = s.
Proof.
  unfold String.rev. rewrite rev_app_rev_app. cbn [String.rev_app]. apply append_empty_r.
Qed.

(** Trimming removes white space only. *)
Lemma filter_chars_trim (keep : ascii → bool) (s : string) :
  (∀ c, is_space c = true → keep c = false) →
  filter_chars keep (trim s) = filter_chars keep s.
Proof.
  intros Hkeep. unfold trim, trimEnd, String.rev.
  rewrite filter_chars_rev_app, (filter_chars_trimStart _ _ Hkeep).
  rewrite filter_chars_rev_app. cbn [filter_chars].
  change (String.rev (String.rev (filter_chars keep (trimStart s))) =
          filter_chars keep s).
  by rewrite rev_involutive, filter_chars_trimStart.
Qed.

Lemma space_is_no_phone_char (c : ascii) :
  is_space c = true → is_digit c || Ascii.eqb c "+" = false.
Proof. destruct c as [[] [] [] [] [] [] [] []]; vm_compute; congruence. Qed.

Lemma cleanPhone_trim (phone : string) :
  EmailExtractor.cleanPhone (trim phone) = EmailExtractor.cleanPhone phone.
Proof. apply filter_chars_trim, space_is_no_phone_char. Qed.

End TrimFacts.

Section CollectedData.
Context `{Platform}.
Import EmailExtractor.

Lemma addPhone_keeps (phones : list string) (phone : string) :
  List.NoDup phones →
  List.Forall (fun p => 7 ≤ String.length (cleanPhone p)) phones →
  List.NoDup (addPhone phones phone) ∧
  List.Forall (fun p => 7 ≤ String.length (cleanPhone p)) (addPhone phones phone).
Proof.
  intros Hnodup Hlong. unfold addPhone.
  destruct (Nat.leb_spec 7 (String.length (cleanPhone phone))) as [Hlen|Hlen]; [|by split].
  split; [by apply set_add_NoDup|].
  apply List.Forall_forall. intros p Hp. apply set_add_In in Hp as [->|Hp].
  - by rewrite cleanPhone_trim.
  - by apply (proj1 (List.Forall_forall _ phones) Hlong).
Qed.

Lemma collectPhones_keeps (pageText : string) (phones : list string) :
  List.NoDup phones →
  List.Forall (fun p => 7 ≤ String.length (cleanPhone p)) phones →
  List.NoDup (collectPhones pageText phones) ∧
  List.Forall (fun p => 7 ≤ String.length (cleanPhone p)) (collectPhones pageText phones).
Proof.
  unfold collectPhones. generalize (match_all false phoneRegex pageText) as matches.
  intros matches. revert phones.
  induction matches as [|m matches IH]; intros phones Hnodup Hlong; [by split|].
  cbn [fold_left]. destruct (addPhone_keeps phones m Hnodup Hlong). by apply IH.
Qed.

(** A selected anchor is never classified as [other]. *)
Lemma includes_trans (s p q : string) :
  includes s p = true → includes p q = true → includes s q = true.
Proof.
  rewrite !includes_spec. intros (a & b & ->) (c & d & ->).
  exists (a +:+ c), (d +:+ b). by rewrite !append_assoc.
Qed.

Lemma platformOf_selected (href : string) :
  socialSelector href = true →
  platformOf href = "facebook" ∨ platformOf href = "twitter" ∨
  platformOf href = "linkedin" ∨ platformOf href = "instagram".
Proof.
  unfold socialSelector, platformOf. intros Hsel.
  destruct (includes href "facebook") eqn:Hf; [by left|].
  destruct (includes href "twitter") eqn:Ht; [by right; left|].
  destruct (includes href "linkedin") eqn:Hl; [by right; right; left|].
  destruct (includes href "instagram") eqn:Hi; [by right; right; right|].
  repeat apply orb_true_iff in Hsel as [Hsel|Hsel].
  - rewrite (includes_trans href "facebook.com" "facebook" Hsel eq_refl) in Hf. discriminate.
  - rewrite (includes_trans href "twitter.com" "twitter" Hsel eq_refl) in Ht. discriminate.
  - rewrite (includes_trans href "linkedin.com" "linkedin" Hsel eq_refl) in Hl. discriminate.
  - rewrite (includes_trans href "instagram.com" "instagram" Hsel eq_refl) in Hi. discriminate.
Qed.

Lemma collectSocial_keeps (hrefs : list string) (sm : gmap string string) :
  (∀ k v, sm !! k = Some v → socialSelector v = true ∧ platformOf v = k) →
  ∀ k v, collectSocial hrefs sm !! k = Some v → socialSelector v = true ∧ platformOf v = k.
Proof.
  unfold collectSocial. revert sm.
  induction hrefs as [|href hrefs IH]; intros sm Hsm; [exact Hsm|].
  cbn [List.filter]. destruct (socialSelector href) eqn:Hsel; [|by apply IH].
  cbn [fold_left]. apply IH. intros k v Hkv.
  destruct (decide (platformOf href = k)) as [<-|Hne].
  - rewrite lookup_insert_eq in Hkv. injection Hkv as <-. by split.
  - rewrite lookup_insert_ne in Hkv by exact Hne. by apply Hsm.
Qed.

Lemma collectForms_In (url : string) (forms : list FormEl) (acc : list ContactForm)
      (cf : ContactForm) :
  In cf (collectForms url forms acc) ↔
  In cf acc ∨
  ∃ form, In form forms ∧
          form_hasEmailField form = true ∧ form_hasMessageField form = true ∧
          cf = mkContactForm url (or_default (form_action form) "")
                             (or_default (form_method form) "POST").
Proof.
  unfold collectForms. revert acc.
  induction forms as [|form forms IH]; intros acc; cbn [fold_left In].
  - split; [auto | intros [|(? & [] & _)]; assumption].
  - rewrite IH.
    destruct (form_hasEmailField form && form_hasMessageField form) eqn:Hboth.
    + apply andb_true_iff in Hboth as [He Hm]. rewrite in_app_iff. cbn [In]. split.
      * intros [[Hin|[<-|[]]]|(f & Hf & Hfe & Hfm & ->)]; eauto 8.
      * intros [Hin|(f & [<-|Hf] & Hfe & Hfm & ->)]; eauto 8.
    + split.
      * intros [Hin|(f & Hf & Hfe & Hfm & ->)]; eauto 8.
      * intros [Hin|(f & [<-|Hf] & Hfe & Hfm & ->)]; eauto 8.
        rewrite Hfe, Hfm in Hboth. discriminate.
Qed.

Lemma or_default_nonempty (v : option string) (d : string) :
  d ≠ "" → or_default v d ≠ "".
Proof.
  intros Hd. unfold or_default. destruct v as [s|]; [|exact Hd].
  destruct (String.eqb_spec s ""); [exact Hd | assumption].
Qed.

(** A turn on a sub-page of [base] keeps the invariant of the crawl. *)
Lemma processPage_collected (base page : string) (contactInfo : ContactInfo) (w : World) :
  In page commonPages →
  Collected.collected base contactInfo →
  Collected.collected base
    (match processPage (base +:+ page) contactInfo w with
     | (Ok contactInfo', _) => contactInfo'
     | (Throw _, _) => contactInfo
     end).
Proof.
  intros Hpage Hinv.
  destruct (processPage_cases (base +:+ page) contactInfo w)
    as (contactInfo' & w' & -> & [->|(dom & emails & Hemails & ->)]); [exact Hinv|].
  destruct Hinv as (Hnodup & Hvalid & Hpn & Hpl & Hsocial & Hforms).
  assert (List.NoDup emails ∧
          List.Forall (fun email => validator_isEmail email = true) emails) as [_ Hev].
  { destruct Hemails as [->|[dom' ->]]; [split; constructor | apply emailsOfDom_valid]. }
  destruct (collectPhones_keeps (dom_text dom) _ Hpn Hpl) as [Hpn' Hpl'].
  unfold Collected.collected. cbn [ci_emails ci_phones ci_socialMedia ci_contactForms].
  split; [by apply set_add_all_NoDup|].
  split; [by apply set_add_all_Forall|].
  split; [exact Hpn'|]. split; [exact Hpl'|].
  split; [by apply collectSocial_keeps|].
  apply List.Forall_forall. intros cf Hcf.
  apply collectForms_In in Hcf as [Hcf|(form & _ & _ & _ & ->)].
  - by apply (proj1 (List.Forall_forall _ _) Hforms).
  - cbn [cf_method cf_url]. split; [by apply or_default_nonempty | by exists page].
Qed.

(** The crawl of a site returns, and what it returns satisfies the
    invariant. *)
Lemma extractContactInfo_collected (baseUrl : string) (w : World) :
  ∃ contactInfo w',
    extractContactInfo baseUrl w = (Ok contactInfo, w') ∧
    Collected.collected (WordPressDetector.ensureProtocol baseUrl) contactInfo.
Proof.
  unfold extractContactInfo.
  apply (processPages_keeps (Collected.collected (WordPressDetector.ensureProtocol baseUrl))).
  - intros url contactInfo w0 Hurl Hinv. apply in_map_iff in Hurl as (page & <- & Hpage).
    by apply processPage_collected.
  - unfold Collected.collected, noContactInfo.
    cbn [ci_emails ci_phones ci_socialMedia ci_contactForms].
    do 4 (split; [constructor|]). split; [|constructor].
    intros k v Hkv. by rewrite lookup_empty in Hkv.
Qed.

(** The record of a site is the collected data with its e-mail addresses
    filtered. *)
Lemma extractFromWordPressSite_collected (url : string) (w : World) :
  ∃ contactInfo record w',
    extractFromWordPressSite url w = (Ok record, w') ∧
    Collected.collected (WordPressDetector.ensureProtocol url) contactInfo ∧
    cr_url record = url ∧
    cr_emails record = filterEmails (ci_emails contactInfo) ∧
    cr_phones record = ci_phones contactInfo ∧
    cr_socialMedia record = ci_socialMedia contactInfo ∧
    cr_contactForms record = ci_contactForms contactInfo.
Proof.
  destruct (extractContactInfo_collected url w) as (contactInfo & w1 & Hrun & Hinv).
  unfold extractFromWordPressSite. unfold_monad. cbv zeta. rewrite Hrun.
  destruct (date_now w1) as [extractedAt w2].
  exists contactInfo. eexists _, _. split; [reflexivity|]. split; [exact Hinv|].
  by repeat split.
Qed.

End CollectedData.

(* ===================================================================== *)
(** * What the noise filter removes *)
(* ===================================================================== *)

Section ExcludedPrefixes.
Import EmailExtractor.

Lemma ascii_enumerated (c : ascii) : In c (List.map ascii_of_nat (seq 0 256)).
Proof.
  rewrite <- (ascii_nat_embedding c). apply in_map, in_seq.
  pose proof (nat_ascii_bounded c). lia.
Qed.

(** Under the flag [i] a small letter, a hyphen or an at sign of a pattern
    matches the code units that [toLowerCase] sends to it. *)
Lemma lit_matches_lower (pat d : ascii) :
  is_lower pat || one_of "-@" pat = true →
  lit_matches true pat d = Ascii.eqb (lower_char d) pat.
Proof.
  intros Hpat.
  assert (forallb
            (fun pat =>
               forallb
                 (fun d => implb (is_lower pat || one_of "-@" pat)
                                 (Bool.eqb (lit_matches true pat d)
                                           (Ascii.eqb (lower_char d) pat)))
                 (List.map ascii_of_nat (seq 0 256)))
            (List.map ascii_of_nat (seq 0 256)) = true) as Hall by (by vm_compute).
  rewrite forallb_forall in Hall. specialize (Hall pat (ascii_enumerated pat)).
  rewrite forallb_forall in Hall. specialize (Hall d (ascii_enumerated d)).
  rewrite Hpat in Hall. cbn [implb] in Hall. by apply Bool.eqb_prop in Hall.
Qed.

Lemma run_lits {A} (p s : string) (pos : nat) (k : nat → string → option A) :
  forallb (fun c => is_lower c || one_of "-@" c) (list_ascii_of_string p) = true →
  run true (lits p) pos s k =
  if startsWith (toLowerCase s) p
  then k (pos + String.length p) (drop (String.length p) s)
  else None.
Proof.
  revert s pos. induction p as [|c p IH]; intros s pos Hp.
  - cbn. by rewrite Nat.add_0_r.
  - cbn [list_ascii_of_string forallb] in Hp. apply andb_true_iff in Hp as [Hc Hp].
    assert (run true (lits (String c p)) pos s k =
            match s with
            | String d s' => if lit_matches true c d then run true (lits p) (S pos) s' k else None
            | EmptyString => None
            end) as ->.
    { destruct p; reflexivity. }
    destruct s as [|d s']; [reflexivity|].
    rewrite (lit_matches_lower c d Hc), (IH s' (S pos) Hp).
    cbn [toLowerCase startsWith String.length drop].
    destruct (Ascii.eqb (lower_char d) c); [|reflexivity].
    by rewrite Nat.add_succ_r.
Qed.

(** A pattern [/^p/i] tests for a beginning of the lower-cased subject. *)
Lemma test_bol_lits (p s : string) :
  forallb (fun c => is_lower c || one_of "-@" c) (list_ascii_of_string p) = true →
  test true (Cat Bol (lits p)) s = startsWith (toLowerCase s) p.
Proof.
  intros Hp. unfold test. rewrite test_from_unfold.
  change (match_here true (Cat Bol (lits p)) 0 s)
    with (run true (lits p) 0 s (fun pos' _ => Some (pos' - 0))).
  rewrite (run_lits p s 0 _ Hp).
  destruct (startsWith (toLowerCase s) p); [reflexivity|].
  destruct s; [reflexivity | apply test_from_bol_later].
Qed.

Lemma startsWith_app (s p q : string) :
  startsWith s (p +:+ q) = startsWith s p && startsWith (drop (String.length p) s) q.
Proof.
  revert s. induction p as [|c p IH]; intros s; [reflexivity|].
  rewrite append_cons. destruct s as [|d s]; cbn [startsWith String.length drop];
    [reflexivity|].
  destruct (Ascii.eqb d c); [apply IH | reflexivity].
Qed.

Lemma toLowerCase_drop (n : nat) (s : string) :
  toLowerCase (drop n s) = drop n (toLowerCase s).
Proof.
  revert s. induction n as [|n IH]; intros s; [reflexivity|].
  destruct s; [reflexivity | apply IH].
Qed.

(** [/^no-?reply/i] *)
Lemma test_no_reply (s : string) :
  test true (cats [ Bol; lits "no"; Opt (Lit "-"); lits "reply" ]) s =
  startsWith (toLowerCase s) "no-reply" || startsWith (toLowerCase s) "noreply".
Proof.
  unfold test. rewrite test_from_unfold.
  change (match_here true (cats [ Bol; lits "no"; Opt (Lit "-"); lits "reply" ]) 0 s)
    with (run true (lits "no") 0 s
            (fun pos' s' =>
               match run true (lits "-") pos' s'
                       (fun pos'' s'' => run true (lits "reply") pos'' s''
                                             (fun pos3 _ => Some (pos3 - 0))) with
               | Some x => Some x
               | None => run true (lits "reply") pos' s' (fun pos3 _ => Some (pos3 - 0))
               end)).
  rewrite (run_lits "no") by reflexivity.
  change "no-reply" with ("no" +:+ ("-" +:+ "reply")).
  change "noreply" with ("no" +:+ "reply").
  rewrite !startsWith_app. cbn [String.length].
  rewrite <- !toLowerCase_drop.
  change (cats [ Bol; lits "no"; Opt (Lit "-"); lits "reply" ])
    with (Cat Bol (cats [ lits "no"; Opt (Lit "-"); lits "reply" ])).
  destruct (startsWith (toLowerCase s) "no").
  - rewrite (run_lits "-") by reflexivity. rewrite !(run_lits "reply") by reflexivity.
    cbn [String.length andb].
    destruct (startsWith (toLowerCase (drop 2 s)) "-");
      destruct (startsWith (toLowerCase (drop 1 (drop 2 s))) "reply");
      destruct (startsWith (toLowerCase (drop 2 s)) "reply"); cbn [andb orb];
      try reflexivity; destruct s; try reflexivity; apply test_from_bol_later.
  - cbn [andb orb]. destruct s; [reflexivity | apply test_from_bol_later].
Qed.

(** The ten patterns of the filter, read as beginnings. *)
Lemma excluded_by_prefix (email : string) :
  existsb (fun pattern => test true pattern email) excludePatterns =
  existsb (startsWith (toLowerCase email)) Collected.excludedPrefixes.
Proof.
  unfold excludePatterns, Collected.excludedPrefixes. cbn [existsb].
  rewrite test_no_reply, !test_bol_lits by reflexivity.
  apply Bool.eq_true_iff_eq. rewrite !orb_true_iff. tauto.
Qed.

Lemma not_excluded_prefixes (email : string) :
  existsb (fun pattern => test true pattern email) excludePatterns = false →
  ∀ prefix, In prefix Collected.excludedPrefixes →
            startsWith (toLowerCase email) prefix = false.
Proof.
  rewrite excluded_by_prefix. intros Hno prefix Hin.
  destruct (startsWith (toLowerCase email) prefix) eqn:Hstart; [|reflexivity].
  rewrite <- Hno. symmetry. apply existsb_exists. by exists prefix.
Qed.

End ExcludedPrefixes.

(** X5. The noise filter keeps, in their order, exactly the addresses that
    do not begin, letter case aside, with one of [noreply], [no-reply],
    [donotreply], [support], [help], [info@example], [test@],
    [admin@example], [example@] and [@example]: an address is judged by
    its beginning only, whatever its domain. *)
Theorem filterEmails_removes_prefixes (emails : list string) :
  EmailExtractor.filterEmails emails =
  List.filter
    (fun email => negb (existsb (startsWith (toLowerCase email)) Collected.excludedPrefixes))
    emails.
Proof.
  unfold EmailExtractor.filterEmails. apply List.filter_ext. intros email.
  by rewrite excluded_by_prefix.
Qed.

(* ===================================================================== *)
(** * What a contact record holds *)
(* ===================================================================== *)

(** X6. An extraction never throws, and the addresses of the record it
    returns are pairwise distinct, each accepted by the syntax check, none
    beginning (letter case aside) with an excluded prefix. *)
Theorem record_emails_clean `{Platform} (url : string) (w : World) :
  ∃ record w',
    EmailExtractor.extractFromWordPressSite url w = (Ok record, w') ∧
    List.NoDup (cr_emails record) ∧
    List.Forall
      (fun email =>
         validator_isEmail email = true ∧
         ∀ prefix, In prefix Collected.excludedPrefixes →
                   startsWith (toLowerCase email) prefix = false)
      (cr_emails record).
Proof.
  destruct (extractFromWordPressSite_collected url w)
    as (contactInfo & record & w' & Hrun & Hinv & _ & Hemails & _).
  destruct Hinv as (Hnodup & Hvalid & _).
  exists record, w'. split; [exact Hrun|]. rewrite Hemails.
  unfold EmailExtractor.filterEmails.
  split; [by apply List.NoDup_filter|].
  apply List.Forall_forall. intros email Hin. apply filter_In in Hin as [Hin Hkeep].
  split; [by apply (proj1 (List.Forall_forall _ _) Hvalid)|].
  by apply not_excluded_prefixes, negb_true_iff.
Qed.

(** X7. The phone numbers of a record are pairwise distinct, and each has
    at least seven characters that are digits or plus signs. *)
Theorem record_phones_long `{Platform} (url : string) (w : World) :
  ∃ record w',
    EmailExtractor.extractFromWordPressSite url w = (Ok record, w') ∧
    List.NoDup (cr_phones record) ∧
    List.Forall (fun phone => 7 ≤ String.length (EmailExtractor.cleanPhone phone))
                (cr_phones record).
Proof.
  destruct (extractFromWordPressSite_collected url w)
    as (contactInfo & record & w' & Hrun & Hinv & _ & _ & Hphones & _).
  destruct Hinv as (_ & _ & Hnodup & Hlong & _).
  exists record, w'. by rewrite Hphones.
Qed.

(** X8. The social links of a record are filed under [facebook],
    [twitter], [linkedin] or [instagram] only, never under [other]: each
    is the target of an anchor the four-domain selector picks, filed under
    the platform its text is classified as. *)
Theorem record_social_platforms `{Platform} (url : string) (w : World) :
  ∃ record w',
    EmailExtractor.extractFromWordPressSite url w = (Ok record, w') ∧
    ∀ platform href,
      cr_socialMedia record !! platform = Some href →
      In platform [ "facebook"; "twitter"; "linkedin"; "instagram" ] ∧
      EmailExtractor.socialSelector href = true ∧
      EmailExtractor.platformOf href = platform.
Proof.
  destruct (extractFromWordPressSite_collected url w)
    as (contactInfo & record & w' & Hrun & Hinv & _ & _ & _ & Hsm & _).
  destruct Hinv as (_ & _ & _ & _ & Hsocial & _).
  exists record, w'. split; [exact Hrun|]. rewrite Hsm. intros platform href Hentry.
  destruct (Hsocial platform href Hentry) as [Hsel <-].
  split; [|by split]. cbn [In].
  destruct (platformOf_selected href Hsel) as [Hp | [Hp | [Hp | Hp]]]; rewrite Hp; tauto.
Qed.

(** X9. Every contact form of a record names the page it was found on,
    one of the thirteen pages of the site the crawl asks for, and a method
    that is not empty: [POST] when the form gives none. *)
Theorem record_forms_located `{Platform} (url : string) (w : World) :
  ∃ record w',
    EmailExtractor.extractFromWordPressSite url w = (Ok record, w') ∧
    List.length EmailExtractor.commonPages = 13 ∧
    List.Forall
      (fun form =>
         cf_method form ≠ "" ∧
         ∃ page, In page EmailExtractor.commonPages ∧
                 cf_url form = WordPressDetector.ensureProtocol url +:+ page)
      (cr_contactForms record).
Proof.
  destruct (extractFromWordPressSite_collected url w)
    as (contactInfo & record & w' & Hrun & Hinv & _ & _ & _ & _ & Hcf).
  destruct Hinv as (_ & _ & _ & _ & _ & Hforms).
  exists record, w'. by rewrite Hcf.
Qed.

(* ===================================================================== *)
(** * The outcomes of scraping a site *)
(* ===================================================================== *)

Section ScraperOutcomes.
Context `{Platform}.
Variable this : WordPressScraper.Options.
Import WordPressScraper Trace.

(** The three ways through [scrapeWebsite]. *)
Lemma scrapeWebsite_cases (url : string) (w : World) :
  (∃ message w1,
      WordPressDetector.isWordPressSite url w = (Throw message, w1) ∧
      scrapeWebsite this url w =
        (Ok (Some (errorSite url message (fst (date_now w1)))), snd (date_now w1))) ∨
  (∃ verdict w1,
      WordPressDetector.isWordPressSite url w = (Ok verdict, w1) ∧
      isWordPress verdict = false ∧ onlyWordPress this = true ∧
      scrapeWebsite this url w = (Ok None, w1)) ∨
  (∃ verdict w1 record w2,
      WordPressDetector.isWordPressSite url w = (Ok verdict, w1) ∧
      (isWordPress verdict = true ∨ onlyWordPress this = false) ∧
      EmailExtractor.extractFromWordPressSite url w1 = (Ok record, w2) ∧
      scrapeWebsite this url w = (Ok (Some (combine record verdict)), w2)).
Proof.
  unfold scrapeWebsite. unfold_monad.
  destruct (WordPressDetector.isWordPressSite url w) as [[verdict|message] w1].
  - right. destruct (negb (isWordPress verdict) && onlyWordPress this) eqn:Hskip.
    + left. apply andb_true_iff in Hskip as [Hnot Hon]. apply negb_true_iff in Hnot.
      by exists verdict, w1.
    + right. destruct (extractFromWordPressSite_spec url w1) as (record & w2 & Hrun & _).
      rewrite Hrun. exists verdict, w1, record, w2. split; [reflexivity|].
      split; [|by split].
      apply andb_false_iff in Hskip as [Hwp|Hoff]; [left | by right].
      by apply negb_false_iff.
  - left. exists message, w1. split; [reflexivity|]. by destruct (date_now w1).
Qed.

(** What holds of every record [scrapeWebsite] can return holds of every
    record of a batch. *)
Lemma scrapeBatch_loop_Forall (P : Site → Prop) (batchOptions : Options) (n i : nat)
      (rest : list string) (results : list Site) (w : World) :
  (∀ url w0 site w1, scrapeWebsite this url w0 = (Ok (Some site), w1) → P site) →
  ∃ sites w',
    scrapeBatch_loop this batchOptions n i rest results w = (Ok (results ++ sites), w') ∧
    Forall P sites.
Proof.
  intros HP. revert i results w. induction rest as [|url rest IH]; intros i results w.
  - exists [], w. cbn. unfold ret. by rewrite List.app_nil_r.
  - destruct (scrapeWebsite_spec this url w) as (result & w1 & Hscrape & _).
    rewrite (scrapeBatch_turn this _ _ _ _ _ _ _ _ _ Hscrape).
    destruct result as [site|].
    + destruct (IH (S i) (results ++ [site]) (afterTurn batchOptions n i w1))
        as (sites & w' & Hloop & Hall).
      exists (site :: sites), w'. rewrite Hloop, <- List.app_assoc.
      split; [reflexivity|]. constructor; [|exact Hall]. by apply (HP url w site w1).
    + destruct (IH (S i) results (afterTurn batchOptions n i w1))
        as (sites & w' & Hloop & Hall).
      by exists sites, w'.
Qed.

Lemma scrapeBatch_Forall (P : Site → Prop) (urls : list string) (options : BatchOptions)
      (w : World) :
  (∀ url w0 site w1, scrapeWebsite this url w0 = (Ok (Some site), w1) → P site) →
  ∃ results w', scrapeBatch this urls options w = (Ok results, w') ∧ Forall P results.
Proof. intros HP. unfold scrapeBatch. by apply (scrapeBatch_loop_Forall P _ _ _ _ []). Qed.

(** Every record of [scrapeWebsite] has the four collections. *)
Lemma scrapeWebsite_complete (url : string) (w0 w1 : World) (site : Site) :
  scrapeWebsite this url w0 = (Ok (Some site), w1) →
  site_emails site ≠ None ∧ site_phones site ≠ None ∧
  site_socialMedia site ≠ None ∧ site_contactForms site ≠ None ∧
  site_extractedAt site ≠ None.
Proof.
  intros Hrun.
  destruct (scrapeWebsite_cases url w0)
    as [(message & w2 & _ & Hcase)
       |[(verdict & w2 & _ & _ & _ & Hcase)
        |(verdict & w2 & record & w3 & _ & _ & _ & Hcase)]];
    rewrite Hcase in Hrun; try discriminate;
    injection Hrun as <- _; by repeat split.
Qed.

End ScraperOutcomes.

(** X10. [scrapeWebsite] never throws.  It returns [null] exactly when the
    scraper was built with [onlyWordPress] and detection succeeded with a
    negative verdict.  A site whose detection throws gets an error record
    (verdict [false], no addresses, the message of the detection), also
    under [onlyWordPress], and no extraction request is made for it; a
    record without [error] carries the verdict of a detection that
    succeeded. *)
Theorem scrapeWebsite_outcomes `{Platform} (this : WordPressScraper.Options)
        (url : string) (w : World) :
  ∃ result w',
    WordPressScraper.scrapeWebsite this url w = (Ok result, w') ∧
    (result = None ↔
     WordPressScraper.onlyWordPress this = true ∧
     ∃ verdict w1, WordPressDetector.isWordPressSite url w = (Ok verdict, w1) ∧
                   isWordPress verdict = false) ∧
    (∀ message w1,
        WordPressDetector.isWordPressSite url w = (Throw message, w1) →
        result = Some (WordPressScraper.errorSite url message (fst (date_now w1))) ∧
        w' = snd (date_now w1)) ∧
    (∀ site, result = Some site → site_error site = None →
             ∃ verdict w1,
               WordPressDetector.isWordPressSite url w = (Ok verdict, w1) ∧
               site_isWordPress site = JsBool (isWordPress verdict) ∧
               site_indicator site = indicator verdict).
Proof.
  destruct (scrapeWebsite_cases this url w)
    as [(message & w1 & Hdetect & Hcase)
       |[(verdict & w1 & Hdetect & Hnot & Hon & Hcase)
        |(verdict & w1 & record & w2 & Hdetect & Hkeep & Hextract & Hcase)]];
    rewrite Hcase; eexists _, _; (split; [reflexivity|]).
  - split; [|split].
    + split; [discriminate|]. intros (_ & verdict & w2 & Hok & _). congruence.
    + intros message' w1' Hthrow. rewrite Hdetect in Hthrow.
      by injection Hthrow as <- <-.
    + intros site [= <-]. discriminate.
  - split; [|split].
    + split; [|reflexivity]. intros _. split; [exact Hon|]. by exists verdict, w1.
    + intros message w2 Hthrow. congruence.
    + discriminate.
  - split; [|split].
    + split; [discriminate|]. intros (Hon & verdict' & w1' & Hok & Hnot).
      rewrite Hdetect in Hok. injection Hok as <- <-.
      destruct Hkeep; congruence.
    + intros message w1' Hthrow. congruence.
    + intros site [= <-] _. by exists verdict, w1.
Qed.

Section OnlyWordPress.
Context `{Platform}.
Variable this : WordPressScraper.Options.
Hypothesis only : WordPressScraper.onlyWordPress this = true.
Import WordPressScraper Trace.

(** Under [onlyWordPress] a turn adds to the results what [reportOf] says
    of its detection. *)
Lemma scrapeBatch_loop_reports (batchOptions : Options) (n i : nat) (rest : list string)
      (results : list Site) (w : World) :
  ∃ sites w',
    scrapeBatch_loop this batchOptions n i rest results w = (Ok (results ++ sites), w') ∧
    List.map (fun site => (site_url site, site_isWordPress site, site_error site)) sites =
    List.concat (zip_with reportOf rest (batchDetections this batchOptions n i rest w)).
Proof.
  revert i results w. induction rest as [|url rest IH]; intros i results w.
  - exists [], w. cbn. unfold ret. by rewrite List.app_nil_r.
  - cbn [batchDetections zip_with List.concat].
    destruct (scrapeWebsite_cases this url w)
      as [(message & w1 & Hdetect & Hcase)
         |[(verdict & w1 & Hdetect & Hnot & _ & Hcase)
          |(verdict & w1 & record & w2 & Hdetect & Hkeep & Hextract & Hcase)]];
      rewrite (scrapeBatch_turn this _ _ _ _ _ _ _ _ _ Hcase), Hcase, Hdetect; cbn [fst snd].
    + destruct (IH (S i) (results ++ [errorSite url message (fst (date_now w1))])
                  (afterTurn batchOptions n i (snd (date_now w1))))
        as (sites & w' & Hloop & Hreport).
      exists (errorSite url message (fst (date_now w1)) :: sites), w'.
      rewrite Hloop, <- List.app_assoc. split; [reflexivity|].
      cbn [List.map reportOf app]. by rewrite Hreport.
    + destruct (IH (S i) results (afterTurn batchOptions n i w1))
        as (sites & w' & Hloop & Hreport).
      exists sites, w'. split; [exact Hloop|].
      cbn [reportOf]. rewrite Hnot. exact Hreport.
    + destruct (IH (S i) (results ++ [combine record verdict])
                  (afterTurn batchOptions n i w2))
        as (sites & w' & Hloop & Hreport).
      assert (isWordPress verdict = true) as Hwp by (destruct Hkeep; congruence).
      assert (cr_url record = url) as Hurl.
      { destruct (extractFromWordPressSite_spec url w1) as (record' & w2' & Hrun & Hurl & _).
        rewrite Hextract in Hrun. by injection Hrun as <- _. }
      exists (combine record verdict :: sites), w'.
      rewrite Hloop, <- List.app_assoc. split; [reflexivity|].
      cbn [List.map reportOf app combine site_url site_isWordPress site_error].
      by rewrite Hwp, Hurl, Hreport.
Qed.

Lemma reportOf_thrown (urls : list string) (outcomes : list (Result Verdict))
      (i : nat) (url message : string) :
  urls !! i = Some url →
  outcomes !! i = Some (Throw message) →
  In (url, JsBool false, Some message) (List.concat (zip_with reportOf urls outcomes)).
Proof.
  revert outcomes i. induction urls as [|u urls IH]; intros outcomes i Hurl Hout;
    [discriminate|].
  destruct outcomes as [|outcome outcomes]; [discriminate|].
  cbn [zip_with List.concat]. apply in_or_app. destruct i as [|i].
  - injection Hurl as ->. injection Hout as ->. left. by left.
  - right. by apply (IH outcomes i).
Qed.

End OnlyWordPress.

(** X11. Under [onlyWordPress] a batch reports, turn by turn and in order,
    exactly this: a record with the verdict [true] for a URL whose
    detection is positive, nothing for a URL whose detection is negative,
    and the error record (verdict [false], no addresses, the message) for
    a URL whose detection throws.  So a site that cannot be reached is
    reported, not skipped: every URL whose detection throws has its error
    record among the results. *)
Theorem scrapeBatch_only_wordpress_records `{Platform} (this : WordPressScraper.Options)
        (urls : list string) (options : WordPressScraper.BatchOptions) (w : World) :
  WordPressScraper.onlyWordPress this = true →
  let detections :=
    Trace.batchDetections this (WordPressScraper.mergeOptions this options)
                          (List.length urls) 0 urls w in
  ∃ results w',
    WordPressScraper.scrapeBatch this urls options w = (Ok results, w') ∧
    List.map (fun site => (site_url site, site_isWordPress site, site_error site)) results =
      List.concat (zip_with Trace.reportOf urls detections) ∧
    (∀ i url message,
        urls !! i = Some url →
        detections !! i = Some (Throw message) →
        ∃ site, In site results ∧ site_url site = url ∧
                site_isWordPress site = JsBool false ∧
                site_emails site = Some [] ∧ site_error site = Some message) ∧
    Forall (fun site =>
              (site_isWordPress site = JsBool true ∧ site_error site = None) ∨
              (site_isWordPress site = JsBool false ∧ site_emails site = Some [] ∧
               ∃ message, site_error site = Some message))
           results.
Proof.
  intros Hon detections.
  assert (∃ results w',
             WordPressScraper.scrapeBatch this urls options w = (Ok results, w') ∧
             Forall (fun site =>
                       (site_isWordPress site = JsBool true ∧ site_error site = None) ∨
                       (site_isWordPress site = JsBool false ∧ site_emails site = Some [] ∧
                        ∃ message, site_error site = Some message))
                    results) as (results & w' & Hrun & Hshape).
  { apply scrapeBatch_Forall. intros url w0 site w1 Hsite.
    destruct (scrapeWebsite_cases this url w0)
      as [(message & w2 & _ & Hcase)
         |[(verdict & w2 & _ & _ & _ & Hcase)
          |(verdict & w2 & record & w3 & _ & Hkeep & _ & Hcase)]];
      rewrite Hcase in Hsite; try discriminate; injection Hsite as <- _.
    - right. split; [reflexivity|]. split; [reflexivity|]. by exists message.
    - left. destruct Hkeep as [Hwp|Hoff]; [|congruence].
      cbn [WordPressScraper.combine site_isWordPress site_error]. by rewrite Hwp. }
  destruct (scrapeBatch_loop_reports this Hon (WordPressScraper.mergeOptions this options)
              (List.length urls) 0 urls [] w) as (sites & w'' & Hloop & Hreport).
  unfold WordPressScraper.scrapeBatch in Hrun. cbv zeta in Hrun.
  rewrite Hloop in Hrun. cbn [app] in Hrun. injection Hrun as <- <-.
  exists sites, w''. split; [exact Hloop|]. split; [exact Hreport|]. split; [|exact Hshape].
  intros i url message Hurl Hthrown.
  pose proof (reportOf_thrown urls detections i url message Hurl Hthrown) as Hin.
  fold detections in Hreport. rewrite <- Hreport in Hin.
  apply in_map_iff in Hin as (site & Hsite & Hin). exists site. split; [exact Hin|].
  injection Hsite as Hu Hv He. split; [exact Hu|]. split; [exact Hv|]. split; [|exact He].
  rewrite List.Forall_forall in Hshape.
  destruct (Hshape site Hin) as [[Htrue _]|(_ & Hemails & _)]; [congruence | exact Hemails].
Qed.

(** [scrapeBatch_only_wordpress_records] on the static web: a site on the
    platform, one that is not, and one that does not answer. *)
Lemma scrapeBatch_only_wordpress_records_witness :
  ∃ results w',
    WordPressScraper.scrapeBatch (H := Fixture.web)
      (WordPressScraper.mkOptions true 1000 true)
      ["shop.test"; "plain.test"; "down.test"] WordPressScraper.noBatchOptions [] =
      (Ok results, w') ∧
    ∃ site, In site results ∧ site_url site = "down.test" ∧
            site_isWordPress site = JsBool false ∧
            site_emails site = Some [] ∧
            site_error site =
              Some "Failed to check WordPress status for https://down.test: Request failed with status code 404".
Proof.
  destruct (scrapeBatch_only_wordpress_records (H := Fixture.web)
              (WordPressScraper.mkOptions true 1000 true)
              ["shop.test"; "plain.test"; "down.test"] WordPressScraper.noBatchOptions []
              eq_refl) as (results & w' & Hrun & _ & Hthrown & _).
  exists results, w'. split; [exact Hrun|].
  apply (Hthrown 2 "down.test"); [reflexivity | by vm_compute].
Defined.

(** The run behind the witness: the plain site is skipped, the site that
    does not answer is reported with the message of the detection. *)
Example scrapeBatch_reports_unreachable :
  match fst (WordPressScraper.scrapeBatch (H := Fixture.web)
               (WordPressScraper.mkOptions true 1000 true)
               ["shop.test"; "plain.test"; "down.test"]
               WordPressScraper.noBatchOptions []) with
  | Ok results => List.map (fun site => (site_url site, site_error site)) results
  | Throw _ => []
  end =
  [ ("shop.test", None);
    ("down.test",
     Some "Failed to check WordPress status for https://down.test: Request failed with status code 404") ].
Proof. vm_compute. reflexivity. Qed.

(* ===================================================================== *)
(** * The pipeline, stage by stage *)
(* ===================================================================== *)

Section PipelineStages.
Context `{Platform}.
Variable this : WordPressProspector.Options.
Variable scraper : WordPressScraper.Options.
Import WordPressProspector.

Lemma map_url_nil (sites : list Site) : List.map site_url sites = [] → sites = [].
Proof. by destruct sites. Qed.

Lemma map_url_notValidated (urls : list string) :
  List.map site_url (List.map notValidated urls) = urls.
Proof. induction urls as [|url urls IH]; [reflexivity|]. cbn. by rewrite IH. Qed.

(** A batch as the pipeline runs it: the records have a boolean verdict
    and their collections. *)
Lemma scrapeBatch_pipeline (urls : list string) (options : WordPressScraper.BatchOptions)
      (w : World) :
  ∃ results w',
    WordPressScraper.scrapeBatch scraper urls options w = (Ok results, w') ∧
    Forall Trace.booleanVerdict results ∧
    Forall (fun site => site_emails site ≠ None) results ∧
    (WordPressScraper.onlyWordPress scraper = false → List.map site_url results = urls).
Proof.
  destruct (scrapeBatch_spec scraper urls options w) as (results & w' & Hrun & _ & Hbool & Hurls).
  destruct (scrapeBatch_Forall scraper (fun site => site_emails site ≠ None) urls options w)
    as (results' & w'' & Hrun' & Hcomplete).
  { intros url w0 site w1 Hsite. by destruct (scrapeWebsite_complete scraper url w0 w1 site Hsite). }
  rewrite Hrun in Hrun'. injection Hrun' as <- <-.
  by exists results, w'.
Qed.

(** What the stages after a successful search leave in the pipeline. *)
Lemma validateAndExtract_spec (found : list SearchResult) (w : World) :
  ∃ pipeline w',
    validateAndExtract this scraper found w = (Ok pipeline, w') ∧
    searchResults pipeline = found ∧
    summary pipeline = Some (generateSummary pipeline) ∧
    Forall Trace.booleanVerdict (contactData pipeline) ∧
    Forall (fun site => site_emails site ≠ None) (contactData pipeline) ∧
    (validateWordPress this = true →
     Forall (fun site => site_isWordPress site = JsBool true) (wordpressSites pipeline)) ∧
    (validateWordPress this = false →
     wordpressSites pipeline = List.map notValidated (GoogleSearcher.extractDomains found)) ∧
    (extractEmails this = false → contactData pipeline = []) ∧
    (extractEmails this = true → WordPressScraper.onlyWordPress scraper = false →
     List.map site_url (contactData pipeline) = List.map site_url (wordpressSites pipeline)).
Proof.
  unfold validateAndExtract.
  set (urls := GoogleSearcher.extractDomains found).
  assert (∀ sites validatedSites w1,
             List.map site_url sites = validatedSites →
             (validateWordPress this = true →
              Forall (fun site => site_isWordPress site = JsBool true) sites) →
             (validateWordPress this = false → sites = List.map notValidated urls) →
             ∃ pipeline w',
               (let* contactResults :=
                  if extractEmails this && Nat.ltb 0 (List.length validatedSites)
                  then WordPressScraper.scrapeBatch scraper validatedSites
                         (WordPressScraper.mkBatchOptions None (Some 2000%Z) (Some false))
                  else ret [] in
                ret (mkPipeline found sites contactResults
                       (Some (generateSummary (mkPipeline found sites contactResults None)))))
                 w1 = (Ok pipeline, w') ∧
               searchResults pipeline = found ∧
               summary pipeline = Some (generateSummary pipeline) ∧
               Forall Trace.booleanVerdict (contactData pipeline) ∧
               Forall (fun site => site_emails site ≠ None) (contactData pipeline) ∧
               (validateWordPress this = true →
                Forall (fun site => site_isWordPress site = JsBool true)
                       (wordpressSites pipeline)) ∧
               (validateWordPress this = false →
                wordpressSites pipeline = List.map notValidated urls) ∧
               (extractEmails this = false → contactData pipeline = []) ∧
               (extractEmails this = true → WordPressScraper.onlyWordPress scraper = false →
                List.map site_url (contactData pipeline) =
                List.map site_url (wordpressSites pipeline))) as Hsecond.
  { intros sites validatedSites w1 Hurls Hon Hoff. unfold bind, ret.
    destruct (extractEmails this) eqn:Hextract; cbn [andb].
    - destruct (Nat.ltb_spec 0 (List.length validatedSites)) as [Hsome|Hnone].
      + destruct (scrapeBatch_pipeline validatedSites
                    (WordPressScraper.mkBatchOptions None (Some 2000%Z) (Some false)) w1)
          as (contact & w' & Hrun & Hbool & Hcomplete & Hcontact).
        rewrite Hrun. eexists _, _. split; [reflexivity|].
        cbn [searchResults summary contactData wordpressSites].
        do 6 (split; [done|]). split; [discriminate|].
        intros _ Honly. by rewrite (Hcontact Honly).
      + eexists _, _. split; [reflexivity|].
        cbn [searchResults summary contactData wordpressSites].
        do 2 (split; [done|]). do 2 (split; [constructor|]). do 2 (split; [done|]).
        split; [discriminate|]. intros _ _.
        assert (validatedSites = []) as -> by (destruct validatedSites; [done | cbn in Hnone; lia]).
        by rewrite Hurls.
    - eexists _, _. split; [reflexivity|].
      cbn [searchResults summary contactData wordpressSites].
      do 2 (split; [done|]). do 2 (split; [constructor|]). do 2 (split; [done|]).
      split; [done | discriminate]. }
  unfold bind at 1. destruct (validateWordPress this) eqn:Hvalidate.
  - unfold bind at 1.
    destruct (scrapeBatch_pipeline urls
                (WordPressScraper.mkBatchOptions None (Some 1500%Z) (Some false)) w)
      as (detection & w1 & Hrun & Hbool & _).
    rewrite Hrun. unfold ret at 1.
    apply Hsecond; [reflexivity | | discriminate].
    intros _. by apply filter_truthy_confirmed.
  - unfold ret at 1. apply Hsecond; [apply map_url_notValidated | discriminate | done].
Qed.

Lemma findAndScrape_search_throws (w w1 : World) (message : string) :
  searcher_findWordPressSites w = (Throw message, w1) →
  findAndScrapeWordPressSites this scraper w = (Throw message, w1).
Proof.
  intros Hsearch. unfold findAndScrapeWordPressSites, try_catch, bind, throw.
  by rewrite Hsearch.
Qed.

(** The pipeline after a search that returned. *)
Lemma findAndScrape_after_search (w w1 : World) (found : list SearchResult) :
  searcher_findWordPressSites w = (Ok found, w1) →
  findAndScrapeWordPressSites this scraper w =
  if Nat.eqb (List.length found) 0
  then (Ok (mkPipeline found [] [] None), w1)
  else validateAndExtract this scraper found w1.
Proof.
  intros Hsearch. unfold findAndScrapeWordPressSites, try_catch, bind. rewrite Hsearch.
  destruct (Nat.eqb (List.length found) 0); [reflexivity|].
  destruct (validateAndExtract_spec found w1) as (pipeline & w' & -> & _). reflexivity.
Qed.

End PipelineStages.

(** X12. The pipeline throws exactly when the search throws, with the
    message of the search and nothing else done: no failure of a site can
    make it throw.  When the search finds nothing the pipeline returns at
    once, with empty arrays and no summary. *)
Theorem pipeline_throws_iff_search_throws `{Platform}
        (this : WordPressProspector.Options) (scraper : WordPressScraper.Options)
        (w : World) :
  (∀ message w',
      WordPressProspector.findAndScrapeWordPressSites this scraper w = (Throw message, w') ↔
      searcher_findWordPressSites w = (Throw message, w')) ∧
  (∀ w1, searcher_findWordPressSites w = (Ok [], w1) →
         WordPressProspector.findAndScrapeWordPressSites this scraper w =
         (Ok (WordPressProspector.mkPipeline [] [] [] None), w1)).
Proof.
  split.
  - intros message w'.
    destruct (searcher_findWordPressSites w) as [[found|message0] w1] eqn:Hsearch.
    + rewrite (findAndScrape_after_search this scraper w w1 found Hsearch).
      destruct (Nat.eqb (List.length found) 0); [split; discriminate|].
      destruct (validateAndExtract_spec this scraper found w1) as (pipeline & w2 & -> & _).
      split; discriminate.
    + rewrite (findAndScrape_search_throws this scraper w w1 message0 Hsearch).
      split; intros [= -> ->]; reflexivity.
  - intros w1 Hsearch. by rewrite (findAndScrape_after_search this scraper w w1 [] Hsearch).
Qed.

(** X13. With validation on and a search that returns, the pipeline
    returns; [wordpressSites] only holds records whose verdict is the
    boolean [true], so a summary counts the same sites as validated and as
    confirmed, whatever the search found; and when extraction is on and
    the scraper was built without [onlyWordPress], [contactData] has one
    record per validated site, in order. *)
Theorem pipeline_validated_sites `{Platform}
        (this : WordPressProspector.Options) (scraper : WordPressScraper.Options)
        (w w1 : World) (found : list SearchResult) :
  WordPressProspector.validateWordPress this = true →
  searcher_findWordPressSites w = (Ok found, w1) →
  ∃ pipeline w',
    WordPressProspector.findAndScrapeWordPressSites this scraper w = (Ok pipeline, w') ∧
    Forall (fun site => site_isWordPress site = JsBool true)
           (WordPressProspector.wordpressSites pipeline) ∧
    WordPressProspector.confirmedWordPressSites (WordPressProspector.generateSummary pipeline) =
    WordPressProspector.sitesValidated (WordPressProspector.generateSummary pipeline) ∧
    (WordPressProspector.extractEmails this = true →
     WordPressScraper.onlyWordPress scraper = false →
     List.map site_url (WordPressProspector.contactData pipeline) =
     List.map site_url (WordPressProspector.wordpressSites pipeline)).
Proof.
  intros Hvalidate Hsearch.
  assert (∀ sites,
             Forall (fun site => site_isWordPress site = JsBool true) sites →
             List.filter (fun site => strict_eq_true (site_isWordPress site)) sites = sites)
    as Hall.
  { induction 1 as [|site sites Hsite _ IH]; [reflexivity|].
    cbn [List.filter]. by rewrite Hsite, IH. }
  rewrite (findAndScrape_after_search this scraper w w1 found Hsearch).
  destruct (Nat.eqb (List.length found) 0).
  - eexists _, _. split; [reflexivity|]. by repeat split.
  - destruct (validateAndExtract_spec this scraper found w1)
      as (pipeline & w' & Hrun & _ & _ & _ & _ & Hon & _ & _ & Hcontact).
    exists pipeline, w'. split; [exact Hrun|]. split; [by apply Hon|].
    split; [|exact Hcontact].
    rewrite confirmed_generateSummary. by rewrite (Hall _ (Hon Hvalidate)).
Qed.

(** [pipeline_validated_sites] on the static web: of the two sites found,
    the one on the platform is kept. *)
Lemma pipeline_validated_sites_witness :
  ∃ pipeline w',
    WordPressProspector.findAndScrapeWordPressSites (H := Fixture.web)
      (WordPressProspector.mkOptions true true)
      (WordPressScraper.mkOptions true 1000 false) [] = (Ok pipeline, w') ∧
    Forall (fun site => site_isWordPress site = JsBool true)
           (WordPressProspector.wordpressSites pipeline) ∧
    List.map site_url (WordPressProspector.contactData pipeline) =
    List.map site_url (WordPressProspector.wordpressSites pipeline).
Proof.
  destruct (pipeline_validated_sites (H := Fixture.web)
              (WordPressProspector.mkOptions true true)
              (WordPressScraper.mkOptions true 1000 false)
              [] [] Fixture.found eq_refl eq_refl)
    as (pipeline & w' & Hrun & Hsites & _ & Hcontact).
  exists pipeline, w'. split; [exact Hrun|]. split; [exact Hsites|].
  exact (Hcontact eq_refl eq_refl).
Defined.

(* ===================================================================== *)
(** * Counting addresses: the summary and the exports *)
(* ===================================================================== *)

Section Counting.
Import WordPressProspector.

Lemma fold_emailCount (data : list Site) (a : nat) :
  fold_left (fun sum site => sum + emailCount site) data a =
  a + fold_left (fun sum site => sum + emailCount site) data 0.
Proof.
  revert a. induction data as [|site data IH]; intros a; cbn [fold_left]; [lia|].
  rewrite (IH (a + emailCount site)), (IH (0 + emailCount site)). lia.
Qed.

Lemma hasEmails_emailCount (site : Site) : hasEmails site = true ↔ 0 < emailCount site.
Proof.
  unfold hasEmails, emailCount. destruct (site_emails site) as [emails|].
  - apply Nat.ltb_lt.
  - split; [discriminate | lia].
Qed.

Lemma sitesWithEmails_le_total (data : list Site) :
  List.length (List.filter hasEmails data) ≤
  fold_left (fun sum site => sum + emailCount site) data 0.
Proof.
  induction data as [|site data IH]; [reflexivity|].
  cbn [List.filter fold_left]. rewrite fold_emailCount.
  destruct (hasEmails site) eqn:Hsite; cbn [List.length]; [|lia].
  apply hasEmails_emailCount in Hsite. lia.
Qed.

Lemma set_add_length (x : string) (s : list string) :
  List.length s ≤ List.length (set_add x s) ≤ S (List.length s).
Proof.
  unfold set_add. destruct (existsb (String.eqb x) s); [lia|].
  rewrite List.length_app. cbn. lia.
Qed.

Lemma set_add_all_length (xs s : list string) :
  List.length s ≤ List.length (set_add_all xs s) ≤ List.length s + List.length xs.
Proof.
  unfold set_add_all. revert s. induction xs as [|x xs IH]; intros s; cbn [fold_left].
  - cbn. lia.
  - pose proof (IH (set_add x s)). pose proof (set_add_length x s). cbn [List.length]. lia.
Qed.

Lemma set_add_all_nonempty (xs s : list string) :
  xs ≠ [] → set_add_all xs s ≠ [].
Proof.
  destruct xs as [|x xs]; [done|]. intros _ Hempty.
  pose proof (set_add_all_In (x :: xs) s x) as Hin. rewrite Hempty in Hin.
  apply Hin. left. by left.
Qed.

(** The set of all addresses of the data, from any set to start with. *)
Lemma allEmails_from_length (data : list Site) (acc : list string) :
  let all :=
    fold_left
      (fun all site =>
         match site_emails site with
         | Some emails => set_add_all emails all
         | None => all
         end) data acc in
  List.length acc ≤ List.length all ∧
  List.length all ≤
  List.length acc + fold_left (fun sum site => sum + emailCount site) data 0.
Proof.
  revert acc. induction data as [|site data IH]; intros acc; cbn [fold_left].
  - cbn. lia.
  - rewrite fold_emailCount.
    destruct (site_emails site) as [emails|] eqn:Hsite.
    + assert (emailCount site = List.length emails) as Hcount
          by (unfold emailCount; by rewrite Hsite).
      pose proof (IH (set_add_all emails acc)) as Hrest. cbv zeta in Hrest.
      pose proof (set_add_all_length emails acc). cbv zeta. lia.
    + pose proof (IH acc) as Hrest. cbv zeta in Hrest. cbv zeta. lia.
Qed.

Lemma allEmails_from_In (data : list Site) (acc : list string) (email : string) :
  In email
     (fold_left
        (fun all site =>
           match site_emails site with
           | Some emails => set_add_all emails all
           | None => all
           end) data acc) ↔
  In email acc ∨
  ∃ site emails, In site data ∧ site_emails site = Some emails ∧ In email emails.
Proof.
  revert acc. induction data as [|site data IH]; intros acc; cbn [fold_left].
  - split; [auto | intros [|(? & ? & [] & _)]; assumption].
  - rewrite IH. destruct (site_emails site) as [emails|] eqn:Hsite.
    + rewrite set_add_all_In. split.
      * intros [[Hin|Hin]|(s & es & Hs & Hes & Hin)]; eauto 8 using in_eq, in_cons.
      * intros [Hin|(s & es & [<-|Hs] & Hes & Hin)]; eauto 8.
        rewrite Hsite in Hes. injection Hes as <-. auto.
    + split.
      * intros [Hin|(s & es & Hs & Hes & Hin)]; eauto 8 using in_cons.
      * intros [Hin|(s & es & [<-|Hs] & Hes & Hin)]; eauto 8. congruence.
Qed.

Lemma allEmails_from_NoDup (data : list Site) (acc : list string) :
  List.NoDup acc →
  List.NoDup
    (fold_left
       (fun all site =>
          match site_emails site with
          | Some emails => set_add_all emails all
          | None => all
          end) data acc).
Proof.
  revert acc. induction data as [|site data IH]; intros acc Hacc; [exact Hacc|].
  cbn [fold_left]. apply IH. destruct (site_emails site); [|exact Hacc].
  by apply set_add_all_NoDup.
Qed.

(** The counts of a summary, in terms of the data. *)
Lemma uniqueEmails_generateSummary (pipeline : Pipeline) :
  uniqueEmails (generateSummary pipeline) =
  List.length (Exports.allEmails (contactData pipeline)).
Proof. reflexivity. Qed.

Lemma totalEmails_generateSummary (pipeline : Pipeline) :
  totalEmails (generateSummary pipeline) =
  fold_left (fun sum site => sum + emailCount site) (contactData pipeline) 0.
Proof. reflexivity. Qed.

Lemma sitesWithContactInfo_generateSummary (pipeline : Pipeline) :
  sitesWithContactInfo (generateSummary pipeline) =
  List.length (List.filter hasEmails (contactData pipeline)).
Proof. reflexivity. Qed.

Lemma avgEmailsPerSite_generateSummary (pipeline : Pipeline) :
  avgEmailsPerSite (generateSummary pipeline) =
  if Nat.ltb 0 (sitesWithContactInfo (generateSummary pipeline))
  then JsString (ratio (totalEmails (generateSummary pipeline))
                       (sitesWithContactInfo (generateSummary pipeline)))
  else zero.
Proof. reflexivity. Qed.

Lemma total_zero_no_site (data : list Site) :
  fold_left (fun sum site => sum + emailCount site) data 0 = 0 →
  List.filter hasEmails data = [].
Proof.
  intros Hzero. pose proof (sitesWithEmails_le_total data) as Hle. rewrite Hzero in Hle.
  destruct (List.filter hasEmails data); [reflexivity | cbn in Hle; lia].
Qed.

Lemma total_positive_unique (data : list Site) :
  0 < fold_left (fun sum site => sum + emailCount site) data 0 →
  0 < List.length (Exports.allEmails data).
Proof.
  unfold Exports.allEmails. generalize (@nil string) as acc.
  induction data as [|site data IH]; intros acc; cbn [fold_left]; [lia|].
  rewrite fold_emailCount. intros Hpos.
  destruct (site_emails site) as [[|email emails]|] eqn:Hsite.
  - assert (emailCount site = 0) as Hcount by (unfold emailCount; by rewrite Hsite).
    apply IH. lia.
  - pose proof (allEmails_from_length data (set_add_all (email :: emails) acc)) as [Hge _].
    cbv zeta in Hge.
    assert (0 < List.length (set_add_all (email :: emails) acc)).
    { destruct (set_add_all (email :: emails) acc) eqn:Hset; [|cbn; lia].
      by destruct (set_add_all_nonempty (email :: emails) acc). }
    lia.
  - assert (emailCount site = 0) as Hcount by (unfold emailCount; by rewrite Hsite).
    apply IH. lia.
Qed.

End Counting.

(** X14. The counts of a summary are consistent for every pipeline state:
    no more confirmed sites than validated ones; no more sites with
    addresses than records, nor than addresses; no more distinct addresses
    than addresses; there is a distinct address as soon as there is an
    address; and without a site with addresses the average is the number
    0, no division taking place. *)
Theorem generateSummary_bounds (pipeline : WordPressProspector.Pipeline) :
  let summary := WordPressProspector.generateSummary pipeline in
  WordPressProspector.confirmedWordPressSites summary ≤
    WordPressProspector.sitesValidated summary ∧
  WordPressProspector.sitesWithContactInfo summary ≤
    List.length (WordPressProspector.contactData pipeline) ∧
  WordPressProspector.sitesWithContactInfo summary ≤ WordPressProspector.totalEmails summary ∧
  WordPressProspector.uniqueEmails summary ≤ WordPressProspector.totalEmails summary ∧
  (WordPressProspector.uniqueEmails summary = 0 ↔
   WordPressProspector.totalEmails summary = 0) ∧
  (WordPressProspector.sitesWithContactInfo summary = 0 →
   WordPressProspector.avgEmailsPerSite summary = WordPressProspector.zero).
Proof.
  cbv zeta.
  rewrite confirmed_generateSummary, uniqueEmails_generateSummary,
    totalEmails_generateSummary, sitesWithContactInfo_generateSummary,
    avgEmailsPerSite_generateSummary, sitesWithContactInfo_generateSummary.
  split; [apply filter_length_le|]. split; [apply filter_length_le|].
  split; [apply sitesWithEmails_le_total|].
  pose proof (allEmails_from_length (WordPressProspector.contactData pipeline) []) as [_ Hle].
  cbv zeta in Hle. cbn [List.length] in Hle.
  split; [exact Hle|]. split.
  - split.
    + intros Hnone.
      pose proof (total_positive_unique (WordPressProspector.contactData pipeline)). lia.
    + unfold Exports.allEmails. lia.
  - by intros ->.
Qed.

Section ExportFacts.
Import WordPressProspector DataExporter.

Lemma totalEmailsFound_from (data : list Site) (total : option nat) :
  fold_left
    (fun total site =>
       match total, site_emails site with
       | Some t, Some emails => Some (t + List.length emails)
       | _, _ => None
       end) data total =
  match total with
  | Some t =>
      if forallb (fun site => bool_decide (site_emails site ≠ None)) data
      then Some (t + fold_left (fun sum site => sum + emailCount site) data 0)
      else None
  | None => None
  end.
Proof.
  revert total. induction data as [|site data IH]; intros total; cbn [fold_left forallb].
  - destruct total; [f_equal; lia | reflexivity].
  - rewrite IH, (fold_emailCount data (0 + emailCount site)).
    destruct total as [t|]; [|reflexivity].
    destruct (site_emails site) as [emails|] eqn:Hsite; cbn [andb].
    + assert (emailCount site = List.length emails) as ->
          by (unfold emailCount; by rewrite Hsite).
      rewrite bool_decide_eq_true_2 by discriminate. cbn [andb].
      destruct (forallb _ data); [f_equal; lia | reflexivity].
    + rewrite bool_decide_eq_false_2 by (intros Hne; by apply Hne). reflexivity.
Qed.


End ExportFacts.

(** X15. The total the JSON export computes is defined exactly when every
    record has its array of addresses (otherwise reading its length
    throws), and it is then the sum of their lengths, the [totalEmails] of
    a summary over the same data. *)
Theorem totalEmailsFound_defined (data : list Site) :
  (Exports.totalEmailsFound data = None ↔
   ∃ site, In site data ∧ site_emails site = None) ∧
  (∀ total, Exports.totalEmailsFound data = Some total →
            ∀ found sites summary,
              total = WordPressProspector.totalEmails
                        (WordPressProspector.generateSummary
                           (WordPressProspector.mkPipeline found sites data summary))).
Proof.
  unfold Exports.totalEmailsFound. rewrite totalEmailsFound_from.
  destruct (forallb (fun site => bool_decide (site_emails site ≠ None)) data) eqn:Hall.
  - split.
    + split; [discriminate|]. intros (site & Hin & Hnone).
      rewrite forallb_forall in Hall. specialize (Hall site Hin).
      apply bool_decide_eq_true_1 in Hall. by destruct Hall.
    + intros total [= <-] found sites summary. by rewrite totalEmails_generateSummary.
  - split; [|discriminate]. split; [intros _|reflexivity].
    apply not_true_iff_false in Hall.
    destruct (List.Exists_dec (fun site => site_emails site = None) data) as [Hex|Hno].
    { intros site. destruct (site_emails site); [right; discriminate | by left]. }
    + apply List.Exists_exists in Hex. exact Hex.
    + destruct Hall. apply forallb_forall. intros site Hin.
      apply bool_decide_eq_true_2. intros Hnone. apply Hno, List.Exists_exists. eauto.
Qed.



(** X17. The flat list of addresses is sorted by code units, without
    repetition, and holds exactly the addresses of the records that have
    any; its length is the number of distinct addresses a summary over the
    same data reports. *)
Theorem emailList_sorted_distinct (data : list Site) :
  StronglySorted String.le (Exports.emailList data) ∧
  List.NoDup (Exports.emailList data) ∧
  (∀ email,
      In email (Exports.emailList data) ↔
      ∃ site emails, In site data ∧ site_emails site = Some emails ∧ In email emails) ∧
  ∀ found sites summary,
    List.length (Exports.emailList data) =
    WordPressProspector.uniqueEmails
      (WordPressProspector.generateSummary
         (WordPressProspector.mkPipeline found sites data summary)).
Proof.
  unfold Exports.emailList.
  pose proof (merge_sort_Permutation String.le (Exports.allEmails data)) as Hperm.
  split; [apply StronglySorted_merge_sort; apply _|].
  split; [|split].
  - apply (Permutation_NoDup (l := Exports.allEmails data)); [by symmetry|].
    apply allEmails_from_NoDup. constructor.
  - intros email. rewrite (Permutation_in' (eq_refl email) Hperm).
    unfold Exports.allEmails. rewrite allEmails_from_In. cbn [In]. tauto.
  - intros found sites summary. rewrite uniqueEmails_generateSummary.
    by apply Permutation_length.
Qed.


Section RecommendationFacts.
Variable stringToNumber : string → spec_float.
Import WordPressProspector Recommendations.

Lemma zero_below_oneAndHalf :
  lessThan (toNumber stringToNumber zero) oneAndHalf = true.
Proof. by vm_compute. Qed.

(** Without an address the average is the number 0, which is below 1.5. *)
Lemma no_address_low_rate (pipeline : Pipeline) :
  totalEmails (generateSummary pipeline) = 0 →
  lessThan (toNumber stringToNumber (avgEmailsPerSite (generateSummary pipeline)))
           oneAndHalf = true.
Proof.
  rewrite totalEmails_generateSummary, avgEmailsPerSite_generateSummary,
    sitesWithContactInfo_generateSummary.
  intros Hzero. rewrite (total_zero_no_site _ Hzero). apply zero_below_oneAndHalf.
Qed.

End RecommendationFacts.

(** X19. On a summary made by [generateSummary] the recommendations are
    never empty and never the "great results" line: the two lines about
    verifying addresses and compliance are there exactly when an address
    was found, and without any address the line about a low extraction
    rate is. *)
Theorem recommendations_of_summary (stringToNumber : string → spec_float)
        (pipeline : WordPressProspector.Pipeline) :
  let summary := WordPressProspector.generateSummary pipeline in
  let recommendations := Recommendations.generateRecommendations stringToNumber summary in
  ¬ In GreatResults recommendations ∧
  recommendations ≠ [] ∧
  (In VerifyAddresses recommendations ↔ 0 < WordPressProspector.totalEmails summary) ∧
  (In EnsureCompliance recommendations ↔ 0 < WordPressProspector.totalEmails summary) ∧
  (WordPressProspector.totalEmails summary = 0 → In LowExtractionRate recommendations).
Proof.
  cbv zeta. pose proof (no_address_low_rate stringToNumber pipeline) as Hlow.
  unfold Recommendations.generateRecommendations.
  destruct (Nat.ltb_spec 0 (WordPressProspector.totalEmails
                              (WordPressProspector.generateSummary pipeline))) as [Hsome|Hnone].
  - clear Hlow.
    destruct (Recommendations.lessThan
                (Recommendations.toNumber stringToNumber
                   (WordPressProspector.wordpressDetectionRate
                      (WordPressProspector.generateSummary pipeline)))
                Recommendations.fifty);
      destruct (Recommendations.lessThan
                  (JsNumber.of_nat (WordPressProspector.sitesWithContactInfo
                                      (WordPressProspector.generateSummary pipeline)))
                  (JsNumber.mul
                     (JsNumber.of_nat (WordPressProspector.confirmedWordPressSites
                                         (WordPressProspector.generateSummary pipeline)))
                     Recommendations.threeTenths));
      destruct (Recommendations.lessThan
                  (Recommendations.toNumber stringToNumber
                     (WordPressProspector.avgEmailsPerSite
                        (WordPressProspector.generateSummary pipeline)))
                  Recommendations.oneAndHalf);
      cbn [app List.length Nat.eqb In];
      (split; [intros Hin; repeat (destruct Hin as [Hin|Hin]; [discriminate|]); destruct Hin|]);
      (split; [discriminate|]);
      (split; [split; [intros _; exact Hsome | intros _; tauto]|]);
      (split; [split; [intros _; exact Hsome | intros _; tauto]|]);
      lia.
  - assert (WordPressProspector.totalEmails (WordPressProspector.generateSummary pipeline) = 0)
      as Hzero by lia.
    rewrite (Hlow Hzero).
    destruct (Recommendations.lessThan
                (Recommendations.toNumber stringToNumber
                   (WordPressProspector.wordpressDetectionRate
                      (WordPressProspector.generateSummary pipeline)))
                Recommendations.fifty);
      destruct (Recommendations.lessThan
                  (JsNumber.of_nat (WordPressProspector.sitesWithContactInfo
                                      (WordPressProspector.generateSummary pipeline)))
                  (JsNumber.mul
                     (JsNumber.of_nat (WordPressProspector.confirmedWordPressSites
                                         (WordPressProspector.generateSummary pipeline)))
                     Recommendations.threeTenths));
      cbn [app List.length Nat.eqb In];
      (split; [intros Hin; repeat (destruct Hin as [Hin|Hin]; [discriminate|]); destruct Hin|]);
      (split; [discriminate|]);
      (split; [split; [intros Hin; repeat (destruct Hin as [Hin|Hin]; [discriminate|]);
                       destruct Hin | lia]|]);
      (split; [split; [intros Hin; repeat (destruct Hin as [Hin|Hin]; [discriminate|]);
                       destruct Hin | lia]|]);
      intros _; tauto.
Qed.

(* ===================================================================== *)
(** * The search stage *)
(* ===================================================================== *)

Section SearchStage.
Context `{Platform}.
Variable select_blocks : string → string → list ResultBlock.
Variable select_blocks_value : string → Json → list ResultBlock.
Variable search_param_q : string → option string.
Import GoogleSearch.

Lemma orElse_nonempty (a b : string) : b ≠ "" → orElse a b ≠ "".
Proof.
  intros Hb. unfold orElse. destruct (String.eqb_spec a ""); [exact Hb | assumption].
Qed.

Lemma blockResult_accepted (block : ResultBlock) :
  Forall accepted (blockResult search_param_q block).
Proof.
  unfold blockResult. destruct (blockUrl search_param_q block) as [url|]; [|constructor].
  destruct (String.eqb url ""); [constructor|]. cbv zeta.
  destruct (negb (String.eqb (cleanUrl url) "") && GoogleSearcher.isValidUrl (cleanUrl url))
    eqn:Hok; [|constructor].
  apply andb_true_iff in Hok as [Hne Hvalid]. apply negb_true_iff in Hne.
  constructor; [|constructor]. unfold accepted. cbn [sr_url sr_title sr_description sr_source].
  split; [exact Hvalid|]. split; [by apply String.eqb_neq|].
  split; [by do 2 apply orElse_nonempty|]. split; [by do 2 apply orElse_nonempty | reflexivity].
Qed.

Lemma parseGoogleResults_accepted (html : string) :
  Forall accepted (parseGoogleResults select_blocks search_param_q html).
Proof.
  unfold parseGoogleResults. apply List.Forall_flat_map, List.Forall_forall.
  intros selector _. apply List.Forall_flat_map, List.Forall_forall.
  intros block _. apply blockResult_accepted.
Qed.

Lemma blockResult_length (block : ResultBlock) :
  List.length (blockResult search_param_q block) ≤ 1.
Proof.
  unfold blockResult. destruct (blockUrl search_param_q block) as [url|]; [|cbn; lia].
  destruct (String.eqb url ""); [cbn; lia|]. cbv zeta.
  destruct (negb (String.eqb (cleanUrl url) "") && GoogleSearcher.isValidUrl (cleanUrl url));
    cbn; lia.
Qed.

Lemma flat_map_length_le {A B} (f : A → list B) (l : list A) (n : nat) :
  (∀ x, List.length (f x) ≤ n) → List.length (List.flat_map f l) ≤ n * List.length l.
Proof.
  intros Hf. induction l as [|x l IH]; cbn [List.flat_map List.length]; [lia|].
  rewrite List.length_app. pose proof (Hf x). lia.
Qed.

(** Parsing what axios hands back gives accepted results, or throws when
    the value cannot be loaded; the world is not touched. *)
Lemma parseResponse_spec (content : Json) (w : World) :
  (∃ pageResults,
      parseResponse select_blocks select_blocks_value search_param_q content w =
        (Ok pageResults, w) ∧
      Forall accepted pageResults) ∨
  (∃ message,
      parseResponse select_blocks select_blocks_value search_param_q content w =
        (Throw message, w)).
Proof.
  assert (∀ value,
             Forall accepted
               (List.flat_map
                  (fun selector =>
                     List.flat_map (blockResult search_param_q)
                                   (select_blocks_value selector value))
                  resultSelectors)) as Hvalue.
  { intros value. apply List.Forall_flat_map, List.Forall_forall.
    intros selector _. apply List.Forall_flat_map, List.Forall_forall.
    intros block _. apply blockResult_accepted. }
  destruct content as [|b|x|html|text|text]; cbn [parseResponse load];
    try (unfold bind, lift, ret;
         match goal with
         | |- context [cheerio_load_value ?v] =>
             destruct (cheerio_load_value v) as [dom|message];
             [left; eexists; split; [reflexivity | apply Hvalue]
             | right; by eexists]
         end).
  left. eexists. split; [reflexivity | apply parseGoogleResults_accepted].
Qed.

(** The result of a page loop extends what was collected before it. *)
Lemma searchGoogle_loop_spec (searchOptions : Options) (query : string)
      (page remaining : nat) (results : list SearchResult) (w : World) :
  ∃ new w',
    searchGoogle_loop select_blocks select_blocks_value search_param_q searchOptions query page remaining results w =
      (Ok (results ++ new), w') ∧
    Forall accepted new.
Proof.
  revert page results w. induction remaining as [|remaining IH]; intros page results w.
  - exists [], w. cbn. unfold ret. by rewrite List.app_nil_r.
  - cbn [searchGoogle_loop]. unfold bind at 1. unfold try_catch. unfold bind at 1. unfold get.
    destruct (axios_get _ 15000 w) as [[response|message] w1].
    + unfold bind at 1.
      destruct (parseResponse_spec (data response) w1)
        as [(pageResults & -> & Hpage)|(cause & ->)].
      * unfold bind at 1.
        assert (∃ w2, (if Nat.ltb page (maxPages searchOptions - 1)
                       then pause (delay searchOptions) else ret tt) w1 = (Ok tt, w2))
          as [w2 ->].
        { destruct (Nat.ltb page (maxPages searchOptions - 1)); eexists; reflexivity. }
        unfold ret at 1.
        destruct (IH (S page) (results ++ pageResults) w2) as (new & w' & -> & Hnew).
        exists (pageResults ++ new), w'. rewrite List.app_assoc. split; [reflexivity|].
        apply List.Forall_app. by split.
      * exists [], w1. unfold ret. rewrite List.app_nil_r. by split.
    + exists [], w1. unfold ret. rewrite List.app_nil_r. by split.
Qed.

Lemma dedup_filter_Forall (P : SearchResult → Prop) (seen : gset string)
      (results : list SearchResult) :
  Forall P results → Forall P (GoogleSearcher.dedup_filter seen results).
Proof.
  intros Hall. revert seen. induction Hall as [|result rest Hresult _ IH]; intros seen.
  - constructor.
  - cbn [GoogleSearcher.dedup_filter].
    destruct (decide (toLowerCase (sr_url result) ∈ seen)); [apply IH|].
    constructor; [exact Hresult | apply IH].
Qed.

(** A search returns: distinct, accepted results. *)
Lemma searchGoogle_spec (this : Options) (query : string) (options : CallOptions) (w : World) :
  ∃ results w',
    searchGoogle select_blocks select_blocks_value search_param_q this query options w = (Ok results, w') ∧
    NoDup (List.map (fun result => toLowerCase (sr_url result)) results) ∧
    Forall accepted results.
Proof.
  unfold searchGoogle. cbv zeta. unfold try_catch, bind.
  destruct (searchGoogle_loop_spec (mergeOptions this options) query 0
              (maxPages (mergeOptions this options)) [] w) as (new & w' & -> & Hnew).
  unfold ret. eexists _, _. split; [reflexivity|]. cbn [app].
  split; [apply dedup_filter_keys | by apply dedup_filter_Forall].
Qed.

(** The loop over the queries extends what was collected before it. *)
Lemma findWordPressSites_loop_spec (this : Options) (options : CallOptions) (n i : nat)
      (queries : list string) (allResults : list SearchResult) (w : World) :
  ∃ new w',
    findWordPressSites_loop select_blocks select_blocks_value search_param_q this options n i queries allResults w =
      (Ok (allResults ++ new), w') ∧
    Forall accepted new.
Proof.
  revert i allResults w. induction queries as [|query rest IH]; intros i allResults w.
  - exists [], w. cbn. unfold ret. by rewrite List.app_nil_r.
  - cbn [findWordPressSites_loop]. unfold bind at 1. unfold try_catch. unfold bind at 1.
    destruct (searchGoogle_spec this query options w) as (results & w1 & -> & _ & Hresults).
    destruct (capReached (co_maxResults options) (allResults ++ results)).
    + unfold ret. cbn [fst snd]. by exists results, w1.
    + assert (∃ w2, (let* _ := if Nat.ltb i (n - 1) then pause (delay this) else ret tt in
                     ret (allResults ++ results, false)) w1 =
                    (Ok (allResults ++ results, false), w2)) as [w2 ->].
      { unfold bind, pause, ret. destruct (Nat.ltb i (n - 1)); eexists; reflexivity. }
      cbn [fst snd].
      destruct (IH (S i) (allResults ++ results) w2) as (new & w' & -> & Hnew).
      exists (results ++ new), w'. rewrite List.app_assoc. split; [reflexivity|].
      apply List.Forall_app. by split.
Qed.

Lemma searchByKeywords_loop_spec (this : Options) (options : CallOptions)
      (queries : list string) (allResults : list SearchResult) (w : World) :
  ∃ new w',
    searchByKeywords_loop select_blocks select_blocks_value search_param_q this options queries allResults w =
      (Ok (allResults ++ new), w') ∧
    Forall accepted new.
Proof.
  revert allResults w. induction queries as [|query rest IH]; intros allResults w.
  - exists [], w. cbn. unfold ret. by rewrite List.app_nil_r.
  - cbn [searchByKeywords_loop]. unfold bind at 1. unfold try_catch. unfold bind at 1.
    destruct (searchGoogle_spec this query options w) as (results & w1 & -> & _ & Hresults).
    unfold bind at 1. unfold pause at 1. unfold ret at 1.
    destruct (IH (allResults ++ results) (sleep (delay this) w1)) as (new & w' & -> & Hnew).
    exists (results ++ new), w'. rewrite List.app_assoc. split; [reflexivity|].
    apply List.Forall_app. by split.
Qed.

Lemma inherited_not_own (industry : string) :
  In industry inheritedKeys →
  String.eqb industry "" = false ∧ ownProperty industry industryQueries = None.
Proof.
  unfold inheritedKeys. cbn [In]. intros Hin.
  repeat (destruct Hin as [<-|Hin]; [by split|]). destruct Hin.
Qed.

Lemma capResults_spec (maxResults : option nat) (uniqueResults : list SearchResult) :
  (NoDup (List.map (fun result => toLowerCase (sr_url result)) uniqueResults) →
   NoDup (List.map (fun result => toLowerCase (sr_url result))
                   (capResults maxResults uniqueResults))) ∧
  (Forall accepted uniqueResults → Forall accepted (capResults maxResults uniqueResults)) ∧
  ∀ m, maxResults = Some (S m) → List.length (capResults maxResults uniqueResults) ≤ S m.
Proof.
  unfold capResults. destruct maxResults as [[|m]|].
  - split; [done|]. split; [done | discriminate].
  - split; [|split].
    + intros Hnodup. rewrite <- List.firstn_map.
      eapply sublist_NoDup; [exact Hnodup | apply sublist_take].
    + apply Forall_take.
    + intros m' [= <-]. rewrite List.length_firstn. lia.
  - split; [done|]. split; [done | discriminate].
Qed.

End SearchStage.

(** X20. Whatever the page, every result [parseGoogleResults] returns has
    a URL that passes [isValidUrl], a title and a description that are not
    empty ([No title] and [No description] at worst) and the source tag;
    and there is at most one result per block the three selectors pick. *)
Theorem parseGoogleResults_accepts `{Platform}
        (select_blocks : string → string → list ResultBlock)
        (search_param_q : string → option string) (html : string) :
  Forall GoogleSearch.accepted
         (GoogleSearch.parseGoogleResults select_blocks search_param_q html) ∧
  List.length (GoogleSearch.parseGoogleResults select_blocks search_param_q html) ≤
  List.length (List.flat_map (fun selector => select_blocks selector html)
                             GoogleSearch.resultSelectors).
Proof.
  split; [apply parseGoogleResults_accepted|].
  unfold GoogleSearch.parseGoogleResults.
  induction GoogleSearch.resultSelectors as [|selector selectors IH]; [reflexivity|].
  cbn [List.flat_map]. rewrite !List.length_app.
  pose proof (flat_map_length_le (GoogleSearch.blockResult search_param_q)
                (select_blocks selector html) 1 (blockResult_length search_param_q)).
  lia.
Qed.

(** X21. [searchGoogle] never throws: a page that cannot be fetched ends
    the search, and what the pages before it gave is returned.  The
    results are accepted ones with pairwise distinct lower-cased URLs.
    When the very first request fails the search returns the empty array
    after that one request. *)
Theorem searchGoogle_returns `{Platform}
        (select_blocks : string → string → list ResultBlock)
        (select_blocks_value : string → Json → list ResultBlock)
        (search_param_q : string → option string)
        (this : GoogleSearch.Options) (query : string) (options : GoogleSearch.CallOptions)
        (w : World) :
  ∃ results w',
    GoogleSearch.searchGoogle select_blocks select_blocks_value search_param_q this query options w =
      (Ok results, w') ∧
    NoDup (List.map (fun result => toLowerCase (sr_url result)) results) ∧
    Forall GoogleSearch.accepted results ∧
    (0 < GoogleSearch.maxPages (GoogleSearch.mergeOptions this options) →
     ∀ message w1,
       axios_get (GoogleSearch.buildGoogleSearchUrl query 0
                    (GoogleSearch.mergeOptions this options)) 15000 w = (Throw message, w1) →
       results = [] ∧ w' = w1).
Proof.
  destruct (searchGoogle_spec select_blocks select_blocks_value search_param_q this query options w)
    as (results & w' & Hrun & Hnodup & Hall).
  exists results, w'. split; [exact Hrun|]. split; [exact Hnodup|]. split; [exact Hall|].
  intros Hpages message w1 Hfail. revert Hrun.
  unfold GoogleSearch.searchGoogle. cbv zeta.
  destruct (GoogleSearch.maxPages (GoogleSearch.mergeOptions this options)) as [|pages] eqn:Hmax;
    [lia|].
  cbn [GoogleSearch.searchGoogle_loop]. unfold try_catch, bind, get, ret.
  cbn [Nat.mul]. rewrite Hfail. by intros [= <- <-].
Qed.

(** X22. [findWordPressSites] throws exactly when the industry asked for
    is a property every object inherits ([constructor], [toString], ...):
    the spread of what is found under that name fails before any request.
    Otherwise it returns, whatever the searches do: accepted results with
    pairwise distinct lower-cased URLs, at most [maxResults] of them when
    a positive limit is given. *)
Theorem findWordPressSites_results `{Platform}
        (select_blocks : string → string → list ResultBlock)
        (select_blocks_value : string → Json → list ResultBlock)
        (search_param_q : string → option string)
        (this : GoogleSearch.Options) (options : GoogleSearch.CallOptions) (w : World) :
  (∀ industry,
      GoogleSearch.co_industry options = Some industry →
      In industry GoogleSearch.inheritedKeys →
      GoogleSearch.findWordPressSites select_blocks select_blocks_value search_param_q this options w =
      (Throw GoogleSearch.notIterable, w)) ∧
  ((∀ industry, GoogleSearch.co_industry options = Some industry →
                ¬ In industry GoogleSearch.inheritedKeys) →
   ∃ results w',
     GoogleSearch.findWordPressSites select_blocks select_blocks_value search_param_q this options w =
       (Ok results, w') ∧
     NoDup (List.map (fun result => toLowerCase (sr_url result)) results) ∧
     Forall GoogleSearch.accepted results ∧
     ∀ m, GoogleSearch.co_maxResults options = Some (S m) → List.length results ≤ S m).
Proof.
  split.
  - intros industry Hindustry Hin. unfold GoogleSearch.findWordPressSites.
    rewrite Hindustry. destruct (inherited_not_own industry Hin) as [-> ->].
    assert (existsb (String.eqb industry) GoogleSearch.inheritedKeys = true) as ->.
    { apply existsb_exists. exists industry. split; [exact Hin | apply String.eqb_refl]. }
    reflexivity.
  - intros Hplain. unfold GoogleSearch.findWordPressSites.
    assert (∃ industryPart,
               match GoogleSearch.co_industry options with
               | Some industry =>
                   if String.eqb industry "" then Ok []
                   else match GoogleSearch.ownProperty industry GoogleSearch.industryQueries with
                        | Some queries => Ok queries
                        | None =>
                            if existsb (String.eqb industry) GoogleSearch.inheritedKeys
                            then Throw GoogleSearch.notIterable
                            else Ok []
                        end
               | None => Ok []
               end = Ok industryPart) as [industryPart ->].
    { destruct (GoogleSearch.co_industry options) as [industry|]; [|by eexists].
      destruct (String.eqb industry ""); [by eexists|].
      destruct (GoogleSearch.ownProperty industry GoogleSearch.industryQueries);
        [by eexists|].
      destruct (existsb (String.eqb industry) GoogleSearch.inheritedKeys) eqn:Hin;
        [|by eexists].
      apply existsb_exists in Hin as (key & Hkey & Heq). apply String.eqb_eq in Heq as <-.
      by destruct (Hplain industry eq_refl). }
    cbv zeta. unfold bind at 1.
    destruct (findWordPressSites_loop_spec select_blocks select_blocks_value search_param_q this options
                (List.length (GoogleSearch.wordpressQueries ++ industryPart ++
                              default [] (GoogleSearch.co_customQueries options)))
                0
                (GoogleSearch.wordpressQueries ++ industryPart ++
                 default [] (GoogleSearch.co_customQueries options))
                [] w) as (new & w' & -> & Hnew).
    unfold ret. eexists _, _. split; [reflexivity|]. cbn [app].
    destruct (capResults_spec (GoogleSearch.co_maxResults options)
                (GoogleSearcher.deduplicateResults new)) as (Hnodup & Hall & Hcap).
    split; [apply Hnodup, dedup_filter_keys|].
    split; [by apply Hall, dedup_filter_Forall | exact Hcap].
Qed.

(** X23. [searchByKeywords] never throws either, and returns accepted
    results with pairwise distinct lower-cased URLs; without keywords it
    returns the empty array and makes no request. *)
Theorem searchByKeywords_returns `{Platform}
        (select_blocks : string → string → list ResultBlock)
        (select_blocks_value : string → Json → list ResultBlock)
        (search_param_q : string → option string)
        (this : GoogleSearch.Options) (keywords : list string)
        (options : GoogleSearch.CallOptions) (w : World) :
  ∃ results w',
    GoogleSearch.searchByKeywords select_blocks select_blocks_value search_param_q this keywords options w =
      (Ok results, w') ∧
    NoDup (List.map (fun result => toLowerCase (sr_url result)) results) ∧
    Forall GoogleSearch.accepted results ∧
    (keywords = [] → results = [] ∧ w' = w).
Proof.
  unfold GoogleSearch.searchByKeywords. cbv zeta. unfold bind.
  destruct (searchByKeywords_loop_spec select_blocks select_blocks_value search_param_q this options
              (List.map (fun keyword =>
                           GoogleSearch.quoted keyword +:+ " " +:+
                           GoogleSearch.quoted "powered by wordpress") keywords)
              [] w) as (new & w' & Hrun & Hnew).
  rewrite Hrun. unfold ret. eexists _, _. split; [reflexivity|]. cbn [app].
  split; [apply dedup_filter_keys|]. split; [by apply dedup_filter_Forall|].
  intros ->. cbn in Hrun. unfold ret in Hrun. by injection Hrun as <- <-.
Qed.

(** The search stage on the static web.  Of the six blocks of the page,
    the video site is refused, the redirect link yields no URL (the text
    handed to the parameter parser begins with [=]), the block without a
    link is passed over and the second link to the shop is a duplicate;
    with a limit of one result the first search already reaches it. *)
Example findWordPressSites_on_the_static_web :
  GoogleSearch.searchGoogle (H := SearchFixture.engine)
    SearchFixture.select_blocks SearchFixture.select_blocks_value SearchFixture.search_param_q SearchFixture.searcher
    "wp shop & co" GoogleSearch.noCallOptions [] =
  (Ok [ mkSearchResult "https://shop.test/" "Shop" "No description" "google_search";
        mkSearchResult "https://blog.test/news" "Blog" "Posts ..." "google_search" ],
   [ "https://www.google.com/search?q=wp+shop+%26+co&start=10&num=10&hl=en&safe=active&filter=0";
     "https://www.google.com/search?q=wp+shop+%26+co&start=0&num=10&hl=en&safe=active&filter=0" ]) ∧
  GoogleSearch.findWordPressSites (H := SearchFixture.engine)
    SearchFixture.select_blocks SearchFixture.select_blocks_value SearchFixture.search_param_q SearchFixture.searcher
    (GoogleSearch.mkCallOptions None (Some 1) None None (Some "blogs") None (Some 1)) [] =
  (Ok [ mkSearchResult "https://shop.test/" "Shop" "No description" "google_search" ],
   [ "https://www.google.com/search?q=site%3A*%2Fwp-content%2F&start=0&num=10&hl=en&safe=active&filter=0" ]) ∧
  fst (GoogleSearch.findWordPressSites (H := SearchFixture.engine)
         SearchFixture.select_blocks SearchFixture.select_blocks_value SearchFixture.search_param_q SearchFixture.searcher
         (GoogleSearch.mkCallOptions None None None None (Some "toString") None None) []) =
  Throw "Spread syntax requires ...iterable[Symbol.iterator] to be a function".
Proof. split; [by vm_compute|]. split; by vm_compute. Qed.

(* ===================================================================== *)
(** * The search URL *)
(* ===================================================================== *)

Section FormEncoding.
Import GoogleSearch.

Lemma list_ascii_app (a b : string) :
  list_ascii_of_string (a +:+ b) = list_ascii_of_string a ++ list_ascii_of_string b.
Proof.
  induction a as [|c a IH]; [reflexivity|]. rewrite append_cons. cbn. by rewrite IH.
Qed.

Lemma encodeChar_safe (c : ascii) :
  forallb (fun d => EmailExtractor.is_alnum d || one_of "*-._+%" d)
          (list_ascii_of_string (encodeChar c)) = true.
Proof.
  assert (forallb
            (fun c =>
               forallb (fun d => EmailExtractor.is_alnum d || one_of "*-._+%" d)
                       (list_ascii_of_string (encodeChar c)))
            (List.map ascii_of_nat (seq 0 256)) = true) as Hall by (by vm_compute).
  rewrite forallb_forall in Hall. apply Hall, ascii_enumerated.
Qed.

End FormEncoding.

(** X24. The serialisation of a search parameter only produces letters,
    digits and the characters [*-._+%], so the text of a query cannot end
    its parameter or add one: the search URL is the fixed address, [q=],
    the encoded query, and the five other parameters. *)
Theorem formEncode_safe (query : string) :
  forallb (fun c => EmailExtractor.is_alnum c || one_of "*-._+%" c)
          (list_ascii_of_string (GoogleSearch.formEncode query)) = true ∧
  ∀ start options,
    GoogleSearch.buildGoogleSearchUrl query start options =
    "https://www.google.com/search?q=" +:+ GoogleSearch.formEncode query +:+ "&" +:+
    GoogleSearch.searchParams
      [ ("start", JsNumber.decimal (Z.of_nat start));
        ("num", JsNumber.decimal
                  (Z.of_nat (if Nat.eqb (GoogleSearch.resultsPerPage options) 0
                             then 10 else GoogleSearch.resultsPerPage options)));
        ("hl", GoogleSearch.orElse (GoogleSearch.language options) "en");
        ("safe", "active");
        ("filter", "0") ].
Proof.
  split.
  - induction query as [|c query IH]; [reflexivity|].
    cbn [GoogleSearch.formEncode]. rewrite list_ascii_app, forallb_app, IH.
    by rewrite encodeChar_safe.
  - intros start options. unfold GoogleSearch.buildGoogleSearchUrl, GoogleSearch.searchParams.
    cbn [List.map String.concat]. rewrite !append_assoc. reflexivity.
Qed.

(* ===================================================================== *)
(** * The input side of the scraper *)
(* ===================================================================== *)

Section InputSide.
Context `{Platform}.
Import ScraperInput.

Lemma validateUrls_from (urls valid invalid : list string) :
  fold_left validateStep urls (valid, invalid) =
  (valid ++ List.filter
              (fun url => match url_parse (WordPressDetector.ensureProtocol url) with
                          | Some _ => true
                          | None => false
                          end) urls,
   invalid ++ List.filter
                (fun url => negb match url_parse (WordPressDetector.ensureProtocol url) with
                                 | Some _ => true
                                 | None => false
                                 end) urls).
Proof.
  revert valid invalid. induction urls as [|url urls IH]; intros valid invalid.
  - cbn. by rewrite !List.app_nil_r.
  - cbn [fold_left List.filter]. unfold validateStep at 2. cbn [fst snd].
    destruct (url_parse (WordPressDetector.ensureProtocol url)); cbn [negb];
      rewrite IH, <- List.app_assoc; reflexivity.
Qed.

Lemma splitOn_plain (line : string) :
  ¬ In lf (list_ascii_of_string line) → splitOn lf line = [line].
Proof.
  induction line as [|c line IH]; [reflexivity|]. cbn [list_ascii_of_string In splitOn].
  intros Hno. destruct (Ascii.eqb_spec c lf) as [->|Hc]; [destruct Hno; by left|].
  rewrite IH; [reflexivity|]. intros Hin. apply Hno. by right.
Qed.

Lemma splitOn_line (line rest : string) :
  ¬ In lf (list_ascii_of_string line) →
  splitOn lf (line +:+ String lf rest) = line :: splitOn lf rest.
Proof.
  induction line as [|c line IH]; intros Hno.
  - cbn [splitOn]. change ("" +:+ String lf rest) with (String lf rest).
    cbn [splitOn]. by rewrite Ascii.eqb_refl.
  - rewrite append_cons. cbn [splitOn]. cbn [list_ascii_of_string In] in Hno.
    destruct (Ascii.eqb_spec c lf) as [->|Hc]; [destruct Hno; by left|].
    rewrite IH; [reflexivity|]. intros Hin. apply Hno. by right.
Qed.

(** Splitting at line feeds undoes joining with them. *)
Lemma splitOn_concat (line : string) (lines : list string) :
  Forall (fun line => ¬ In lf (list_ascii_of_string line)) (line :: lines) →
  splitOn lf (String.concat (String lf EmptyString) (line :: lines)) = line :: lines.
Proof.
  revert line. induction lines as [|next lines IH]; intros line Hall.
  - cbn [String.concat]. apply splitOn_plain. by inversion Hall.
  - inversion Hall as [|? ? Hline Hrest]; subst.
    change (String.concat (String lf "") (line :: next :: lines))
      with (line +:+ String lf "" +:+ String.concat (String lf "") (next :: lines)).
    change (String lf "" +:+ String.concat (String lf "") (next :: lines))
      with (String lf (String.concat (String lf "") (next :: lines))).
    rewrite (splitOn_line _ _ Hline). by rewrite IH.
Qed.

End InputSide.

(** X25. [validateUrls] splits its input in two, in order and without
    loss: [valid] holds the entries, as they were given, that the URL
    constructor accepts once a missing protocol is made up for, [invalid]
    holds the others. *)
Theorem validateUrls_partition `{Platform} (urls : list string) :
  let parses url :=
    match url_parse (WordPressDetector.ensureProtocol url) with
    | Some _ => true
    | None => false
    end in
  fst (ScraperInput.validateUrls urls) = List.filter parses urls ∧
  snd (ScraperInput.validateUrls urls) = List.filter (fun url => negb (parses url)) urls ∧
  List.length (fst (ScraperInput.validateUrls urls)) +
  List.length (snd (ScraperInput.validateUrls urls)) = List.length urls.
Proof.
  cbv zeta. unfold ScraperInput.validateUrls. rewrite validateUrls_from. cbn [fst snd app].
  split; [reflexivity|]. split; [reflexivity|].
  induction urls as [|url urls IH]; [reflexivity|]. cbn [List.filter].
  destruct (url_parse (WordPressDetector.ensureProtocol url)); cbn [negb List.length]; lia.
Qed.

(** X26. A file written as lines joined by line feeds is read back as
    those lines, trimmed, less the empty ones and the ones that begin with
    [#]; in particular the file of the [generate-sample] command gives
    back its five hosts. *)
Theorem urlsOfContent_lines (lines : list string) :
  Forall (fun line => ¬ In ScraperInput.lf (list_ascii_of_string line)) lines →
  ScraperInput.urlsOfContent
    (String.concat (String ScraperInput.lf EmptyString) lines) =
  List.filter ScraperInput.keepLine (List.map trim lines).
Proof.
  intros Hall. unfold ScraperInput.urlsOfContent. destruct lines as [|line lines].
  - reflexivity.
  - by rewrite splitOn_concat.
Qed.

Lemma urlsOfContent_lines_witness :
  ScraperInput.urlsOfContent
    (String.concat (String ScraperInput.lf EmptyString) ScraperInput.sampleUrls) =
  [ "example-wp-site1.com"; "example-wp-site2.com"; "another-wordpress-site.org";
    "myblog.wordpress.com"; "company-website.net" ].
Proof.
  rewrite (urlsOfContent_lines ScraperInput.sampleUrls).
  - reflexivity.
  - unfold ScraperInput.sampleUrls.
    repeat (constructor; [vm_compute; intros Hin; decompose [or] Hin; congruence|]).
    constructor.
Defined.

(* ===================================================================== *)
(** * More on the indicators, the page addresses and deduplication *)
(* ===================================================================== *)

Section IndicatorFacts.
Context `{Platform}.
Import WordPressDetector.

(** The indicator [generator.*wordpress] is looked for as it is written,
    and a page that has it has [wordpress], which comes first. *)
Lemma firstIndicator_not_generator (htmlContent : string) :
  firstIndicator htmlContent ≠ Some "generator.*wordpress".
Proof.
  unfold firstIndicator. intros Hfind.
  apply find_split in Hfind as (before & after & Hsplit & Hhit & Hmiss).
  assert (In "wordpress" before) as Hin.
  { unfold indicators in Hsplit.
    do 7 (destruct before as [|? before]; [discriminate Hsplit|];
          injection Hsplit as <- Hsplit).
    do 4 right. by left. }
  specialize (Hmiss "wordpress" Hin).
  change (toLowerCase "wordpress") with "wordpress" in Hmiss.
  change (toLowerCase "generator.*wordpress") with "generator.*wordpress" in Hhit.
  rewrite (includes_trans htmlContent "generator.*wordpress" "wordpress" Hhit eq_refl) in Hmiss.
  discriminate.
Qed.

(** Where the indicator of a verdict comes from. *)
Lemma detect_indicator_source (url : string) (w w' : World) (v : Verdict) (i : string) :
  detect url w = (Ok v, w') →
  indicator v = Some i →
  (∃ htmlContent, firstIndicator htmlContent = Some i) ∨
  In i [ "meta generator tag"; "WordPress REST API"; "WordPress assets in link tags";
         "WordPress CSS classes" ].
Proof.
  intros Hdetect.
  destruct (detect_ok_text url w w' v Hdetect) as (response & w1 & html & Hget & Hdata).
  rewrite (detect_text url w w1 response html Hget Hdata) in Hdetect.
  cbv zeta in Hdetect. revert Hdetect.
  destruct (firstIndicator (toLowerCase html)) as [j|] eqn:Hfirst.
  { unfold ret. intros [= <- <-] [= <-]. left. eauto. }
  unfold try_catch, bind, get, ret.
  repeat match goal with
         | |- context [if ?b then _ else _] => destruct b
         | |- context [match axios_get ?u ?t ?w0 with _ => _ end] =>
             destruct (axios_get u t w0) as [[?|?] ?]
         end;
    intros [= <- <-] [= <-]; right; cbn [In]; tauto.
Qed.

End IndicatorFacts.

(** X27. The indicator [generator.*wordpress] is never the one reported:
    it is searched as a literal substring, and a page containing it
    contains [wordpress], an earlier entry of the list.  No verdict of
    [isWordPressSite] names it. *)
Theorem generator_indicator_never_reported `{Platform} :
  In "generator.*wordpress" WordPressDetector.indicators ∧
  (∀ htmlContent,
      WordPressDetector.firstIndicator htmlContent ≠ Some "generator.*wordpress") ∧
  (∀ url w v w',
      WordPressDetector.isWordPressSite url w = (Ok v, w') →
      indicator v ≠ Some "generator.*wordpress").
Proof.
  split; [unfold WordPressDetector.indicators; cbn [In]; tauto|].
  split; [apply firstIndicator_not_generator|].
  intros url w v w'. unfold WordPressDetector.isWordPressSite, try_catch.
  destruct (WordPressDetector.detect (WordPressDetector.ensureProtocol url) w)
    as [[v0|message] w1] eqn:Hdetect; [|discriminate].
  intros [= <- <-] Hindicator.
  destruct (detect_indicator_source _ _ _ _ _ Hdetect Hindicator) as [[html Hfirst]|Hin].
  - by apply (firstIndicator_not_generator html).
  - cbn [In] in Hin. decompose [or] Hin; discriminate || done.
Qed.

(** X28. [extractEmailsFromPage] never throws: a page that cannot be
    fetched, or whose body cannot be loaded, gives the empty array.  The
    addresses it returns are pairwise distinct and pass the syntax check,
    and the address of every [mailto:] link of the loaded page (up to a
    [?]) and every [data-email] value is among them as soon as it passes
    that check.  A body that is a string is always loaded. *)
Theorem extractEmailsFromPage_collects `{Platform} (url : string) (w : World) :
  ∃ emails w',
    EmailExtractor.extractEmailsFromPage url w = (Ok emails, w') ∧
    List.NoDup emails ∧
    List.Forall (fun email => validator_isEmail email = true) emails ∧
    (∀ message w1, axios_get url 10000 w = (Throw message, w1) → emails = [] ∧ w' = w1) ∧
    (∀ response w1,
        axios_get url 10000 w = (Ok response, w1) →
        w' = w1 ∧
        (∀ html, data response = JsonString html →
                 load (data response) w1 = (Ok (cheerio_load html), w1)) ∧
        (∀ cause, load (data response) w1 = (Throw cause, w1) → emails = []) ∧
        (∀ dom,
            load (data response) w1 = (Ok dom, w1) →
            (∀ href,
                In href (dom_anchor_hrefs dom) →
                startsWith href "mailto:" = true →
                validator_isEmail (before_char "?" (replace_first href "mailto:" "")) = true →
                In (before_char "?" (replace_first href "mailto:" "")) emails) ∧
            (∀ email,
                In email (dom_data_emails dom) →
                validator_isEmail email = true →
                In email emails))).
Proof.
  unfold EmailExtractor.extractEmailsFromPage, try_catch, bind, get.
  destruct (axios_get url 10000 w) as [[response|message] w1].
  - assert (∃ outcome, load (data response) w1 = (outcome, w1)) as [outcome Hload].
    { unfold load, lift, ret. destruct (data response); by eexists. }
    rewrite Hload. destruct outcome as [dom|cause]; unfold ret.
    + eexists _, _. split; [reflexivity|].
      destruct (emailsOfDom_valid dom) as [Hnodup Hvalid].
      split; [exact Hnodup|]. split; [exact Hvalid|]. split; [discriminate|].
      intros response' w1' [= <- <-]. split; [reflexivity|].
      split; [by intros html ->|]. rewrite Hload. split; [discriminate|].
      intros dom' [= <-]. unfold EmailExtractor.emailsOfDom. split.
      * intros href Hin Hmailto Hok.
        apply set_add_all_In. right. apply set_add_all_In. right. apply set_add_all_In. left.
        unfold EmailExtractor.mailtoEmails. apply filter_In. split; [|exact Hok].
        apply in_map_iff. exists href. split; [reflexivity|]. by apply filter_In.
      * intros email Hin Hok.
        apply set_add_all_In. right. apply set_add_all_In. left.
        unfold EmailExtractor.dataEmails. by apply filter_In.
    + eexists _, _. split; [reflexivity|]. split; [constructor|]. split; [constructor|].
      split; [discriminate|].
      intros response' w1' [= <- <-]. split; [reflexivity|].
      split; [by intros html ->|]. rewrite Hload. split; [done | discriminate].
  - eexists _, _. split; [reflexivity|]. split; [constructor|]. split; [constructor|].
    split; [by intros ? ? [= <- <-] | discriminate].
Qed.

Ltac same_members :=
  apply set_eq; intros ?;
  rewrite ?elem_of_union, ?elem_of_singleton, ?elem_of_empty;
  intuition (subst; auto).

Section DedupComposition.
Import GoogleSearcher.

Lemma dedup_filter_app (seen : gset string) (l1 l2 : list SearchResult) :
  dedup_filter seen (l1 ++ l2) =
  dedup_filter seen l1 ++
  dedup_filter (list_to_set (List.map (fun r => toLowerCase (sr_url r)) l1) ∪ seen) l2.
Proof.
  revert seen. induction l1 as [|r l1 IH]; intros seen.
  - cbn [app dedup_filter List.map list_to_set]. f_equal. same_members.
  - cbn [app dedup_filter List.map list_to_set].
    destruct (decide (toLowerCase (sr_url r) ∈ seen)) as [Hin|Hout].
    + rewrite IH. do 2 f_equal. same_members.
    + rewrite IH. cbn [app]. do 3 f_equal. same_members.
Qed.

Lemma dedup_filter_twice (seen1 seen2 : gset string) (l : list SearchResult) :
  dedup_filter seen1 (dedup_filter seen2 l) = dedup_filter (seen1 ∪ seen2) l.
Proof.
  revert seen1 seen2. induction l as [|r l IH]; intros seen1 seen2; [reflexivity|].
  cbn [dedup_filter].
  destruct (decide (toLowerCase (sr_url r) ∈ seen2)) as [Hin2|Hout2].
  - rewrite decide_True by (apply elem_of_union; by right). apply IH.
  - cbn [dedup_filter].
    destruct (decide (toLowerCase (sr_url r) ∈ seen1)) as [Hin1|Hout1].
    + rewrite decide_True by (apply elem_of_union; by left). rewrite IH. f_equal.
      same_members.
    + rewrite decide_False by (rewrite elem_of_union; tauto). rewrite IH. do 2 f_equal.
      same_members.
Qed.

Lemma dedup_filter_keyset (seen : gset string) (l : list SearchResult) :
  list_to_set (List.map (fun r => toLowerCase (sr_url r)) (dedup_filter seen l)) ∪ seen =
  list_to_set (List.map (fun r => toLowerCase (sr_url r)) l) ∪ seen.
Proof.
  revert seen. induction l as [|r l IH]; intros seen; [reflexivity|].
  cbn [dedup_filter].
  destruct (decide (toLowerCase (sr_url r) ∈ seen)) as [Hin|Hout].
  - rewrite IH. cbn [List.map list_to_set]. same_members.
  - cbn [List.map list_to_set].
    pose proof (IH ({[toLowerCase (sr_url r)]} ∪ seen)) as Hrest.
    apply set_eq. intros x. apply (proj1 (set_eq _ _)) with (x := x) in Hrest.
    rewrite !elem_of_union, ?elem_of_singleton in Hrest |- *. tauto.
Qed.

Lemma keyset_empty_seen (l : list SearchResult) :
  list_to_set (List.map (fun r => toLowerCase (sr_url r)) (dedup_filter ∅ l)) =@{gset string}
  list_to_set (List.map (fun r => toLowerCase (sr_url r)) l).
Proof.
  pose proof (dedup_filter_keyset ∅ l) as Hkeys. by rewrite !(right_id_L ∅ (∪)) in Hkeys.
Qed.

End DedupComposition.

(** X29. Deduplicating each of two result lists and then their
    concatenation gives what deduplicating the concatenation gives: the
    per-search deduplication loses nothing that the final one would have
    kept, and the first occurrence still wins. *)
Theorem deduplicateResults_app (results1 results2 : list SearchResult) :
  GoogleSearcher.deduplicateResults
    (GoogleSearcher.deduplicateResults results1 ++ GoogleSearcher.deduplicateResults results2) =
  GoogleSearcher.deduplicateResults (results1 ++ results2).
Proof.
  unfold GoogleSearcher.deduplicateResults.
  rewrite !dedup_filter_app, dedup_filter_idempotent, dedup_filter_twice.
  rewrite keyset_empty_seen. do 2 f_equal. same_members.
Qed.

(* ===================================================================== *)
(** * From search results to the hosts the pipeline visits *)
(* ===================================================================== *)

Section Domains.
Context `{Platform}.
Import GoogleSearcher.

(** The host of an accepted result. *)
Lemma accepted_host (result : SearchResult) :
  GoogleSearch.accepted result →
  ∃ u, url_parse (sr_url result) = Some u ∧
       includes (toLowerCase (hostname u)) "." = true ∧
       includes (toLowerCase (hostname u)) "localhost" = false ∧
       ∀ domain, In domain excludeDomains →
                 includes (toLowerCase (hostname u)) domain = false.
Proof.
  intros (Hvalid & _). unfold isValidUrl in Hvalid.
  destruct (url_parse (sr_url result)) as [u|]; [|discriminate].
  exists u. split; [reflexivity|]. cbv zeta in Hvalid.
  apply andb_true_iff in Hvalid as [Hvalid Hlocal].
  apply andb_true_iff in Hvalid as [Hvalid Hdot].
  apply andb_true_iff in Hvalid as [Hexcluded _].
  split; [exact Hdot|]. split; [by apply negb_true_iff|].
  by apply excluded_iff_includes, negb_true_iff.
Qed.

End Domains.

(** X30. On accepted search results, such as those of the search stage,
    [extractDomains] returns one host per result, in order: the host of
    the result's URL, path dropped.  Every such host has a dot and
    contains neither [localhost] nor an entry of the exclusion list. *)
Theorem extractDomains_of_accepted `{Platform} (results : list SearchResult) :
  Forall GoogleSearch.accepted results →
  Forall2
    (fun result domain =>
       ∃ u, url_parse (sr_url result) = Some u ∧ domain = hostname u ∧
            includes (toLowerCase domain) "." = true ∧
            includes (toLowerCase domain) "localhost" = false ∧
            ∀ excluded, In excluded GoogleSearcher.excludeDomains →
                        includes (toLowerCase domain) excluded = false)
    results (GoogleSearcher.extractDomains results).
Proof.
  induction 1 as [|result results Hresult _ IH]; [constructor|].
  cbn [GoogleSearcher.extractDomains List.map]. constructor; [|exact IH].
  destruct (accepted_host result Hresult) as (u & Hparse & Hdot & Hlocal & Hexcluded).
  exists u. rewrite Hparse. by repeat split.
Qed.

(** [extractDomains_of_accepted] on the results of a search of the static
    web. *)
Lemma extractDomains_of_accepted_witness :
  Forall2
    (fun result domain =>
       ∃ u, url_parse (Platform := SearchFixture.engine) (sr_url result) = Some u ∧
            domain = hostname u ∧
            includes (toLowerCase domain) "." = true ∧
            includes (toLowerCase domain) "localhost" = false ∧
            ∀ excluded, In excluded GoogleSearcher.excludeDomains →
                        includes (toLowerCase domain) excluded = false)
    [ mkSearchResult "https://shop.test/" "Shop" "No description" "google_search";
      mkSearchResult "https://blog.test/news" "Blog" "Posts ..." "google_search" ]
    (GoogleSearcher.extractDomains (H := SearchFixture.engine)
       [ mkSearchResult "https://shop.test/" "Shop" "No description" "google_search";
         mkSearchResult "https://blog.test/news" "Blog" "Posts ..." "google_search" ]).
Proof.
  apply (extractDomains_of_accepted (H := SearchFixture.engine)).
  repeat (constructor;
          [unfold GoogleSearch.accepted; cbn [sr_url sr_title sr_description sr_source];
           split; [by vm_compute|]; repeat split; try discriminate|]).
  constructor.
Defined.
